(** * flow_tools: the gerrit/jira reconciliation engine

    A shallow embedding of the parts of [flow_tools] that synchronise jira
    issues with gerrit changes:

    - [gerrit_util.get_message_meta]     (commit-message tags),
    - [jira_util.get_transition_to]      (transition discovery),
    - [jira_util.is_nominal_transition]  (forward-only gate),
    - [integrations.update_issues_from_review] (the poll loop),
    - [IncrementJiraFromGerrit.run_args] (the poll checkpoint),
    - the tables of [orm],

    and of what stands beside them in the same files:

    - [gerrit_util.get_gerrit_change_id], [gerrit_query] and the request
      of [get_changes_from_range],
    - [jira_util.add_mentions_to_watchers] with [USER_RE],
    - [git_util.get_resolutions] and [get_issues_closed_in_series],
    - [integrations.get_jira_status_from_changeinfo],
    - the pairs of releases of the release commands.

    Text is Python 2 [unicode]: a list of code points; a byte string is
    a list of bytes.  Dictionaries are [gmap]s.  The sqlalchemy session, the jira server, the clock and the
    log are threaded through a state-and-exception monad. *)

From Stdlib Require Import ZArith NArith List Ascii String.
From stdpp Require Import base option list sorting gmap pretty.

Local Open Scope N_scope.

(** ** Python text *)

Abbreviation text := (list N).

(** A literal, as its code points. *)
Definition u (s : string) : text := N_of_ascii <$> list_ascii_of_string s.

Module Py.

(** [unicode.isspace] on one code point (the Unicode 5.2 tables of
    Python 2.7: bidirectional classes WS, B, S and category Zs). *)
Definition isspace (c : N) : bool :=
  ((9 <=? c) && (c <=? 13)) || ((28 <=? c) && (c <=? 32))
  || (c =? 133) || (c =? 160) || (c =? 5760) || (c =? 6158)
  || ((8192 <=? c) && (c <=? 8202)) || (c =? 8232) || (c =? 8233)
  || (c =? 8239) || (c =? 8287) || (c =? 12288).

(** The line boundaries of [unicode.splitlines] in Python 2.7: line
    feed, vertical tab, form feed and carriage return (the last two
    are boundaries since 2.7), the file, group and record separators,
    the next line of C1, and the line and paragraph separators. *)
Definition islinebreak (c : N) : bool :=
  ((10 <=? c) && (c <=? 13)) || ((28 <=? c) && (c <=? 30))
  || (c =? 133) || (c =? 8232) || (c =? 8233).

(** [s.splitlines()]: [cur] is the line being read.  A carriage return
    followed by a line feed is one boundary; no empty last line. *)
Fixpoint splitlines_from (cur s : text) : list text :=
  match s with
  | [] => match cur with [] => [] | _ => [cur] end
  | c :: s' =>
      if islinebreak c then
        match s' with
        | d :: s'' =>
            if (c =? 13) && (d =? 10) then cur :: splitlines_from [] s''
            else cur :: splitlines_from [] s'
        | [] => cur :: splitlines_from [] s'
        end
      else splitlines_from (cur ++ [c]) s'
  end.

Definition splitlines (s : text) : list text := splitlines_from [] s.

(** [s.startswith(sep)]. *)
Fixpoint starts_with (sep s : text) : bool :=
  match sep, s with
  | [], _ => true
  | a :: sep', b :: s' => (a =? b) && starts_with sep' s'
  | _ :: _, [] => false
  end.

(** The text before and after the first occurrence of [sep], if any. *)
Fixpoint partition (sep s : text) : option (text * text) :=
  if starts_with sep s then Some ([], drop (length sep) s)
  else match s with
       | [] => None
       | c :: s' => (fun p => (c :: p.1, p.2)) <$> partition sep s'
       end.

(** [sep in s]. *)
Definition contains (sep s : text) : bool :=
  match partition sep s with Some _ => true | None => false end.

(** [s.split(sep, 1)]: one or two parts. *)
Definition split1 (sep s : text) : list text :=
  match partition sep s with
  | Some (a, b) => [a; b]
  | None => [s]
  end.

(** [s.split(c)] for a separator of one character: [cur] is the part
    being read.  The empty text gives one empty part. *)
Fixpoint split_from (c : N) (cur s : text) : list text :=
  match s with
  | [] => [cur]
  | d :: s' =>
      if d =? c then cur :: split_from c [] s'
      else split_from c (cur ++ [d]) s'
  end.

Definition split (c : N) (s : text) : list text := split_from c [] s.

Fixpoint lstrip (s : text) : text :=
  match s with
  | c :: s' => if isspace c then lstrip s' else s
  | [] => []
  end.

Definition rstrip (s : text) : text := reverse (lstrip (reverse s)).

(** [s.strip()]. *)
Definition strip (s : text) : text := rstrip (lstrip s).

End Py.

(** ** gerrit_util.get_message_meta *)

(** The values of the metadata dictionary: a text for the branch tags, a
    list of texts for [Closes] and [Resolves]. *)
Inductive meta_value : Type :=
| MStr (s : text)
| MList (l : list text).

#[global] Instance meta_value_eq_dec : EqDecision meta_value.
Proof. solve_decision. Defined.

Definition colon : text := u ":".
Definition arrow : text := u "->".
Definition comma : N := 44.

Definition branch_keys : list text :=
  [u "Feature-Branch"; u "Base-Branch"; u "Relative-To-Branch"; u "ChangeId"].
Definition issue_keys : list text := [u "Closes"; u "Resolves"].

(** The body of the loop over the lines of the message.  [result[key]] of
    an issue key is a list from the start, so the last case of the lookup
    is never taken (see [meta_lists]). *)
Definition meta_line (result : gmap text meta_value) (line : text)
  : gmap text meta_value :=
  match Py.split1 colon line with
  | [key; value] =>
      if bool_decide (key ∈ branch_keys) then
        <[key := MStr (Py.strip value)]> result
      else if bool_decide (key ∈ issue_keys) then
        let issues := Py.strip <$> Py.split comma (Py.strip value) in
        match result !! key with
        | Some (MList l) => <[key := MList (l ++ issues)]> result
        | _ => result
        end
      else result
  | _ => result
  end.

(** [get_message_meta] once gerrit has returned the message. *)
Definition message_meta (message : text) : gmap text meta_value :=
  foldl meta_line
        (<[u "Closes" := MList []]> (<[u "Resolves" := MList []]> ∅))
        (Py.splitlines message).

(** [change_meta[key]] for an issue key. *)
Definition meta_issues (meta : gmap text meta_value) (key : text) : list text :=
  match meta !! key with
  | Some (MList l) => l
  | _ => []
  end.

(** What one line adds to the list of an issue key, in the words of the
    parsing rule: the line is split at its first colon, the key is compared
    as written, the value is split at its commas and every entry trimmed;
    any other line adds nothing. *)
Definition line_entries (key line : text) : list text :=
  match Py.partition colon line with
  | Some (k, v) =>
      if bool_decide (k = key) then Py.strip <$> Py.split comma (Py.strip v)
      else []
  | None => []
  end.

(** A text that [strip] leaves alone: no space at either end. *)
Definition trimmed (s : text) : Prop :=
  (forall c, head s = Some c -> Py.isspace c = false)
  /\ (forall c, last s = Some c -> Py.isspace c = false).

(** Both issue keys hold a list. *)
Definition meta_lists (result : gmap text meta_value) : Prop :=
  forall key, key ∈ issue_keys -> exists l, result !! key = Some (MList l).

(** ** jira_util *)

Record transition := { t_id : text; t_name : text }.

(** The end state named by a transition, in either of jira's formats. *)
Definition transition_state (name : text) : option text :=
  if Py.contains colon name then
    Some (Py.strip (default [] (Py.split1 colon name !! 1%nat)))
  else if Py.contains arrow name then
    Some (Py.strip (default [] (Py.split1 arrow name !! 1%nat)))
  else None.

(** The loop of [get_transition_to] over the transitions jira offers:
    [(tid, available_states)], and the names it warned about. *)
Definition transition_step (target_state : text)
    (acc : option text * list text * list text) (tr : transition)
  : option text * list text * list text :=
  let '(tid, available_states, warned) := acc in
  match transition_state (t_name tr) with
  | None => (tid, available_states, warned ++ [t_name tr])
  | Some tstate =>
      (if bool_decide (tstate = target_state) then Some (t_id tr) else tid,
       available_states ++ [tstate], warned)
  end.

Definition scan_transitions (transitions : list transition)
    (target_state : text) : option text * list text * list text :=
  foldl (transition_step target_state) (None, [], []) transitions.

(** The transitions whose end state is the target. *)
Definition reaches (target_state : text) (tr : transition) : Prop :=
  transition_state (t_name tr) = Some target_state.

#[global] Instance reaches_dec target_state tr :
  Decision (reaches target_state tr).
Proof. unfold reaches. apply _. Defined.

(** [to_state in nominal_flow.get(from_state, [])]. *)
Definition is_nominal_transition (nominal_flow : gmap text (list text))
    (from_state to_state : text) : bool :=
  bool_decide (to_state ∈ default [] (nominal_flow !! from_state)).

(** The gate as [update_issues_from_review] calls it, with the flow of
    the issue's project: [nominal_flow.get(project_key, {})]. *)
Definition is_forward (nominal_flow : gmap text (gmap text (list text)))
    (project_key from_state to_state : text) : bool :=
  is_nominal_transition (default ∅ (nominal_flow !! project_key))
                        from_state to_state.


(** ** orm: the three tables *)

(** A row of [gerrit_jira_map]; [(changeid, issue)] is unique ([u_map]). *)
Record GerritJira := { gj_issue : text; gj_changeid : text }.

(** A row of [gerrit_jira_log].  Times are microseconds, as [Z]. *)
Record GerritJiraTrans :=
  { tr_time : Z; tr_issue : text; from_status : text; to_status : text }.

(** A row of [poll_history]; status zero is a successful poll. *)
Record PollHistory := { period_start : Z; period_end : Z; status : Z }.

(** A table with an autoincremented primary key [rid]: the rows in the
    order of insertion, and the largest [rid] handed out so far. *)
Record table (R : Type) := { rows : list (N * R); last_rid : N }.
Arguments rows {R} _.
Arguments last_rid {R} _.

Definition empty_table {R} : table R := {| rows := []; last_rid := 0 |}.

Definition insert_row {R} (r : R) (t : table R) : table R :=
  {| rows := rows t ++ [(last_rid t + 1, r)]; last_rid := last_rid t + 1 |}.

Definition delete_rows {R} (p : R -> bool) (t : table R) : table R :=
  {| rows := List.filter (fun x => negb (p x.2)) (rows t);
     last_rid := last_rid t |}.

(** [query.filter_by(...).count()]. *)
Definition count_rows {R} (p : R -> bool) (t : table R) : nat :=
  length (List.filter (fun x => p x.2) (rows t)).

(** What autoincrement keeps: the keys grow along the rows and none is
    above the last one handed out. *)
Definition table_ok {R} (t : table R) : Prop :=
  StronglySorted (fun a b : N * R => a.1 < b.1) (rows t)
  /\ Forall (fun x : N * R => x.1 <= last_rid t) (rows t).

Record database :=
  { gerrit_jira_map : table GerritJira;
    gerrit_jira_log : table GerritJiraTrans;
    poll_history : table PollHistory }.

Definition empty_database : database :=
  {| gerrit_jira_map := empty_table; gerrit_jira_log := empty_table;
     poll_history := empty_table |}.

Definition same_pair (issue changeid : text) (r : GerritJira) : bool :=
  bool_decide (gj_issue r = issue) && bool_decide (gj_changeid r = changeid).
Definition of_issue (issue : text) (r : GerritJira) : bool :=
  bool_decide (gj_issue r = issue).
Definition of_change (changeid : text) (r : GerritJira) : bool :=
  bool_decide (gj_changeid r = changeid).

(** ** The collaborators *)

Record issue := { key : text; status_name : text }.
Record resolution := { res_id : text; res_name : text }.

(** A gerrit ChangeInfo, with the entries the engine reads. *)
Record changeinfo :=
  { change_id : text;
    ci_status : text;
    current_revision : text;
    branch : option text;
    owner_name : text;
    owner_email : text;
    more_changes : bool }.

(** The jira client.  [None] is a raised [JIRAError]. *)
Class JiraServer (J : Type) :=
  { resolutions : J -> option (list resolution);
    get_issue : J -> text -> option issue;
    transitions : J -> issue -> option (list transition);
    transition_issue : J -> issue -> text -> option text -> option J;
    add_comment : J -> issue -> text -> option J }.

(** The gerrit client, read only.  [changes project after before start]
    is one page of the query; [commit] is the commit of a revision, whose
    [message] entry may be missing.  [None] is a failed request. *)
Record GerritServer :=
  { changes : text -> text -> text -> nat -> option (list changeinfo);
    commit : text -> text -> option (option text) }.

Inductive exn :=
| JIRAError | RequestError | RuntimeError | KeyError | AssertionError
| IntegrityError.

Inductive log_line :=
| NotAnIssue (issue_key : text)
| Goal (issue_key from_state goal_state : text)
| NoPrefix (issue_key : text)
| NonForward
| MultipleActive
| MissingTransition (available_states : list text)
| DryRun
| Spoofing
| ExpectedSeparator (name : text).

(** What a run prints, logs and asks of jira. *)
Inductive event :=
| Printed (change_id status : text)
| Polling (end_time : Z)
| Warned (l : log_line)
| Informed (l : log_line)
| AskedTransitions (issue_key : text)
| AskedTransition (issue_key tid : text) (res : option text) (accepted : bool)
| AskedComment (issue_key message : text) (accepted : bool).

#[global] Instance exn_eq_dec : EqDecision exn.
Proof. solve_decision. Defined.

(** ** State and exceptions *)

Inductive result (A : Type) :=
| Ok (a : A)
| Raise (e : exn)
| OutOfFuel.
Arguments Ok {A} _.
Arguments Raise {A} _.
Arguments OutOfFuel {A}.

(** What a run works on: the open transaction of the session and what is
    committed, the jira server, the number of clock readings so far, and
    the events so far, the newest first. *)
Record world (J : Type) :=
  { session : database;
    stored : database;
    jira : J;
    clock_reads : nat;
    trace : list event }.
Arguments session {J} _.
Arguments stored {J} _.
Arguments jira {J} _.
Arguments clock_reads {J} _.
Arguments trace {J} _.

Definition M (J A : Type) : Type := world J -> result A * world J.

#[global] Instance M_ret {J} : MRet (M J) := fun A a w => (Ok a, w).
#[global] Instance M_bind {J} : MBind (M J) := fun A B f m w =>
  match m w with
  | (Ok a, w') => f a w'
  | (Raise e, w') => (Raise e, w')
  | (OutOfFuel, w') => (OutOfFuel, w')
  end.

Definition raise {J A} (e : exn) : M J A := fun w => (Raise e, w).
Definition out_of_fuel {J A} : M J A := fun w => (OutOfFuel, w).

(** [try: m except JIRAError: h]. *)
Definition except_JIRAError {J A} (m h : M J A) : M J A := fun w =>
  match m w with
  | (Raise JIRAError, w') => h w'
  | rw => rw
  end.

(** [try: m finally: f], where [f] is told whether [m] returned. *)
Definition finally {J A} (m : M J A) (f : bool -> M J unit) : M J A := fun w =>
  match m w with
  | (Ok a, w') =>
      match f true w' with
      | (Ok _, w'') => (Ok a, w'')
      | (Raise e, w'') => (Raise e, w'')
      | (OutOfFuel, w'') => (OutOfFuel, w'')
      end
  | (Raise e, w') =>
      match f false w' with
      | (Ok _, w'') => (Raise e, w'')
      | (Raise e', w'') => (Raise e', w'')
      | (OutOfFuel, w'') => (OutOfFuel, w'')
      end
  | (OutOfFuel, w') => (OutOfFuel, w')
  end.

(** [for x in l: body(x)]. *)
Fixpoint for_each {J A} (l : list A) (body : A -> M J unit) : M J unit :=
  match l with
  | [] => mret tt
  | x :: l' => body x ;; for_each l' body
  end.

Definition emit {J} (e : event) : M J unit := fun w =>
  (Ok tt, {| session := session w; stored := stored w; jira := jira w;
             clock_reads := clock_reads w; trace := e :: trace w |}).

Definition with_session {J} (f : database -> database) : M J unit := fun w =>
  (Ok tt, {| session := f (session w); stored := stored w; jira := jira w;
             clock_reads := clock_reads w; trace := trace w |}).

(** [sql.commit()]. *)
Definition sql_commit {J} : M J unit := fun w =>
  (Ok tt, {| session := session w; stored := session w; jira := jira w;
             clock_reads := clock_reads w; trace := trace w |}).

Definition set_map (t : table GerritJira) (d : database) : database :=
  {| gerrit_jira_map := t; gerrit_jira_log := gerrit_jira_log d;
     poll_history := poll_history d |}.
Definition set_log (t : table GerritJiraTrans) (d : database) : database :=
  {| gerrit_jira_map := gerrit_jira_map d; gerrit_jira_log := t;
     poll_history := poll_history d |}.
Definition set_history (t : table PollHistory) (d : database) : database :=
  {| gerrit_jira_map := gerrit_jira_map d;
     gerrit_jira_log := gerrit_jira_log d; poll_history := t |}.

(** [sql.query(orm.GerritJira).filter_by(...).count()]. *)
Definition count_map {J} (p : GerritJira -> bool) : M J nat := fun w =>
  (Ok (count_rows p (gerrit_jira_map (session w))), w).

(** [sql.add(record)] of a [GerritJira]: the constraint [u_map] of the
    table refuses a second row for the same change and issue. *)
Definition add_map {J} (r : GerritJira) : M J unit := fun w =>
  if (count_rows (same_pair (gj_issue r) (gj_changeid r))
                 (gerrit_jira_map (session w)) =? 0)%nat
  then with_session
         (fun d => set_map (insert_row r (gerrit_jira_map d)) d) w
  else (Raise IntegrityError, w).

(** [sql.query(orm.GerritJira).filter_by(changeid=...).delete()]. *)
Definition delete_map {J} (p : GerritJira -> bool) : M J unit :=
  with_session (fun d => set_map (delete_rows p (gerrit_jira_map d)) d).

Definition add_log {J} (r : GerritJiraTrans) : M J unit :=
  with_session (fun d => set_log (insert_row r (gerrit_jira_log d)) d).

Definition add_history {J} (r : PollHistory) : M J unit :=
  with_session (fun d => set_history (insert_row r (poll_history d)) d).

(** ** integrations *)

Definition ABANDONED : text := u "ABANDONED".
Definition MERGED : text := u "MERGED".
Definition DRAFT : text := u "DRAFT".
Definition NEW : text := u "NEW".
Definition dash : N := 45.

(** The goal state of an issue that a change refers to: lines 194 to 201
    of [update_issues_from_review]. *)
Definition goal_state_of (status resolution : text) : text :=
  if bool_decide (status = MERGED) then resolution
  else if bool_decide (status = DRAFT) then u "In Progress"
  else u "In Review".

(** The last resolution that jira calls [Done]. *)
Definition find_done (l : list resolution) : option resolution :=
  foldl (fun acc r => if bool_decide (res_name r = u "Done") then Some r else acc)
        None l.

Definition make_jira_message (ci : changeinfo) (goal_state : text) : text :=
  [10] ++ u "Automatically generated message:" ++ [10; 10]
  ++ u "This issue was advanced to " ++ goal_state
  ++ u " due to a gerrit change" ++ [10]
  ++ u "by " ++ owner_name ci ++ u " <" ++ owner_email ci ++ u ">"
  ++ u " on branch " ++ default (u "?") (branch ci)
  ++ u " currently at commit" ++ [10]
  ++ current_revision ci ++ u "." ++ [10]
  ++ u "See: https://gerrit.skyd.io/#/q/" ++ change_id ci ++ [10].

(** [len(response) > 0 and response[-1].get('_more_changes', False)]. *)
Definition has_more (response : list changeinfo) : bool :=
  match last response with
  | Some ci => more_changes ci
  | None => false
  end.

Section Engine.

Context {J : Type} `{!JiraServer J}.
Variable gerrit : GerritServer.
(** The readings of [datetime.datetime.utcnow()], in order. *)
Variable clock : nat -> Z.

Definition utcnow : M J Z := fun w =>
  (Ok (clock (clock_reads w)),
   {| session := session w; stored := stored w; jira := jira w;
      clock_reads := S (clock_reads w); trace := trace w |}).

Definition set_jira (j : J) : M J unit := fun w =>
  (Ok tt, {| session := session w; stored := stored w; jira := j;
             clock_reads := clock_reads w; trace := trace w |}).

(** A request that leaves jira as it is; [None] raises [JIRAError]. *)
Definition jira_ask {A} (f : J -> option A) : M J A := fun w =>
  match f (jira w) with
  | Some a => (Ok a, w)
  | None => (Raise JIRAError, w)
  end.

(** A request that changes jira, with the event that records it. *)
Definition jira_do (f : J -> option J) (e : bool -> event) : M J unit :=
  fun w =>
  match f (jira w) with
  | Some j => (emit (e true) ;; set_jira j) w
  | None => (emit (e false) ;; raise JIRAError) w
  end.

Definition jira_resolutions : M J (list resolution) :=
  jira_ask resolutions.

Definition jira_issue (issue_key : text) : M J issue :=
  jira_ask (fun j => get_issue j issue_key).

Definition jira_transitions (i : issue) : M J (list transition) :=
  emit (AskedTransitions (key i)) ;;
  jira_ask (fun j => transitions j i).

Definition jira_transition_issue (i : issue) (tid : text)
    (res : option text) : M J unit :=
  jira_do (fun j => transition_issue j i tid res)
          (AskedTransition (key i) tid res).

Definition jira_add_comment (i : issue) (message : text) : M J unit :=
  jira_do (fun j => add_comment j i message)
          (AskedComment (key i) message).

(** [jira_util.get_transition_to]. *)
Definition get_transition_to (i : issue) (target_state : text)
  : M J (option text * list text) :=
  l ← jira_transitions i;
  let '(tid, available_states, warned) := scan_transitions l target_state in
  for_each warned (fun name => emit (Warned (ExpectedSeparator name))) ;;
  mret (tid, available_states).

(** [gerrit_util.get_changes_from_range]. *)
Definition get_changes_from_range (project start_time end_time : text)
    (offset : nat) : M J (list changeinfo) := fun w =>
  match changes gerrit project start_time end_time offset with
  | Some l => (Ok l, w)
  | None => (Raise RequestError, w)
  end.

(** [gerrit_util.get_message_meta]. *)
Definition get_message_meta (change_id revision : text)
  : M J (gmap text meta_value) := fun w =>
  match commit gerrit change_id revision with
  | None => (Raise RequestError, w)
  | Some None => (Raise RuntimeError, w)
  | Some (Some message) => (Ok (message_meta message), w)
  end.

(** [(issue, tag_map[key]) for issue in change_meta[key]]. *)
Definition tagged (tag_map : gmap text text) (key : text)
    (issues : list text) : M J (list (text * text)) :=
  match issues with
  | [] => mret []
  | _ => match tag_map !! key with
         | Some state => mret ((fun i => (i, state)) <$> issues)
         | None => raise KeyError
         end
  end.

(** Lines 185 to 192: associate the change with the issue unless the
    association is there. *)
Definition associate (issue_key change_id : text) : M J unit :=
  n ← count_map (same_pair issue_key change_id);
  if (n =? 0)%nat then
    add_map {| gj_issue := issue_key; gj_changeid := change_id |} ;;
    sql_commit
  else mret tt.

(** Lines 236 to 255: the transition, the comment and the log entry. *)
Definition apply_transition (tag_map : gmap text text) (resolve_to : text)
    (ci : changeinfo) (issue_key : text) (i : issue)
    (goal_state tid : text) : M J unit :=
  let message := make_jira_message ci goal_state in
  (if bool_decide (goal_state ∈ (map_to_list tag_map).*2) then
     except_JIRAError
       (jira_transition_issue i tid (Some resolve_to) ;;
        jira_add_comment i message)
       (emit (Warned Spoofing))
   else
     jira_transition_issue i tid None ;;
     jira_add_comment i message) ;;
  now ← utcnow;
  add_log {| tr_time := now; tr_issue := issue_key;
             from_status := status_name i; to_status := goal_state |} ;;
  sql_commit.

(** Lines 206 to 234, for an issue that jira knows: the gates before a
    transition is applied. *)
Definition gated_transition (dry_run : bool)
    (nominal_flow : gmap text (gmap text (list text)))
    (tag_map : gmap text text) (resolve_to : text)
    (ci : changeinfo) (issue_key : text) (i : issue)
    (goal_state : text) : M J unit :=
  if negb (bool_decide (dash ∈ key i)) then
    emit (Warned (NoPrefix issue_key))
  else
    let project_key := default [] (head (Py.split dash (key i))) in
    if negb (is_forward nominal_flow project_key (status_name i) goal_state)
    then emit (Informed NonForward)
    else
      n ← count_map (of_issue issue_key);
      if (1 <? n)%nat then emit (Informed MultipleActive)
      else
        r ← get_transition_to i goal_state;
        match r.1 with
        | None => emit (Informed (MissingTransition r.2))
        | Some tid =>
            if dry_run then emit (Informed DryRun)
            else apply_transition tag_map resolve_to ci issue_key i
                                  goal_state tid
        end.

(** The body of the loop over the issues of a change. *)
Definition update_issue (dry_run : bool)
    (nominal_flow : gmap text (gmap text (list text)))
    (tag_map : gmap text text) (resolve_to : text)
    (ci : changeinfo) (p : text * text) : M J unit :=
  let '(issue_key, resolution) := p in
  found ← except_JIRAError
            (i ← jira_issue issue_key; mret (Some i))
            (emit (Warned (NotAnIssue issue_key)) ;; mret None);
  match found with
  | None => mret tt
  | Some i =>
      associate issue_key (change_id ci) ;;
      let goal_state := goal_state_of (ci_status ci) resolution in
      emit (Informed (Goal issue_key (status_name i) goal_state)) ;;
      gated_transition dry_run nominal_flow tag_map resolve_to ci
                       issue_key i goal_state
  end.

(** The body of the loop over the changes of a page. *)
Definition update_change (dry_run : bool)
    (nominal_flow : gmap text (gmap text (list text)))
    (tag_map : gmap text text) (resolve_to : text)
    (ci : changeinfo) : M J unit :=
  emit (Printed (change_id ci) (ci_status ci)) ;;
  if bool_decide (ci_status ci = ABANDONED) then
    delete_map (of_change (change_id ci))
  else
    change_meta ← get_message_meta (change_id ci) (current_revision ci);
    closes ← tagged tag_map (u "Closes") (meta_issues change_meta (u "Closes"));
    resolves ← tagged tag_map (u "Resolves")
                 (meta_issues change_meta (u "Resolves"));
    for_each (closes ++ resolves)
             (update_issue dry_run nominal_flow tag_map resolve_to ci).

(** The [while has_more_changes] loop; [fuel] bounds the pages. *)
Fixpoint poll_pages (fuel : nat) (project start_time end_time : text)
    (dry_run : bool) (nominal_flow : gmap text (gmap text (list text)))
    (tag_map : gmap text text) (resolve_to : text) (offset : nat)
  : M J unit :=
  match fuel with
  | O => out_of_fuel
  | S fuel' =>
      response ← get_changes_from_range project start_time end_time offset;
      for_each response
               (update_change dry_run nominal_flow tag_map resolve_to) ;;
      if has_more response then
        poll_pages fuel' project start_time end_time dry_run nominal_flow
                   tag_map resolve_to (offset + length response)%nat
      else mret tt
  end.

Definition update_issues_from_review (fuel : nat)
    (project start_time end_time : text) (dry_run : bool)
    (nominal_flow : gmap text (gmap text (list text)))
    (tag_map : gmap text text) : M J unit :=
  l ← jira_resolutions;
  match find_done l with
  | None => raise AssertionError
  | Some r =>
      poll_pages fuel project start_time end_time dry_run nominal_flow
                 tag_map (res_id r) 0
  end.

End Engine.

(** ** __main__: IncrementJiraFromGerrit *)

(** [datetime.timedelta(weeks=1)]. *)
Definition week : Z := 7 * 24 * 3600 * 1000000.

Definition rid_desc (a b : N * PollHistory) : Prop := b.1 <= a.1.

#[global] Instance rid_desc_dec a b : Decision (rid_desc a b).
Proof. unfold rid_desc. apply _. Defined.

(** The query of lines 214 to 218: [filter_by(status=0)], then
    [order_by(rid.desc())], then [slice(0, 1)]. *)
Definition successful (x : N * PollHistory) : bool := Z.eqb (status x.2) 0.

Definition last_success (t : table PollHistory) : list (N * PollHistory) :=
  take 1 (merge_sort rid_desc (List.filter successful (rows t))).

(** Lines 209 to 220: a week before [end_time], unless the query has a
    record, whose [period_end] it is then. *)
Definition window_start (t : table PollHistory) (end_time : Z) : Z :=
  foldl (fun _ record => period_end record.2) (end_time - week)%Z
        (last_success t).

Section Increment.

Context {J : Type} `{!JiraServer J}.
Variable gerrit : GerritServer.
Variable clock : nat -> Z.
(** [strftime(GERRIT_TIME_FMT)]. *)
Variable strftime : Z -> text.

Definition read_history : M J (table PollHistory) := fun w =>
  (Ok (poll_history (session w)), w).

Definition run_args (fuel : nat) (project : text) (dry_run : bool)
    (nominal_flow : gmap text (gmap text (list text)))
    (tag_map : gmap text text) : M J unit :=
  end_time ← utcnow clock;
  history ← read_history;
  let start_time := window_start history end_time in
  emit (Polling end_time) ;;
  finally
    (update_issues_from_review gerrit clock fuel project
       (strftime start_time) (strftime end_time) dry_run nominal_flow
       tag_map)
    (fun returned =>
       if dry_run then mret tt
       else
         add_history {| period_start := start_time;
                        period_end := end_time;
                        status := if returned then 0 else (-1) |} ;;
         sql_commit).

End Increment.

(** ** A jira and a gerrit to run the engine on *)

Module Fake.

(** The status of each issue, the transitions offered for every issue,
    and whether transitions are accepted. *)
Record server :=
  { statuses : list (text * text);
    offered : list transition;
    accepting : bool }.

Definition status_in (l : list (text * text)) (k : text) : option text :=
  snd <$> List.find (fun p => bool_decide (p.1 = k)) l.

Definition move (s : server) (k tid : text) : server :=
  match List.find (fun t => bool_decide (t_id t = tid)) (offered s) with
  | Some t =>
      {| statuses := (k, default [] (transition_state (t_name t)))
                     :: statuses s;
         offered := offered s; accepting := accepting s |}
  | None => s
  end.

#[global] Instance jira_server : JiraServer server :=
  {| resolutions := fun _ => Some [{| res_id := u "1"; res_name := u "Done" |}];
     get_issue := fun s k =>
       (fun st => {| key := k; status_name := st |}) <$> status_in (statuses s) k;
     transitions := fun s _ => Some (offered s);
     transition_issue := fun s i tid _ =>
       if accepting s then Some (move s (key i) tid) else None;
     add_comment := fun s _ _ => Some s |}.

(** One page of changes, each with the same commit message. *)
Definition gerrit (page : list changeinfo) (message : text) : GerritServer :=
  {| changes := fun _ _ _ offset =>
       match offset with O => Some page | _ => Some [] end;
     commit := fun _ _ => Some (Some message) |}.

(** A gerrit that cannot be reached. *)
Definition unreachable : GerritServer :=
  {| changes := fun _ _ _ _ => None; commit := fun _ _ => None |}.

Definition change (id status : text) : changeinfo :=
  {| change_id := id; ci_status := status; current_revision := u "abc123";
     branch := Some (u "master"); owner_name := u "Ann";
     owner_email := u "ann@example.org"; more_changes := false |}.

Definition flow : gmap text (gmap text (list text)) :=
  <[u "PROJ" := <[u "Open" := [u "In Review"; u "Resolved"]]>
                  (<[u "In Review" := [u "Resolved"]]> ∅)]> ∅.

Definition tags : gmap text text :=
  <[u "Closes" := u "Resolved"]> (<[u "Resolves" := u "Resolved"]> ∅).

Definition tracker (accepts : bool) : server :=
  {| statuses := [(u "PROJ-1", u "Open")];
     offered := [ {| t_id := u "11"; t_name := u "Open -> In Review" |};
                  {| t_id := u "21"; t_name := u "Open: Resolved" |} ];
     accepting := accepts |}.

Definition start (j : server) (d : database) : world server :=
  {| session := d; stored := d; jira := j; clock_reads := 0; trace := [] |}.

Definition clock (n : nat) : Z := (1000 * week + Z.of_nat n)%Z.

Definition strftime (t : Z) : text := [Z.to_N t].

End Fake.

(** ** Reading runs *)

(** Every run of [m] relates the world it starts in to the world it ends
    in, however it ends. *)
Definition keeps {J A} (R : relation (world J)) (m : M J A) : Prop :=
  forall w r w', m w = (r, w') -> R w w'.

(** The requests that change an issue. *)
Definition is_request (e : event) : bool :=
  match e with
  | AskedTransition _ _ _ _ | AskedComment _ _ _ => true
  | _ => false
  end.

(** The requests for the transitions of an issue. *)
Definition is_lookup (e : event) : bool :=
  match e with
  | AskedTransitions _ => true
  | _ => false
  end.

(** The second world has the events of the first and then [evs], the
    newest first. *)
Definition adds_events {J} (evs : list event) (w w' : world J) : Prop :=
  trace w' = evs ++ trace w.

(** The second world has the jira, the transition log and the poll
    history of the first, nothing of them is left uncommitted that was
    not, and no transition or comment was requested in between. *)
Definition quiet {J} (w w' : world J) : Prop :=
  jira w' = jira w
  /\ gerrit_jira_log (session w') = gerrit_jira_log (session w)
  /\ poll_history (session w') = poll_history (session w)
  /\ (gerrit_jira_log (stored w) = gerrit_jira_log (session w) ->
      gerrit_jira_log (stored w') = gerrit_jira_log (session w'))
  /\ (poll_history (stored w) = poll_history (session w) ->
      poll_history (stored w') = poll_history (session w'))
  /\ List.filter is_request (trace w') = List.filter is_request (trace w).

(** The poll history of the session is as it was. *)
Definition history_kept {J} (w w' : world J) : Prop :=
  poll_history (session w') = poll_history (session w).

(** The changes and issues of the rows of a database, and a database
    without two rows for one change and issue. *)
Definition pairs (d : database) : list (text * text) :=
  (fun x => (gj_changeid x.2, gj_issue x.2)) <$> rows (gerrit_jira_map d).

Definition pairs_unique {J} (w : world J) : Prop :=
  NoDup (pairs (session w)) /\ NoDup (pairs (stored w)).

(** The two worlds agree on [f]. *)
Definition same_on {J X} (f : world J -> X) : relation (world J) :=
  fun w w' => f w' = f w.

(** The second world has the events of the first, and maybe more. *)
Definition extends {J} : relation (world J) :=
  fun w w' => exists evs, adds_events evs w w'.

(** The world after [associate] has added the row. *)
Definition associated {J} (issue_key change_id : text) (w : world J)
  : world J :=
  let d := set_map (insert_row {| gj_issue := issue_key;
                                  gj_changeid := change_id |}
                               (gerrit_jira_map (session w))) (session w) in
  {| session := d; stored := d; jira := jira w;
     clock_reads := clock_reads w; trace := trace w |}.

(** The world in which the incremental poll starts on its window: the
    clock has been read and the poll announced. *)
Definition polling {J} (clock : nat -> Z) (w : world J) : world J :=
  {| session := session w; stored := stored w; jira := jira w;
     clock_reads := S (clock_reads w);
     trace := Polling (clock (clock_reads w)) :: trace w |}.

(** The world after a row of [poll_history] is added and committed. *)
Definition recorded {J} (r : PollHistory) (w : world J) : world J :=
  let d := set_history (insert_row r (poll_history (session w)))
                       (session w) in
  {| session := d; stored := d; jira := jira w;
     clock_reads := clock_reads w; trace := trace w |}.

(** The world after the rows of a change are deleted in the session. *)
Definition abandoned {J} (ci : changeinfo) (w : world J) : world J :=
  {| session := set_map (delete_rows (of_change (change_id ci))
                                     (gerrit_jira_map (session w)))
                        (session w);
     stored := stored w; jira := jira w; clock_reads := clock_reads w;
     trace := Printed (change_id ci) (ci_status ci) :: trace w |}.

(** ** The rest of gerrit_util, jira_util, integrations and git_util *)

(** A commit as GitPython gives it. *)
Record git_commit := { c_author : text; c_hexsha : text; c_message : text }.

(** The loop of [gerrit_util.get_gerrit_change_id] over the lines of the
    message: the value of the first line whose key is [Change-Id]. *)
Fixpoint change_id_in (lines : list text) : option text :=
  match lines with
  | [] => None
  | line :: rest =>
      match Py.split1 colon (Py.strip line) with
      | [key; value] =>
          if bool_decide (key = u "Change-Id") then Some (Py.strip value)
          else change_id_in rest
      | _ => change_id_in rest
      end
  end.

Definition get_gerrit_change_id (c : git_commit) : option text :=
  change_id_in (Py.splitlines (c_message c)).

(** [integrations.get_jira_status_from_changeinfo]. *)
Definition get_jira_status_from_changeinfo (ci : changeinfo) : option text :=
  if bool_decide (ci_status ci = ABANDONED) then None
  else if bool_decide (ci_status ci = MERGED) then Some (u "Resolved")
  else if bool_decide (ci_status ci = DRAFT) then Some (u "In Progress")
  else Some (u "In Review").

(** A line of a branch key gives its trimmed value. *)
Definition line_value (key line : text) : option text :=
  match Py.partition colon line with
  | Some (k, v) => if bool_decide (k = key) then Some (Py.strip v) else None
  | None => None
  end.

(** *** Mentions and watchers *)

Module Mention.

(** The longest start of [s] without a closing bracket: [[^\]]*]. *)
Fixpoint user_run (s : text) : text :=
  match s with
  | c :: s' => if c =? 93 then [] else c :: user_run s'
  | [] => []
  end.

(** One attempt of [USER_RE], the pattern [\[~(?P<user>[^\]]+)\]], at the
    start of [s]: the user is the longest run without a closing bracket,
    which must not be empty and must be followed by the bracket. *)
Definition match_at (s : text) : option text :=
  match s with
  | c :: d :: s' =>
      if (c =? 91) && (d =? 126) then
        let user := user_run s' in
        match user, drop (length user) s' with
        | _ :: _, e :: _ => if e =? 93 then Some user else None
        | _, _ => None
        end
      else None
  | _ => None
  end.

(** [USER_RE.findall(s)]: the matches from left to right, the search
    going on behind a match; [skip] characters are still inside the last
    match. *)
Fixpoint findall_from (skip : nat) (s : text) : list text :=
  match s with
  | [] => []
  | c :: s' =>
      match skip with
      | S k => findall_from k s'
      | O =>
          match match_at s with
          | Some user => user :: findall_from (length user + 2) s'
          | None => findall_from 0 s'
          end
      end
  end.

Definition findall (s : text) : list text := findall_from 0 s.

(** What jira holds of an issue, for the watchers. *)
Record content :=
  { description : option text;
    comments : list text;
    watchers : list text }.

(** [get_mentioned_user_set]. *)
Definition get_mentioned_user_set (i : content) : gset text :=
  list_to_set (match description i with
               | Some d => findall d
               | None => []
               end)
  ∪ list_to_set (mjoin (findall <$> comments i)).

(** [get_watcher_user_set]. *)
Definition get_watcher_user_set (i : content) : gset text :=
  list_to_set (watchers i).

(** [get_nonwatcher_mentions]. *)
Definition get_nonwatcher_mentions (i : content) : gset text :=
  get_mentioned_user_set i ∖ get_watcher_user_set i.

(** [add_mentions_to_watchers]: the users it asks jira to add.  Python
    goes through the set in an order of its own; nothing is made to
    depend on the order of [elements]. *)
Definition add_mentions_to_watchers (i : content) : list text :=
  elements (get_nonwatcher_mentions i).

End Mention.

(** *** Byte strings and git_util.get_resolutions *)

Module PyStr.

(** [str.isspace] of one byte, in the C locale. *)
Definition isspace (c : N) : bool :=
  ((9 <=? c) && (c <=? 13)) || (c =? 32).

Fixpoint lstrip (s : text) : text :=
  match s with
  | c :: s' => if isspace c then lstrip s' else s
  | [] => []
  end.

Definition rstrip (s : text) : text := reverse (lstrip (reverse s)).

(** [s.strip()]. *)
Definition strip (s : text) : text := rstrip (lstrip s).

(** [s.splitlines()] of a byte string: line feed, carriage return, or
    both as one boundary. *)
Fixpoint splitlines_from (cur s : text) : list text :=
  match s with
  | [] => match cur with [] => [] | _ => [cur] end
  | c :: s' =>
      if (c =? 10) || (c =? 13) then
        match s' with
        | d :: s'' =>
            if (c =? 13) && (d =? 10) then cur :: splitlines_from [] s''
            else cur :: splitlines_from [] s'
        | [] => cur :: splitlines_from [] s'
        end
      else splitlines_from (cur ++ [c]) s'
  end.

Definition splitlines (s : text) : list text := splitlines_from [] s.

(** [s.lower()] of a byte string, in the C locale. *)
Definition lower (s : text) : text :=
  (fun c => if (65 <=? c) && (c <=? 90) then c + 32 else c) <$> s.

End PyStr.

(** [tag_map.get(key)], and [tag_map.get(key.lower())] when that has
    nothing. *)
Definition tag_resolution (tag_map : gmap text text) (key : text)
  : option text :=
  match tag_map !! key with
  | Some r => Some r
  | None => tag_map !! PyStr.lower key
  end.

(** The loop of [get_resolutions] over the issues of a line. *)
Definition resolve_issue (resolution : text) (resolutions : gmap text text)
    (issue : text) : gmap text text :=
  let issue := PyStr.strip issue in
  if bool_decide (issue = u "None") then resolutions
  else <[issue := resolution]> resolutions.

(** The loop of [get_resolutions] over the lines of the message. *)
Definition resolution_line (tag_map : gmap text text)
    (resolutions : gmap text text) (line : text) : gmap text text :=
  match Py.split1 colon (PyStr.strip line) with
  | [key; issues] =>
      match tag_resolution tag_map key with
      | None => resolutions
      | Some resolution =>
          foldl (resolve_issue resolution) resolutions (Py.split comma issues)
      end
  | _ => resolutions
  end.

(** [git_util.get_resolutions] once git has printed the message. *)
Definition get_resolutions (message : text) (tag_map : gmap text text)
  : gmap text text :=
  foldl (resolution_line tag_map) ∅ (PyStr.splitlines message).

(** A byte string without a blank at either end. *)
Definition trimmed_bytes (s : text) : Prop :=
  (forall c, head s = Some c -> PyStr.isspace c = false)
  /\ (forall c, last s = Some c -> PyStr.isspace c = false).

(** *** The gerrit query *)

Module Url.

(** [urllib.always_safe]: letters, digits, and [_.-]. *)
Definition always_safe (c : N) : bool :=
  ((65 <=? c) && (c <=? 90)) || ((97 <=? c) && (c <=? 122))
  || ((48 <=? c) && (c <=? 57)) || (c =? 95) || (c =? 46) || (c =? 45).

(** One digit of [%02X]. *)
Definition hex_digit (n : N) : N :=
  if n <? 10 then 48 + n else 55 + n.

(** [urllib.quote_plus] on one byte. *)
Definition quote_byte (c : N) : text :=
  if always_safe c then [c]
  else if c =? 32 then [43]
  else [37; hex_digit (c / 16); hex_digit (c mod 16)].

(** [urllib.quote_plus(s)] of a byte string; [None] when [s] is no
    byte string: the table of urllib has the 256 bytes only. *)
Definition quote_plus (s : text) : option text :=
  if bool_decide (Forall (fun c => c < 256) s)
  then Some (mjoin (quote_byte <$> s))
  else None.

End Url.

(** The order of [sorted] on byte strings. *)
Fixpoint text_le (a b : text) : bool :=
  match a, b with
  | [], _ => true
  | _ :: _, [] => false
  | x :: a', y :: b' => (x <? y) || ((x =? y) && text_le a' b')
  end.

Definition key_le (a b : text) : Prop := text_le a b = true.

#[global] Instance key_le_dec a b : Decision (key_le a b).
Proof. unfold key_le. apply _. Defined.

(** [sep.join(parts)]. *)
Fixpoint join (sep : text) (parts : list text) : text :=
  match parts with
  | [] => []
  | [p] => p
  | p :: rest => p ++ sep ++ join sep rest
  end.

(** One [key:value] of the query, the value in quotes when its quoted
    form has a plus sign. *)
Definition query_pair (key value : text) : text :=
  if bool_decide (43 ∈ value) then key ++ u ":" ++ [34] ++ value ++ [34]
  else key ++ u ":" ++ value.

(** The loop of [gerrit_query] over the sorted keys. *)
Fixpoint query_pairs (filters : gmap text text) (keys : list text)
  : option (list text) :=
  match keys with
  | [] => Some []
  | key :: rest =>
      match filters !! key with
      | None => None
      | Some raw =>
          match Url.quote_plus raw with
          | None => None
          | Some value =>
              (fun l => query_pair key value :: l) <$> query_pairs filters rest
          end
      end
  end.

(** [gerrit_util.gerrit_query] of the keyword arguments [filters];
    [None] when a value is no byte string. *)
Definition gerrit_query (filters : gmap text text) : option text :=
  join (u "+") <$>
    query_pairs filters (merge_sort key_le (elements (dom filters))).

(** The decimal digits of a number: [str(offset)]. *)
Definition decimal (n : nat) : text := u (pretty n).

(** The request of [get_changes_from_range]. *)
Definition changes_request (project start_time end_time : text)
    (offset : nat) : option text :=
  (fun search_query =>
     u "/changes/?q=" ++ search_query
     ++ u "&o=CURRENT_REVISION&o=LABELS&o=DETAILED_LABELS&o=DETAILED_ACCOUNTS&start="
     ++ decimal offset)
  <$> gerrit_query (<[u "project" := project]>
                      (<[u "after" := start_time]>
                         (<[u "before" := end_time]> ∅))).

(** The characters that [quote_plus] writes. *)
Definition url_char (c : N) : bool :=
  Url.always_safe c || (c =? 43) || (c =? 37).

(** *** Releases *)

(** [git_util.get_issues_closed_in_series] once git has printed the
    message of every commit of the series: the keys of the resolutions
    of every commit, in the order of [sorted], which does not depend on
    the order that [keys()] gives them in. *)
Definition get_issues_closed_in_series (messages : list text)
    (tag_map : gmap text text) : list text :=
  merge_sort key_le
    (messages ≫= fun message =>
       elements (dom (get_resolutions message tag_map))).

(** [zip(releases[0:-1], releases[1:])] of the release commands: every
    release behind the one before it. *)
Definition release_pairs (releases : list text) : list (text * text) :=
  zip (take (length releases - 1) releases) (drop 1 releases).

(** The pairs that the loop of a release command does not skip: all of
    them when no release is asked for, else those that end in it. *)
Definition shown_pairs (releases : list text) (release : option text)
  : list (text * text) :=
  filter (fun p => release = None \/ release = Some p.2)
         (release_pairs releases).

(** *** What a poll keeps *)

(** The rows of the first table are the first rows of the second. *)
Definition grown {R} (t t' : table R) : Prop := rows t `prefix_of` rows t'.

(** The transition log and the poll history have only got longer, in the
    session and in what is committed. *)
Definition appended {J} (w w' : world J) : Prop :=
  grown (gerrit_jira_log (session w)) (gerrit_jira_log (session w'))
  /\ grown (poll_history (session w)) (poll_history (session w'))
  /\ (grown (gerrit_jira_log (stored w)) (gerrit_jira_log (session w)) ->
      grown (gerrit_jira_log (stored w)) (gerrit_jira_log (stored w'))
      /\ grown (gerrit_jira_log (stored w')) (gerrit_jira_log (session w')))
  /\ (grown (poll_history (stored w)) (poll_history (session w)) ->
      grown (poll_history (stored w)) (poll_history (stored w'))
      /\ grown (poll_history (stored w')) (poll_history (session w'))).

Definition database_ok (d : database) : Prop :=
  table_ok (gerrit_jira_map d) /\ table_ok (gerrit_jira_log d)
  /\ table_ok (poll_history d).

(** The keys of every table are in order, in the session and in what is
    committed. *)
Definition tables_ok {J} (w : world J) : Prop :=
  database_ok (session w) /\ database_ok (stored w).

(** Every change that gerrit returns for the window is abandoned. *)
Definition all_abandoned (gerrit : GerritServer)
    (project start_time end_time : text) : Prop :=
  forall offset response,
    changes gerrit project start_time end_time offset = Some response ->
    Forall (fun ci => ci_status ci = ABANDONED) response.

(** * Properties *)

(** ** Text *)

Lemma partition_char_absent (c : N) (s : text) :
  c ∉ s -> Py.partition [c] s = None.
Proof.
  induction s as [|d s IH]; intros Hc; [reflexivity|].
  apply not_elem_of_cons in Hc as [Hne Hs]. cbn.
  destruct (N.eqb_spec c d) as [->|_]; [congruence|]. cbn.
  by rewrite (IH Hs).
Qed.

Lemma partition_char_first (c : N) (a b : text) :
  c ∉ a -> Py.partition [c] (a ++ c :: b) = Some (a, b).
Proof.
  induction a as [|d a IH]; intros Hc.
  - cbn. by rewrite N.eqb_refl.
  - apply not_elem_of_cons in Hc as [Hne Ha]. cbn.
    destruct (N.eqb_spec c d) as [->|_]; [congruence|]. cbn.
    by rewrite (IH Ha).
Qed.

Lemma partition_char_present (c : N) (s : text) :
  c ∈ s -> exists a b, s = a ++ c :: b /\ c ∉ a.
Proof.
  induction s as [|d s IH]; intros Hc; [by apply elem_of_nil in Hc|].
  destruct (decide (c = d)) as [->|Hne].
  - exists [], s. split; [done|]. apply not_elem_of_nil.
  - apply elem_of_cons in Hc as [?|Hs]; [done|].
    destruct (IH Hs) as (a & b & -> & Ha).
    exists (d :: a), b. split; [done|].
    apply not_elem_of_cons. done.
Qed.

Lemma contains_char (c : N) (s : text) :
  Py.contains [c] s = bool_decide (c ∈ s).
Proof.
  unfold Py.contains. case_bool_decide as Hc.
  - destruct (partition_char_present c s Hc) as (a & b & -> & Ha).
    by rewrite partition_char_first.
  - by rewrite partition_char_absent.
Qed.

Lemma partition_cons (sep : text) (c : N) (s : text) :
  Py.partition sep (c :: s)
  = if Py.starts_with sep (c :: s) then Some ([], drop (length sep) (c :: s))
    else (fun p => (c :: p.1, p.2)) <$> Py.partition sep s.
Proof. reflexivity. Qed.

Lemma partition_arrow_first (a b : text) :
  Py.partition [45; 62] a = None ->
  Py.partition [45; 62] (a ++ 32 :: 45 :: 62 :: 32 :: b)
  = Some (a ++ [32], 32 :: b).
Proof.
  induction a as [|c a IH]; intros Hnone; [reflexivity|].
  rewrite partition_cons in Hnone.
  destruct (Py.starts_with [45; 62] (c :: a)) eqn:Hs; [done|].
  destruct (Py.partition [45; 62] a) eqn:E; [done|].
  rewrite <- app_comm_cons, partition_cons, (IH eq_refl).
  replace (Py.starts_with _ _) with false; [reflexivity|].
  destruct a as [|d a]; [|by rewrite <- Hs].
  cbn [app Py.starts_with]. by destruct (45 =? c).
Qed.

Lemma strip_space (s : text) : Py.strip (32 :: s) = Py.strip s.
Proof. reflexivity. Qed.

(** ** The forward-only gate *)

(** C1: the forward check holds exactly when the target state is among the
    states configured after the current state in the flow of the project;
    a project without a flow and a state without an entry allow nothing;
    in the flow [{A: [B], B: [C]}], [C -> B] is refused and [A -> B] is
    allowed. *)
Theorem is_forward_iff_allowed :
  (forall (nominal_flow : gmap text (gmap text (list text)))
          (project_key from_state to_state : text),
      is_forward nominal_flow project_key from_state to_state = true <->
      exists flow allowed,
        nominal_flow !! project_key = Some flow
        /\ flow !! from_state = Some allowed /\ to_state ∈ allowed)
  /\ (forall (nominal_flow : gmap text (gmap text (list text)))
             (project_key from_state to_state : text),
        nominal_flow !! project_key = None ->
        is_forward nominal_flow project_key from_state to_state = false)
  /\ (forall (nominal_flow : gmap text (gmap text (list text)))
             (flow : gmap text (list text))
             (project_key from_state to_state : text),
        nominal_flow !! project_key = Some flow ->
        flow !! from_state = None ->
        is_forward nominal_flow project_key from_state to_state = false)
  /\ (forall (flow : gmap text (list text)) (to_state from_state : text),
        is_nominal_transition flow from_state to_state = true <->
        exists allowed,
          flow !! from_state = Some allowed /\ to_state ∈ allowed)
  /\ (let flow : gmap text (list text) :=
        <[u "A" := [u "B"]]> (<[u "B" := [u "C"]]> ∅) in
      is_nominal_transition flow (u "C") (u "B") = false
      /\ is_nominal_transition flow (u "A") (u "B") = true).
Proof.
  assert (Hnom : forall (flow : gmap text (list text)) from_state to_state,
             is_nominal_transition flow from_state to_state = true <->
             exists allowed,
               flow !! from_state = Some allowed /\ to_state ∈ allowed).
  { intros flow f t. unfold is_nominal_transition.
    rewrite bool_decide_eq_true.
    destruct (flow !! f) as [allowed|]; cbn.
    - split; [eauto|]. by intros (? & [= <-] & ?).
    - split; [by intros ?%elem_of_nil|]. by intros (? & [=] & _). }
  split; [|split; [|split; [|split]]].
  - intros cfg p f t. unfold is_forward. rewrite Hnom.
    destruct (cfg !! p) as [flow|]; cbn.
    + split.
      * intros (allowed & ? & ?). by exists flow, allowed.
      * intros (? & allowed & [= <-] & ? & ?). by exists allowed.
    + split.
      * intros (? & Hl & _). by rewrite lookup_empty in Hl.
      * by intros (? & ? & [=] & _).
  - intros cfg p f t Hp. unfold is_forward, is_nominal_transition.
    rewrite Hp. cbn. rewrite lookup_empty. cbn.
    apply bool_decide_eq_false, not_elem_of_nil.
  - intros cfg flow p f t Hp Hf. unfold is_forward, is_nominal_transition.
    rewrite Hp. cbn. rewrite Hf. cbn.
    apply bool_decide_eq_false, not_elem_of_nil.
  - intros flow t f. apply Hnom.
  - split; vm_compute; reflexivity.
Qed.

(** ** Transition discovery *)

Lemma transition_state_colon (from_state to_state : text) :
  58 ∉ from_state ->
  transition_state (from_state ++ u ": " ++ to_state)
  = Some (Py.strip to_state).
Proof.
  intros Hfrom. unfold transition_state.
  change colon with [58]. change (u ": " ++ to_state) with (58 :: 32 :: to_state).
  rewrite contains_char, bool_decide_eq_true_2 by set_solver.
  unfold Py.split1. rewrite partition_char_first by done.
  cbn [lookup list_lookup default id]. by rewrite strip_space.
Qed.

Lemma transition_state_arrow (from_state to_state : text) :
  58 ∉ from_state -> 58 ∉ to_state ->
  Py.contains arrow from_state = false ->
  transition_state (from_state ++ u " -> " ++ to_state)
  = Some (Py.strip to_state).
Proof.
  intros Hfrom Hto Harrow. unfold transition_state.
  change colon with [58]. change arrow with [45; 62] in *.
  change (u " -> " ++ to_state) with (32 :: 45 :: 62 :: 32 :: to_state).
  rewrite contains_char, bool_decide_eq_false_2.
  2:{ rewrite elem_of_app, !elem_of_cons. intros [?|[?|[?|[?|[?|?]]]]]; done. }
  unfold Py.contains in Harrow.
  destruct (Py.partition [45; 62] from_state) eqn:E; [done|].
  unfold Py.contains, Py.split1. rewrite partition_arrow_first by done.
  cbn [lookup list_lookup default id]. by rewrite strip_space.
Qed.

Lemma scan_transitions_snoc (l : list transition) (tr : transition)
    (target_state : text) :
  scan_transitions (l ++ [tr]) target_state
  = transition_step target_state (scan_transitions l target_state) tr.
Proof. unfold scan_transitions. by rewrite foldl_app. Qed.

Lemma scan_transitions_spec (l : list transition) (target_state : text) :
  scan_transitions l target_state
  = (t_id <$> last (filter (reaches target_state) l),
     omap (fun tr => transition_state (t_name tr)) l,
     filter (fun name => transition_state name = None) (t_name <$> l)).
Proof.
  induction l as [|tr l IH] using rev_ind; [reflexivity|].
  rewrite scan_transitions_snoc, IH. unfold transition_step.
  rewrite filter_app, omap_app, fmap_app, filter_app. cbn.
  destruct (decide (reaches target_state tr)) as [Hr|Hr];
    unfold reaches in Hr;
    destruct (transition_state (t_name tr)) as [tstate|] eqn:E; try done.
  - injection Hr as ->. rewrite bool_decide_eq_true_2 by done.
    rewrite decide_False by done. by rewrite last_snoc, app_nil_r.
  - rewrite bool_decide_eq_false_2 by congruence.
    rewrite decide_False by done. by rewrite !app_nil_r.
  - rewrite decide_True by done. by rewrite !app_nil_r.
Qed.

Lemma for_each_emit {J A} (f : A -> event) (l : list A) (w : world J) :
  for_each l (fun x => emit (f x)) w
  = (Ok tt, {| session := session w; stored := stored w; jira := jira w;
               clock_reads := clock_reads w;
               trace := reverse (f <$> l) ++ trace w |}).
Proof.
  revert w. induction l as [|x l IH]; intros w.
  - by destruct w.
  - rewrite fmap_cons, reverse_cons, <- app_assoc.
    cbn -[reverse]. unfold mbind, M_bind. cbn -[reverse]. by rewrite IH.
Qed.

(** C10: the finder reads the end state of a transition from a name in
    either format, and equivalent names give the same state; it returns
    the id of a transition (the last one) whose end state is the target,
    [None] when no end state is the target, and every end state it read. *)
Theorem get_transition_to_finds :
  (forall from_state to_state : text,
      58 ∉ from_state -> 58 ∉ to_state ->
      Py.contains arrow from_state = false ->
      transition_state (from_state ++ u ": " ++ to_state)
      = Some (Py.strip to_state)
      /\ transition_state (from_state ++ u " -> " ++ to_state)
         = Some (Py.strip to_state))
  /\ (forall (l : list transition) (target_state : text),
        let r := scan_transitions l target_state in
        r.1.2 = omap (fun tr => transition_state (t_name tr)) l
        /\ r.1.1 = t_id <$> last (filter (reaches target_state) l)
        /\ (r.1.1 = None <-> target_state ∉ r.1.2)
        /\ (forall tid, r.1.1 = Some tid ->
              exists tr, tr ∈ l /\ t_id tr = tid
                         /\ transition_state (t_name tr) = Some target_state))
  /\ (forall (J : Type) (JS : JiraServer J) (i : issue) (target_state : text)
             (l : list transition) (w : world J),
        transitions (jira w) i = Some l ->
        exists w',
          get_transition_to i target_state w
          = (Ok ((scan_transitions l target_state).1.1,
                 (scan_transitions l target_state).1.2), w')
          /\ jira w' = jira w /\ session w' = session w
          /\ stored w' = stored w).
Proof.
  split; [|split].
  - intros f t Hf Ht Ha. split.
    + by apply transition_state_colon.
    + by apply transition_state_arrow.
  - intros l target r. subst r. rewrite scan_transitions_spec. cbn.
    split; [done|]. split; [done|].
    assert (Hlast : forall tid,
               t_id <$> last (filter (reaches target) l) = Some tid ->
               exists tr, tr ∈ l /\ t_id tr = tid
                          /\ transition_state (t_name tr) = Some target).
    { intros tid Hl.
      destruct (last (filter (reaches target) l)) as [tr|] eqn:E; [|done].
      injection Hl as <-. exists tr.
      apply last_Some_elem_of, list_elem_of_filter in E as [? ?]. done. }
    split; [|exact Hlast]. split.
    + intros Hnone Hin. apply list_elem_of_omap in Hin as (tr & Hin & Htr).
      destruct (filter (reaches target) l) as [|x k] eqn:E.
      * assert (tr ∈ filter (reaches target) l) as Hx
          by (by apply list_elem_of_filter).
        rewrite E in Hx. by apply elem_of_nil in Hx.
      * destruct (last_is_Some (x :: k)) as [_ Hs].
        destruct Hs as [y Hy]; [done|]. by rewrite Hy in Hnone.
    + intros Hnot.
      destruct (t_id <$> last (filter (reaches target) l)) as [tid|] eqn:E;
        [|done].
      destruct (Hlast tid eq_refl) as (tr & Hin & _ & Htr).
      exfalso. apply Hnot. apply list_elem_of_omap. by exists tr.
  - intros J JS i target l w Hl.
    unfold get_transition_to, jira_transitions, jira_ask, mbind, M_bind.
    unfold emit at 1. cbn [jira]. rewrite Hl.
    destruct (scan_transitions l target) as [[tid avail] warned].
    rewrite for_each_emit. cbn. unfold mret, M_ret. eauto.
Qed.

(** The two formats of C10 at a name that has them. *)
Lemma get_transition_to_finds_witness :
  transition_state (u "Open: In Review") = Some (u "In Review")
  /\ transition_state (u "Open -> In Review") = Some (u "In Review").
Proof.
  exact (proj1 get_transition_to_finds (u "Open") (u "In Review")
           ltac:(by apply (bool_decide_unpack _))
           ltac:(by apply (bool_decide_unpack _)) eq_refl).
Defined.

(** ** Commit-message tags *)

Lemma lstrip_head (s : text) (c : N) :
  head (Py.lstrip s) = Some c -> Py.isspace c = false.
Proof.
  induction s as [|d s IH]; [done|]. cbn [Py.lstrip].
  destruct (Py.isspace d) eqn:E; [done|]. by intros [= <-].
Qed.

Lemma lstrip_keeps (l k : text) (c : N) :
  Py.isspace c = false -> Py.lstrip (l ++ c :: k) = Py.lstrip l ++ c :: k.
Proof.
  intros Hc. induction l as [|d l IH]; cbn [Py.lstrip app].
  - by rewrite Hc.
  - by destruct (Py.isspace d).
Qed.

Lemma rstrip_cons (c : N) (s : text) :
  Py.isspace c = false -> Py.rstrip (c :: s) = c :: Py.rstrip s.
Proof.
  intros Hc. unfold Py.rstrip.
  rewrite reverse_cons, lstrip_keeps by done.
  by rewrite reverse_app.
Qed.

Lemma strip_trimmed (s : text) : trimmed (Py.strip s).
Proof.
  unfold trimmed, Py.strip. split; intros c Hc.
  - destruct (Py.lstrip s) as [|d t] eqn:E; [done|].
    assert (Py.isspace d = false) as Hd
      by (apply lstrip_head with s; by rewrite E).
    rewrite rstrip_cons in Hc by done. by injection Hc as <-.
  - unfold Py.rstrip in Hc. rewrite last_reverse in Hc.
    by apply lstrip_head in Hc.
Qed.

Lemma keys_apart (k : text) : k ∈ branch_keys -> k ∈ issue_keys -> False.
Proof.
  unfold branch_keys, issue_keys. rewrite !elem_of_cons, !elem_of_nil.
  intros [->|[->|[->|[->|[]]]]] [?|[?|[]]]; discriminate.
Qed.

Lemma meta_line_issues (result : gmap text meta_value) (line key : text)
    (l : list text) :
  meta_lists result -> key ∈ issue_keys -> result !! key = Some (MList l) ->
  meta_line result line !! key = Some (MList (l ++ line_entries key line)).
Proof.
  intros Hall Hkey Hl. unfold meta_line, line_entries, Py.split1.
  destruct (Py.partition colon line) as [[k v]|]; [|by rewrite app_nil_r].
  case_bool_decide as Hb.
  - assert (k <> key) by (intros ->; by eapply keys_apart).
    rewrite lookup_insert_ne, bool_decide_eq_false_2, app_nil_r by done. done.
  - case_bool_decide as Hi.
    + destruct (Hall k Hi) as [lk Hk]. rewrite Hk.
      case_bool_decide as He.
      * subst k. rewrite lookup_insert_eq. congruence.
      * by rewrite lookup_insert_ne, app_nil_r.
    + rewrite bool_decide_eq_false_2, app_nil_r by congruence. done.
Qed.

Lemma meta_line_lists (result : gmap text meta_value) (line : text) :
  meta_lists result -> meta_lists (meta_line result line).
Proof.
  intros Hall key Hkey. destruct (Hall key Hkey) as [l Hl].
  eexists. by apply meta_line_issues.
Qed.

Lemma meta_lines_issues (lines : list text) (result : gmap text meta_value)
    (key : text) (l : list text) :
  meta_lists result -> key ∈ issue_keys -> result !! key = Some (MList l) ->
  foldl meta_line result lines !! key
  = Some (MList (l ++ concat (line_entries key <$> lines))).
Proof.
  revert result l. induction lines as [|line lines IH]; intros result l ? ? ?.
  - cbn. by rewrite app_nil_r.
  - cbn [foldl fmap list_fmap concat].
    rewrite (IH _ (l ++ line_entries key line)).
    + by rewrite app_assoc.
    + by apply meta_line_lists.
    + done.
    + by apply meta_line_issues.
Qed.

Lemma message_meta_issues (message key : text) :
  key ∈ issue_keys ->
  meta_issues (message_meta message) key
  = concat (line_entries key <$> Py.splitlines message).
Proof.
  intros Hkey. unfold meta_issues, message_meta.
  rewrite (meta_lines_issues _ _ key []); [done| |done|].
  - intros k Hk. unfold issue_keys in Hk.
    apply elem_of_cons in Hk as [->|Hk]; [by eexists|].
    apply elem_of_cons in Hk as [->|Hk]; [by eexists|].
    by apply elem_of_nil in Hk.
  - unfold issue_keys in Hkey.
    apply elem_of_cons in Hkey as [->|Hkey]; [done|].
    apply elem_of_cons in Hkey as [->|Hkey]; [done|].
    by apply elem_of_nil in Hkey.
Qed.

(** C9: the tag extractor splits every line at its first colon, compares
    the key as written, reads the value of [Closes] and [Resolves] as a
    list separated by commas and trims every entry, gathers the lines of
    one key into one list in the order of the lines, and passes over a
    line without a colon or with another key. *)
Theorem message_meta_accumulates :
  (forall message : text,
      meta_issues (message_meta message) (u "Closes")
      = concat (line_entries (u "Closes") <$> Py.splitlines message)
      /\ meta_issues (message_meta message) (u "Resolves")
         = concat (line_entries (u "Resolves") <$> Py.splitlines message))
  /\ (forall k v : text,
        58 ∉ k -> Py.split1 colon (k ++ u ":" ++ v) = [k; v])
  /\ (forall key k v : text,
        58 ∉ k ->
        line_entries key (k ++ u ":" ++ v)
        = if bool_decide (k = key)
          then Py.strip <$> Py.split comma (Py.strip v) else [])
  /\ (forall key line e : text, e ∈ line_entries key line -> trimmed e)
  /\ (forall (result : gmap text meta_value) (line : text),
        58 ∉ line -> meta_line result line = result)
  /\ (forall (result : gmap text meta_value) (k v : text),
        58 ∉ k -> k ∉ branch_keys -> k ∉ issue_keys ->
        meta_line result (k ++ u ":" ++ v) = result)
  /\ (let message :=
        u "Fix the parser" ++ [10] ++ [10]
        ++ u "Resolves: A-1 ,A-2" ++ [10]
        ++ u "resolves: A-9" ++ [10]
        ++ u "Closes:B-7" ++ [10]
        ++ u "Resolves:  A-3" ++ [10] in
      meta_issues (message_meta message) (u "Resolves")
      = [u "A-1"; u "A-2"; u "A-3"]
      /\ meta_issues (message_meta message) (u "Closes") = [u "B-7"]).
Proof.
  assert (Hsplit : forall k v : text,
             58 ∉ k -> Py.partition colon (k ++ u ":" ++ v) = Some (k, v)).
  { intros k v Hk. change colon with [58].
    change (u ":" ++ v) with (58 :: v). by apply partition_char_first. }
  split; [|split; [|split; [|split; [|split; [|split]]]]].
  - intros message.
    split; apply message_meta_issues; unfold issue_keys; set_solver.
  - intros k v Hk. unfold Py.split1. by rewrite Hsplit.
  - intros key k v Hk. unfold line_entries. by rewrite Hsplit.
  - intros key line e He. unfold line_entries in He.
    destruct (Py.partition colon line) as [[k v]|];
      [|by apply elem_of_nil in He].
    case_bool_decide; [|by apply elem_of_nil in He].
    apply list_elem_of_fmap in He as (x & -> & _).
    by apply strip_trimmed.
  - intros result line Hl. unfold meta_line, Py.split1.
    change colon with [58]. by rewrite partition_char_absent.
  - intros result k v Hk Hb Hi. unfold meta_line, Py.split1.
    rewrite Hsplit by done.
    by rewrite !bool_decide_eq_false_2.
  - split; vm_compute; reflexivity.
Qed.

(** ** Tables *)

Lemma empty_table_ok {R} : table_ok (@empty_table R).
Proof. split; constructor. Qed.

Lemma insert_row_ok {R} (r : R) (t : table R) :
  table_ok t -> table_ok (insert_row r t).
Proof.
  intros [Hs Hb]. split; cbn.
  - induction Hs as [|x l Hl IH Hx]; cbn.
    + repeat constructor.
    + apply Forall_cons in Hb as [Hx1 Hb]. constructor; [by apply IH|].
      apply Forall_app. split; [done|]. constructor; [cbn; lia|constructor].
  - apply Forall_app. split.
    + eapply Forall_impl; [exact Hb|]. cbn. intros. lia.
    + constructor; [cbn; lia|constructor].
Qed.

Lemma delete_rows_ok {R} (p : R -> bool) (t : table R) :
  table_ok t -> table_ok (delete_rows p t).
Proof.
  intros [Hs Hb]. split; cbn.
  - clear Hb. induction Hs as [|x l Hl IH Hx]; cbn; [constructor|].
    destruct (negb (p x.2)); [|done]. constructor; [done|].
    apply Forall_forall. intros y Hy%list_elem_of_In%filter_In.
    destruct Hy as [Hy _]. apply list_elem_of_In in Hy.
    by eapply Forall_forall in Hx.
  - apply Forall_forall. intros y Hy%list_elem_of_In%filter_In.
    destruct Hy as [Hy _]. apply list_elem_of_In in Hy.
    by eapply Forall_forall in Hb.
Qed.

(** ** The poll window *)

#[global] Instance rid_desc_total : Total rid_desc.
Proof. intros a b. unfold rid_desc. lia. Qed.

#[global] Instance rid_desc_trans : Transitive rid_desc.
Proof. intros a b c. unfold rid_desc. lia. Qed.

Lemma successful_rows (t : table PollHistory) (x : N * PollHistory) :
  x ∈ List.filter successful (rows t) <-> x ∈ rows t /\ status x.2 = 0%Z.
Proof.
  rewrite list_elem_of_In, filter_In, <- list_elem_of_In.
  unfold successful. by rewrite Z.eqb_eq.
Qed.

Lemma window_start_default (t : table PollHistory) (end_time : Z) :
  (forall x, x ∈ rows t -> status x.2 <> 0%Z) ->
  window_start t end_time = (end_time - week)%Z.
Proof.
  intros Hno. unfold window_start, last_success.
  destruct (List.filter successful (rows t)) as [|x l] eqn:E; [done|].
  assert (x ∈ List.filter successful (rows t)) as Hx
    by (rewrite E; apply list_elem_of_here).
  apply successful_rows in Hx as [Hx Hs]. by apply Hno in Hx.
Qed.

Lemma window_start_latest (t : table PollHistory) (end_time : Z)
    (x : N * PollHistory) :
  x ∈ rows t -> status x.2 = 0%Z ->
  exists y, y ∈ rows t /\ status y.2 = 0%Z
            /\ (forall z, z ∈ rows t -> status z.2 = 0%Z -> z.1 <= y.1)
            /\ window_start t end_time = period_end y.2.
Proof.
  intros Hx Hs. unfold window_start, last_success.
  pose proof (merge_sort_Permutation rid_desc
                (List.filter successful (rows t))) as Hperm.
  pose proof (StronglySorted_merge_sort rid_desc
                (List.filter successful (rows t))) as Hsorted.
  assert (x ∈ merge_sort rid_desc (List.filter successful (rows t))) as Hin
    by (rewrite Hperm; by apply successful_rows).
  destruct (merge_sort rid_desc (List.filter successful (rows t)))
    as [|y l]; [by apply elem_of_nil in Hin|].
  assert (y ∈ rows t /\ status y.2 = 0%Z) as [Hy Hys].
  { apply successful_rows. rewrite <- Hperm. apply list_elem_of_here. }
  exists y. split; [done|]. split; [done|]. split; [|done].
  intros z Hz Hzs.
  assert (z ∈ y :: l) as Hzl by (rewrite Hperm; by apply successful_rows).
  apply elem_of_cons in Hzl as [->|Hzl]; [lia|].
  apply StronglySorted_inv in Hsorted as [_ Hall].
  eapply Forall_forall in Hall; [|exact Hzl]. exact Hall.
Qed.

Lemma ascending_last {R} (l : list (N * R)) (y z : N * R) :
  StronglySorted (fun a b : N * R => a.1 < b.1) l ->
  y ∈ l -> last l = Some z -> y = z \/ y.1 < z.1.
Proof.
  induction 1 as [|x l Hl IH Hx]; intros Hy Hz; [by apply elem_of_nil in Hy|].
  destruct l as [|x' l'].
  - apply list_elem_of_singleton in Hy as ->. cbn in Hz. left. congruence.
  - change (last (x :: x' :: l')) with (last (x' :: l')) in Hz.
    apply elem_of_cons in Hy as [->|Hy].
    + right. eapply Forall_forall in Hx; [exact Hx|].
      by apply last_Some_elem_of.
    + by apply IH.
Qed.

Lemma filter_ascending {R} (p : N * R -> bool) (l : list (N * R)) :
  StronglySorted (fun a b : N * R => a.1 < b.1) l ->
  StronglySorted (fun a b : N * R => a.1 < b.1) (List.filter p l).
Proof.
  induction 1 as [|x l Hl IH Hx]; cbn; [constructor|].
  destruct (p x); [|done]. constructor; [done|].
  apply Forall_forall. intros y Hy%list_elem_of_In%filter_In.
  destruct Hy as [Hy _]. apply list_elem_of_In in Hy.
  by eapply Forall_forall in Hx.
Qed.

Lemma window_start_most_recent (t : table PollHistory) (end_time : Z) :
  table_ok t ->
  window_start t end_time
  = default (end_time - week)%Z
      ((fun x => period_end x.2) <$> last (List.filter successful (rows t))).
Proof.
  intros [Hasc _].
  destruct (last (List.filter successful (rows t))) as [z|] eqn:Hlast; cbn.
  - assert (z ∈ List.filter successful (rows t)) as Hz
      by (by apply last_Some_elem_of).
    apply successful_rows in Hz as [Hz Hzs].
    destruct (window_start_latest t end_time z Hz Hzs)
      as (y & Hy & Hys & Hmax & ->).
    assert (y ∈ List.filter successful (rows t)) as Hyf
      by (by apply successful_rows).
    destruct (ascending_last _ y z (filter_ascending successful _ Hasc)
                Hyf Hlast) as [->|Hlt]; [done|].
    specialize (Hmax z Hz Hzs). lia.
  - apply window_start_default. intros x Hx Hs.
    assert (x ∈ List.filter successful (rows t)) as Hxf
      by (by apply successful_rows).
    destruct (List.filter successful (rows t)) as [|a l];
      [by apply elem_of_nil in Hxf|].
    destruct (last_is_Some (a :: l)) as [_ Hsome].
    destruct Hsome as [? Hsome]; [done|]. by rewrite Hsome in Hlast.
Qed.

(** ** Runs *)

Section Keeps.

Context {J : Type} (R : relation (world J)) `{!PreOrder R}.

Lemma keeps_ret {A} (a : A) : keeps R (mret a).
Proof. intros w r w' [= <- <-]. reflexivity. Qed.

Lemma keeps_raise {A} (e : exn) : keeps R (@raise J A e).
Proof. intros w r w' [= <- <-]. reflexivity. Qed.

Lemma keeps_out_of_fuel {A} : keeps R (@out_of_fuel J A).
Proof. intros w r w' [= <- <-]. reflexivity. Qed.

Lemma keeps_bind {A B} (m : M J A) (f : A -> M J B) :
  keeps R m -> (forall a, keeps R (f a)) -> keeps R (m ≫= f).
Proof.
  intros Hm Hf w r w' H. unfold mbind, M_bind in H.
  destruct (m w) as [[a|e|] w1] eqn:E; apply Hm in E.
  - apply Hf in H. by etransitivity.
  - by injection H as <- <-.
  - by injection H as <- <-.
Qed.

Lemma keeps_except {A} (m h : M J A) :
  keeps R m -> keeps R h -> keeps R (except_JIRAError m h).
Proof.
  intros Hm Hh w r w' H. unfold except_JIRAError in H.
  destruct (m w) as [[a|e|] w1] eqn:E; apply Hm in E.
  - by injection H as <- <-.
  - destruct e; try by injection H as <- <-.
    apply Hh in H. by etransitivity.
  - by injection H as <- <-.
Qed.

Lemma keeps_finally {A} (m : M J A) (f : bool -> M J unit) :
  keeps R m -> (forall b, keeps R (f b)) -> keeps R (finally m f).
Proof.
  intros Hm Hf w r w' H. unfold finally in H.
  destruct (m w) as [[a|e|] w1] eqn:E; apply Hm in E.
  - destruct (f true w1) as [[[]|e|] w2] eqn:E2; apply Hf in E2;
      injection H as <- <-; by etransitivity.
  - destruct (f false w1) as [[[]|e'|] w2] eqn:E2; apply Hf in E2;
      injection H as <- <-; by etransitivity.
  - by injection H as <- <-.
Qed.

Lemma keeps_for_each {A} (l : list A) (body : A -> M J unit) :
  (forall x, keeps R (body x)) -> keeps R (for_each l body).
Proof.
  intros Hb. induction l as [|x l IH]; cbn [for_each].
  - apply keeps_ret.
  - apply keeps_bind; [apply Hb|]. intros _. apply IH.
Qed.

(** A step that only reads the world. *)
Lemma keeps_read {A} (m : M J A) :
  (forall w, (m w).2 = w) -> keeps R m.
Proof. intros Hm w r w' H. specialize (Hm w). rewrite H in Hm. cbn in Hm. subst. reflexivity. Qed.

End Keeps.

(** ** What a poll leaves alone

    A relation that the steps of a poll keep is kept by the poll.  The
    steps: logging, the requests for issues and transitions, the rows
    added to and deleted from [gerrit_jira_map], the commit and, unless
    the run is dry, the requests that change an issue, the clock and the
    log entry. *)

Lemma jira_ask_reads {J A} (f : J -> option A) (w : world J) :
  (jira_ask f w).2 = w.
Proof. unfold jira_ask. by destruct (f (jira w)). Qed.

Section Frame.

Context {J : Type} `{!JiraServer J}.
Variable gerrit : GerritServer.
Variable clock : nat -> Z.
Variable R : relation (world J).
Context `{!PreOrder R}.
Variable dry_run : bool.

Hypothesis R_emit : forall e, is_request e = false -> keeps R (emit e).
Hypothesis R_add : forall r : GerritJira, keeps R (add_map r).
Hypothesis R_delete : forall p : GerritJira -> bool, keeps R (delete_map p).
Hypothesis R_commit : keeps R sql_commit.
Hypothesis R_jira : dry_run = false ->
  forall (f : J -> option J) (e : bool -> event), keeps R (jira_do f e).
Hypothesis R_clock : dry_run = false -> keeps R (utcnow clock).
Hypothesis R_log : dry_run = false ->
  forall r : GerritJiraTrans, keeps R (add_log r).

Lemma frame_apply_transition tag_map resolve_to ci issue_key i
    goal_state tid :
  dry_run = false ->
  keeps R (apply_transition clock tag_map resolve_to ci issue_key i
                            goal_state tid).
Proof.
  intros Hdry. unfold apply_transition, jira_transition_issue,
    jira_add_comment.
  apply keeps_bind; [done| |].
  - case_bool_decide.
    + apply keeps_except; [done| |by apply R_emit].
      apply keeps_bind; [done|by apply R_jira|]. intros _. by apply R_jira.
    + apply keeps_bind; [done|by apply R_jira|]. intros _. by apply R_jira.
  - intros _. apply keeps_bind; [done|by apply R_clock|]. intros now.
    apply keeps_bind; [done|by apply R_log|]. intros _. apply R_commit.
Qed.

Lemma frame_get_transition_to (i : issue) (target_state : text) :
  keeps R (get_transition_to i target_state).
Proof.
  unfold get_transition_to, jira_transitions.
  apply keeps_bind; [done| |].
  - apply keeps_bind; [done|by apply R_emit|].
    intros _. apply keeps_read; [done|]. apply jira_ask_reads.
  - intros l. destruct (scan_transitions l target_state) as [[? ?] ?].
    apply keeps_bind; [done| |intros; by apply keeps_ret].
    apply keeps_for_each; [done|]. intros name. by apply R_emit.
Qed.

Lemma frame_associate (issue_key change_id : text) :
  keeps R (associate issue_key change_id).
Proof.
  unfold associate. apply keeps_bind; [done| |].
  - by apply keeps_read.
  - intros n. destruct (n =? 0)%nat; [|by apply keeps_ret].
    apply keeps_bind; [done|apply R_add|]. intros _. apply R_commit.
Qed.

Lemma frame_gated_transition nominal_flow tag_map resolve_to ci issue_key
    i goal_state :
  keeps R (gated_transition clock dry_run nominal_flow tag_map resolve_to
                            ci issue_key i goal_state).
Proof.
  unfold gated_transition.
  destruct (negb _); [by apply R_emit|].
  destruct (negb _); [by apply R_emit|].
  apply keeps_bind; [done|by apply keeps_read|].
  intros n. destruct (1 <? n)%nat; [by apply R_emit|].
  apply keeps_bind; [done|apply frame_get_transition_to|].
  intros [[tid|] available]; cbn [fst snd]; [|by apply R_emit].
  case_eq dry_run; intros E; [by apply R_emit|].
  by apply frame_apply_transition.
Qed.

Lemma frame_update_issue nominal_flow tag_map resolve_to ci p :
  keeps R (update_issue clock dry_run nominal_flow tag_map resolve_to ci p).
Proof.
  unfold update_issue. destruct p as [issue_key resolution].
  apply keeps_bind; [done| |].
  - apply keeps_except; [done| |].
    + apply keeps_bind; [done| |intros; by apply keeps_ret].
      apply keeps_read; [done|]. apply jira_ask_reads.
    + apply keeps_bind; [done|by apply R_emit|]. intros; by apply keeps_ret.
  - intros [i|]; [|by apply keeps_ret].
    apply keeps_bind; [done|apply frame_associate|]. intros _.
    apply keeps_bind; [done|by apply R_emit|]. intros _.
    apply frame_gated_transition.
Qed.

Lemma frame_tagged tag_map key issues : keeps R (tagged tag_map key issues).
Proof.
  unfold tagged. destruct issues; [by apply keeps_ret|].
  destruct (tag_map !! key); [by apply keeps_ret|by apply keeps_raise].
Qed.

Lemma frame_update_change nominal_flow tag_map resolve_to ci :
  keeps R (update_change gerrit clock dry_run nominal_flow tag_map
                         resolve_to ci).
Proof.
  unfold update_change.
  apply keeps_bind; [done|by apply R_emit|]. intros _.
  case_bool_decide; [apply R_delete|].
  apply keeps_bind; [done| |].
  { apply keeps_read; [done|]. intros w. unfold get_message_meta.
    by destruct (commit gerrit _ _) as [[?|]|]. }
  intros meta. apply keeps_bind; [done|apply frame_tagged|]. intros closes.
  apply keeps_bind; [done|apply frame_tagged|]. intros resolves.
  apply keeps_for_each; [done|]. intros p. apply frame_update_issue.
Qed.

Lemma frame_poll_pages fuel project start_time end_time nominal_flow
    tag_map resolve_to offset :
  keeps R (poll_pages gerrit clock fuel project start_time end_time
                      dry_run nominal_flow tag_map resolve_to offset).
Proof.
  revert offset. induction fuel as [|fuel IH]; intros offset;
    cbn [poll_pages]; [by apply keeps_out_of_fuel|].
  apply keeps_bind; [done| |].
  { apply keeps_read; [done|]. intros w. unfold get_changes_from_range.
    by destruct (changes gerrit _ _ _ _). }
  intros response.
  apply keeps_bind; [done| |].
  - apply keeps_for_each; [done|]. intros ci. apply frame_update_change.
  - intros _. destruct (has_more response); [apply IH|by apply keeps_ret].
Qed.

Lemma frame_update_issues_from_review fuel project start_time end_time
    nominal_flow tag_map :
  keeps R (update_issues_from_review gerrit clock fuel project start_time
             end_time dry_run nominal_flow tag_map).
Proof.
  unfold update_issues_from_review.
  apply keeps_bind; [done| |].
  - apply keeps_read; [done|]. apply jira_ask_reads.
  - intros l. destruct (find_done l); [|by apply keeps_raise].
    apply frame_poll_pages.
Qed.

End Frame.

(** ** A dry run *)

#[global] Instance quiet_preorder {J} : PreOrder (@quiet J).
Proof.
  split.
  - intros w. unfold quiet. tauto.
  - intros a b c (?&?&?&?&?&?) (?&?&?&?&?&?). unfold quiet.
    repeat split; try congruence.
    + intros. apply H8. apply H2. congruence.
    + intros. apply H9. apply H3. congruence.
Qed.

Lemma quiet_dry_run {J} `{!JiraServer J} (gerrit : GerritServer)
    (clock : nat -> Z) fuel project start_time end_time nominal_flow tag_map :
  keeps quiet (update_issues_from_review gerrit clock fuel project
                 start_time end_time true nominal_flow tag_map).
Proof.
  apply frame_update_issues_from_review; try done; try apply _.
  - intros e He w r w' [= <- <-]. unfold quiet. cbn. by rewrite He.
  - intros x w r w' H. unfold add_map in H.
    destruct (_ =? _)%nat; injection H as <- <-; unfold quiet; cbn; tauto.
  - intros f w r w' [= <- <-]. unfold quiet. cbn. tauto.
  - intros w r w' [= <- <-]. unfold quiet. cbn. tauto.
Qed.

Lemma gated_transition_dry {J} `{!JiraServer J} (clock : nat -> Z)
    nominal_flow tag_map resolve_to ci issue_key i goal_state (w : world J) :
  gated_transition clock true nominal_flow tag_map resolve_to ci issue_key
                   i goal_state w
  = gated_transition clock false nominal_flow tag_map resolve_to ci
                     issue_key i goal_state w
  \/ exists tid w1,
      gated_transition clock true nominal_flow tag_map resolve_to ci
                       issue_key i goal_state w
      = emit (Informed DryRun) w1
      /\ gated_transition clock false nominal_flow tag_map resolve_to ci
                          issue_key i goal_state w
         = apply_transition clock tag_map resolve_to ci issue_key i
                            goal_state tid w1.
Proof.
  unfold gated_transition.
  destruct (negb _); [by left|]. destruct (negb _); [by left|].
  unfold mbind, M_bind. destruct (count_map _ w) as [[n| |] w0]; try by left.
  destruct (1 <? n)%nat; [by left|].
  destruct (get_transition_to i goal_state w0) as [[[[tid|] av]| |] w1];
    try by left.
  right. by exists tid, w1.
Qed.

Lemma update_issue_dry {J} `{!JiraServer J} (clock : nat -> Z)
    nominal_flow tag_map resolve_to ci issue_key resolution (w : world J) :
  update_issue clock true nominal_flow tag_map resolve_to ci
               (issue_key, resolution) w
  = update_issue clock false nominal_flow tag_map resolve_to ci
                 (issue_key, resolution) w
  \/ exists i tid w1,
      update_issue clock true nominal_flow tag_map resolve_to ci
                   (issue_key, resolution) w
      = emit (Informed DryRun) w1
      /\ update_issue clock false nominal_flow tag_map resolve_to ci
                      (issue_key, resolution) w
         = apply_transition clock tag_map resolve_to ci issue_key i
             (goal_state_of (ci_status ci) resolution) tid w1.
Proof.
  unfold update_issue, mbind, M_bind.
  destruct (except_JIRAError _ _ w) as [[[i|]| |] w0]; try by left.
  destruct (associate _ _ w0) as [[[]| |] w1]; try by left.
  destruct (emit _ w1) as [[[]| |] w2]; try by left.
  destruct (gated_transition_dry clock nominal_flow tag_map resolve_to ci
              issue_key i (goal_state_of (ci_status ci) resolution) w2)
    as [->|(tid & w3 & -> & ->)]; [by left|].
  right. by exists i, tid, w3.
Qed.

Lemma quiet_run_args {J} `{!JiraServer J} (gerrit : GerritServer)
    (clock : nat -> Z) (strftime : Z -> text) fuel project nominal_flow
    tag_map :
  keeps quiet (run_args gerrit clock strftime fuel project true nominal_flow
                        tag_map).
Proof.
  unfold run_args.
  apply keeps_bind; [apply _| |].
  { intros w r w' [= <- <-]. unfold quiet. cbn. tauto. }
  intros end_time. apply keeps_bind; [apply _|by apply keeps_read; [apply _|]|].
  intros history. apply keeps_bind; [apply _| |].
  { intros w r w' [= <- <-]. unfold quiet. cbn. tauto. }
  intros _. apply keeps_finally; [apply _|apply quiet_dry_run|].
  intros b. apply keeps_ret. apply _.
Qed.

(** C3, as the engine has it: in a dry run no transition and no comment
    is requested of jira, jira stays as it is, no row is added to the
    transition log and none to the poll history, by the poll of a window
    and by the incremental poll alike; the step for an issue is the step
    of a real run up to and with the discovery of the transition, and
    logs the dry run where the real run applies the transition; an
    abandoned change is handled as in a real run.  The association is
    added and removed in a dry run too. *)
Theorem dry_run_spares_jira_and_history :
  (forall (J : Type) (JS : JiraServer J) (gerrit : GerritServer)
          (clock : nat -> Z) fuel project start_time end_time nominal_flow
          tag_map (w w' : world J) r,
      update_issues_from_review gerrit clock fuel project start_time
        end_time true nominal_flow tag_map w = (r, w') ->
      quiet w w')
  /\ (forall (J : Type) (JS : JiraServer J) (gerrit : GerritServer)
             (clock : nat -> Z) (strftime : Z -> text) fuel project
             nominal_flow tag_map (w w' : world J) r,
        run_args gerrit clock strftime fuel project true nominal_flow tag_map
                 w = (r, w') ->
        quiet w w')
  /\ (forall (J : Type) (JS : JiraServer J) (clock : nat -> Z) nominal_flow
             tag_map resolve_to ci issue_key resolution (w : world J),
        update_issue clock true nominal_flow tag_map resolve_to ci
                     (issue_key, resolution) w
        = update_issue clock false nominal_flow tag_map resolve_to ci
                       (issue_key, resolution) w
        \/ exists i tid w1,
            update_issue clock true nominal_flow tag_map resolve_to ci
                         (issue_key, resolution) w
            = emit (Informed DryRun) w1
            /\ update_issue clock false nominal_flow tag_map resolve_to ci
                            (issue_key, resolution) w
               = apply_transition clock tag_map resolve_to ci issue_key i
                   (goal_state_of (ci_status ci) resolution) tid w1)
  /\ (forall (J : Type) (JS : JiraServer J) (gerrit : GerritServer)
             (clock : nat -> Z) nominal_flow tag_map resolve_to ci
             (w : world J),
        ci_status ci = ABANDONED ->
        update_change gerrit clock true nominal_flow tag_map resolve_to ci w
        = update_change gerrit clock false nominal_flow tag_map resolve_to
                        ci w).
Proof.
  split; [|split; [|split]].
  - intros J JS gerrit clock fuel project st en flow tags w w' r H.
    by eapply quiet_dry_run.
  - intros J JS gerrit clock strftime fuel project flow tags w w' r H.
    by eapply quiet_run_args.
  - intros. apply update_issue_dry.
  - intros J JS gerrit clock flow tags res ci w Hci.
    unfold update_change. by rewrite !bool_decide_eq_true_2.
Qed.

(** ** The association of a change with an issue *)

#[global] Instance same_on_preorder {J X} (f : world J -> X) :
  PreOrder (same_on f).
Proof.
  split.
  - by intros w.
  - intros a b c. unfold same_on. congruence.
Qed.

#[global] Instance extends_preorder {J} : PreOrder (@extends J).
Proof.
  split.
  - intros w. by exists [].
  - intros a b c [e1 H1] [e2 H2]. exists (e2 ++ e1).
    unfold adds_events in *. by rewrite H2, H1, app_assoc.
Qed.

(** The steps of a poll, unfolded in a run [H]. *)
Ltac step_in H :=
  unfold add_map, delete_map, add_log, add_history, with_session,
    sql_commit, utcnow, jira_do, jira_ask, count_map, read_history in H;
  unfold mbind, M_bind, mret, M_ret, emit, set_jira, raise in H;
  cbn in H;
  repeat case_match; simplify_eq.

Lemma count_rows_insert {R} (p : R -> bool) (r : R) (t : table R) :
  count_rows p (insert_row r t)
  = (count_rows p t + if p r then 1 else 0)%nat.
Proof.
  unfold count_rows, insert_row. cbn [rows].
  rewrite List.filter_app, length_app. cbn. by destruct (p r).
Qed.

Lemma associate_present {J} (issue_key change_id : text) (w : world J) :
  count_rows (same_pair issue_key change_id) (gerrit_jira_map (session w))
  <> 0%nat ->
  associate issue_key change_id w = (Ok tt, w).
Proof.
  intros Hn. unfold associate, count_map, mbind, M_bind.
  apply Nat.eqb_neq in Hn. by rewrite Hn.
Qed.

Lemma associate_absent {J} (issue_key change_id : text) (w : world J) :
  count_rows (same_pair issue_key change_id) (gerrit_jira_map (session w))
  = 0%nat ->
  associate issue_key change_id w
  = (Ok tt, associated issue_key change_id w).
Proof.
  intros Hn. unfold associate, count_map, add_map, mbind, M_bind.
  cbn [gj_issue gj_changeid]. rewrite Hn. cbn [Nat.eqb]. by rewrite Hn.
Qed.

Lemma same_pair_here (issue_key change_id : text) :
  same_pair issue_key change_id
    {| gj_issue := issue_key; gj_changeid := change_id |} = true.
Proof. unfold same_pair. cbn. by rewrite !bool_decide_eq_true_2. Qed.

Lemma associate_returns {J} (issue_key change_id : text) (w : world J) :
  exists w',
    associate issue_key change_id w = (Ok tt, w')
    /\ trace w' = trace w /\ jira w' = jira w
    /\ clock_reads w' = clock_reads w
    /\ gerrit_jira_log (session w') = gerrit_jira_log (session w)
    /\ poll_history (session w') = poll_history (session w)
    /\ (1 <= count_rows (same_pair issue_key change_id)
                        (gerrit_jira_map (session w')))%nat.
Proof.
  destruct (decide (count_rows (same_pair issue_key change_id)
                      (gerrit_jira_map (session w)) = 0%nat)) as [Hn|Hn].
  - exists (associated issue_key change_id w).
    rewrite associate_absent by done. repeat split.
    unfold associated. cbn [session gerrit_jira_map set_map].
    rewrite count_rows_insert, same_pair_here. lia.
  - exists w. rewrite associate_present by done. repeat split. lia.
Qed.

Lemma associate_twice {J} (issue_key change_id : text) (w : world J) :
  (associate issue_key change_id ;; associate issue_key change_id) w
  = associate issue_key change_id w.
Proof.
  unfold mbind at 1. unfold M_bind.
  destruct (associate_returns issue_key change_id w)
    as (w' & -> & _ & _ & _ & _ & _ & Hn).
  rewrite associate_present by lia. done.
Qed.

Lemma add_map_refused {J} (issue_key change_id : text) (w : world J) :
  count_rows (same_pair issue_key change_id) (gerrit_jira_map (session w))
  <> 0%nat ->
  add_map {| gj_issue := issue_key; gj_changeid := change_id |} w
  = (Raise IntegrityError, w).
Proof.
  intros Hn. unfold add_map. cbn [gj_issue gj_changeid].
  apply Nat.eqb_neq in Hn. by rewrite Hn.
Qed.

Lemma count_same_pair_absent (issue_key change_id : text)
    (t : table GerritJira) :
  count_rows (same_pair issue_key change_id) t = 0%nat ->
  (change_id, issue_key)
  ∉ (fun x : N * GerritJira => (gj_changeid x.2, gj_issue x.2)) <$> rows t.
Proof.
  unfold count_rows. intros Hn Hin.
  apply list_elem_of_fmap in Hin as (x & Hx & Hin).
  injection Hx as Hc Hi.
  assert (x ∈ List.filter
            (fun x : N * GerritJira => same_pair issue_key change_id x.2)
            (rows t)) as Hf.
  { apply list_elem_of_In, filter_In. split; [by apply list_elem_of_In|].
    unfold same_pair. by rewrite !bool_decide_eq_true_2. }
  destruct (List.filter _ (rows t)); [by apply elem_of_nil in Hf|done].
Qed.

Lemma pairs_unique_kept {J} `{!JiraServer J} (gerrit : GerritServer)
    (clock : nat -> Z) fuel project start_time end_time dry_run nominal_flow
    tag_map :
  keeps (fun w w' : world J => pairs_unique w -> pairs_unique w')
        (update_issues_from_review gerrit clock fuel project start_time
           end_time dry_run nominal_flow tag_map).
Proof.
  apply frame_update_issues_from_review.
  - split; [by intros w|]. intros a b c Hab Hbc Ha. auto.
  - intros e _ w r w' H. by step_in H.
  - intros x w r w' H [Hs Hst]. unfold add_map in H.
    destruct (_ =? _)%nat eqn:E; [|by simplify_eq].
    step_in H. split; [|done]. unfold pairs. cbn.
    rewrite fmap_app. apply NoDup_app. split; [done|]. split.
    + intros p Hp Hx. apply list_elem_of_singleton in Hx as ->.
      apply Nat.eqb_eq in E. by apply count_same_pair_absent in E.
    + apply NoDup_singleton.
  - intros p w r w' H [Hs Hst]. step_in H. split; [|done].
    unfold pairs. cbn. eapply sublist_NoDup; [exact Hs|].
    unfold pairs. apply fmap_sublist.
    induction (rows (gerrit_jira_map (session w))) as [|x l IH]; cbn;
      [done|]. destruct (negb _); by constructor.
  - intros w r w' H [Hs Hst]. by step_in H.
  - intros _ f e w r w' H [Hs Hst]. by step_in H.
  - intros _ w r w' H [Hs Hst]. by step_in H.
  - intros _ x w r w' H [Hs Hst]. by step_in H.
Qed.

Lemma frame_run_args {J} `{!JiraServer J} (R : relation (world J))
    `{!PreOrder R} (gerrit : GerritServer) (clock : nat -> Z)
    (strftime : Z -> text) fuel project dry_run nominal_flow tag_map :
  keeps R (utcnow clock) ->
  (forall e, is_request e = false -> keeps R (emit e)) ->
  (forall r, keeps R (add_history r)) ->
  keeps R sql_commit ->
  (forall start_time end_time,
      keeps R (update_issues_from_review gerrit clock fuel project
                 start_time end_time dry_run nominal_flow tag_map)) ->
  keeps R (run_args gerrit clock strftime fuel project dry_run nominal_flow
                    tag_map).
Proof.
  intros Hclock Hemit Hhist Hcommit Hupdate. unfold run_args.
  apply keeps_bind; [done|done|]. intros end_time.
  apply keeps_bind; [done|by apply keeps_read|]. intros history.
  apply keeps_bind; [done|by apply Hemit|]. intros _.
  apply keeps_finally; [done|apply Hupdate|]. intros returned.
  destruct dry_run; [by apply keeps_ret|].
  apply keeps_bind; [done|apply Hhist|]. intros _. apply Hcommit.
Qed.

(** C6: the upsert leaves the world alone when the association is there,
    and otherwise adds one row and commits it at once; done twice it is
    done once; the table refuses a second row for the same change and
    issue; and a poll, run on a table without duplicates, leaves a table
    without duplicates, in the session and in what is committed. *)
Theorem associate_is_idempotent :
  (forall (J : Type) (issue_key change_id : text) (w : world J),
      count_rows (same_pair issue_key change_id)
                 (gerrit_jira_map (session w)) <> 0%nat ->
      associate issue_key change_id w = (Ok tt, w))
  /\ (forall (J : Type) (issue_key change_id : text) (w : world J),
        count_rows (same_pair issue_key change_id)
                   (gerrit_jira_map (session w)) = 0%nat ->
        associate issue_key change_id w
        = (Ok tt, associated issue_key change_id w))
  /\ (forall (J : Type) (issue_key change_id : text) (w : world J),
        rows (gerrit_jira_map (session (associated issue_key change_id w)))
        = rows (gerrit_jira_map (session w))
          ++ [(last_rid (gerrit_jira_map (session w)) + 1,
               {| gj_issue := issue_key; gj_changeid := change_id |})]
        /\ stored (associated issue_key change_id w)
           = session (associated issue_key change_id w))
  /\ (forall (J : Type) (issue_key change_id : text) (w : world J),
        (associate issue_key change_id ;; associate issue_key change_id) w
        = associate issue_key change_id w)
  /\ (forall (J : Type) (issue_key change_id : text) (w : world J),
        count_rows (same_pair issue_key change_id)
                   (gerrit_jira_map (session w)) <> 0%nat ->
        add_map {| gj_issue := issue_key; gj_changeid := change_id |} w
        = (Raise IntegrityError, w))
  /\ (forall (J : Type) (JS : JiraServer J) (gerrit : GerritServer)
             (clock : nat -> Z) fuel project start_time end_time dry_run
             nominal_flow tag_map (w w' : world J) r,
        update_issues_from_review gerrit clock fuel project start_time
          end_time dry_run nominal_flow tag_map w = (r, w') ->
        pairs_unique w -> pairs_unique w')
  /\ (forall (J : Type) (JS : JiraServer J) (gerrit : GerritServer)
             (clock : nat -> Z) (strftime : Z -> text) fuel project dry_run
             nominal_flow tag_map (w w' : world J) r,
        run_args gerrit clock strftime fuel project dry_run nominal_flow
                 tag_map w = (r, w') ->
        pairs_unique w -> pairs_unique w').
Proof.
  split; [|split; [|split; [|split; [|split; [|split]]]]].
  - intros. by apply associate_present.
  - intros. by apply associate_absent.
  - intros. by split.
  - intros. apply associate_twice.
  - intros. by apply add_map_refused.
  - intros J JS gerrit clock fuel project st en dry flow tags w w' r H.
    by eapply pairs_unique_kept.
  - intros J JS gerrit clock strftime fuel project dry flow tags w w' r H.
    assert (keeps (fun a b : world J => pairs_unique a -> pairs_unique b)
              (run_args gerrit clock strftime fuel project dry flow tags))
      as K; [|by eapply K].
    apply frame_run_args.
    + split; [by intros x|]. intros a b c Hab Hbc Ha. auto.
    + intros x y z Hx [? ?]. by step_in Hx.
    + intros e _ x y z Hx [? ?]. by step_in Hx.
    + intros e x y z Hx [? ?]. by step_in Hx.
    + intros x y z Hx [? ?]. by step_in Hx.
    + intros st en. apply pairs_unique_kept.
Qed.

(** The upsert of C6 at a store that lacks the association. *)
Lemma associate_is_idempotent_witness :
  associate (u "PROJ-1") (u "I1")
            (Fake.start (Fake.tracker true) empty_database)
  = (Ok tt, associated (u "PROJ-1") (u "I1")
              (Fake.start (Fake.tracker true) empty_database)).
Proof.
  exact (proj1 (proj2 associate_is_idempotent) _ (u "PROJ-1") (u "I1")
           (Fake.start (Fake.tracker true) empty_database) eq_refl).
Defined.

(** ** The guard against several changes for one issue *)

Lemma count_pair_le_issue (issue_key change_id : text)
    (t : table GerritJira) :
  (count_rows (same_pair issue_key change_id) t
   <= count_rows (of_issue issue_key) t)%nat.
Proof.
  unfold count_rows. induction (rows t) as [|x l IH]; cbn; [done|].
  unfold same_pair at 1, of_issue at 1.
  destruct (bool_decide (gj_issue x.2 = issue_key)); cbn; [|done].
  destruct (bool_decide (gj_changeid x.2 = change_id)); cbn; lia.
Qed.

(** A step that neither adds to nor deletes from [gerrit_jira_map] keeps
    the table of the session. *)
Ltac frame_steps :=
  first
    [ apply _
    | let H := fresh "Hrun" in
      intros; intros ? ? ? H; unfold same_on, extends, adds_events;
      step_in H; cbn;
      first [ done | by exists [] | by eexists [_] ] ].

Lemma gated_transition_map {J} `{!JiraServer J} (clock : nat -> Z) dry_run
    nominal_flow tag_map resolve_to ci issue_key i goal_state :
  keeps (same_on (fun w : world J => gerrit_jira_map (session w)))
        (gated_transition clock dry_run nominal_flow tag_map resolve_to ci
                          issue_key i goal_state).
Proof. apply frame_gated_transition; frame_steps. Qed.

Lemma gated_transition_extends {J} `{!JiraServer J} (clock : nat -> Z)
    dry_run nominal_flow tag_map resolve_to ci issue_key i goal_state :
  keeps (@extends J)
        (gated_transition clock dry_run nominal_flow tag_map resolve_to ci
                          issue_key i goal_state).
Proof. apply frame_gated_transition; frame_steps. Qed.

Lemma gated_transition_guard {J} `{!JiraServer J} (clock : nat -> Z) dry_run
    nominal_flow tag_map resolve_to ci issue_key i goal_state
    (w w' : world J) r :
  gated_transition clock dry_run nominal_flow tag_map resolve_to ci
                   issue_key i goal_state w = (r, w') ->
  exists evs,
    adds_events evs w w'
    /\ ((exists e, e ∈ evs /\ is_lookup e || is_request e = true) ->
        (count_rows (of_issue issue_key) (gerrit_jira_map (session w))
         <= 1)%nat).
Proof.
  intros H. pose proof (gated_transition_extends _ _ _ _ _ _ _ _ _ _ _ _ H)
    as [evs Hevs].
  unfold gated_transition in H.
  assert (Hlog : forall l, emit (J:=J) l w = (r, w') ->
                 is_lookup l || is_request l = false ->
                 exists evs,
                   adds_events evs w w'
                   /\ ((exists e, e ∈ evs
                                  /\ is_lookup e || is_request e = true) ->
                       (count_rows (of_issue issue_key)
                                   (gerrit_jira_map (session w)) <= 1)%nat)).
  { intros l [= <- <-] Hl. exists [l]. split; [done|].
    intros (e & ->%list_elem_of_singleton & He). congruence. }
  destruct (negb _); [by eapply Hlog|].
  destruct (negb _); [by eapply Hlog|].
  unfold mbind at 1 in H. unfold M_bind, count_map in H.
  destruct (1 <? _)%nat eqn:E; [by eapply Hlog|].
  exists evs. split; [done|]. intros _. by apply Nat.ltb_ge in E.
Qed.

(** C2: in the step for an issue and a change, the transitions of the
    issue are asked for, and a transition or a comment requested, only
    when the change is the one change associated with the issue: the
    table counts one row for the issue once the association is there.
    With two rows or more nothing is asked of jira for the issue. *)
Theorem transition_needs_single_association :
  forall (J : Type) (JS : JiraServer J) (clock : nat -> Z) dry_run
         nominal_flow tag_map resolve_to ci issue_key resolution
         (w w' : world J) r,
    update_issue clock dry_run nominal_flow tag_map resolve_to ci
                 (issue_key, resolution) w = (r, w') ->
    exists evs,
      adds_events evs w w'
      /\ (forall i, get_issue (jira w) issue_key = Some i ->
            gerrit_jira_map (session w')
            = gerrit_jira_map
                (session (associate issue_key (change_id ci) w).2))
      /\ ((exists e, e ∈ evs /\ is_lookup e || is_request e = true) ->
          count_rows (of_issue issue_key) (gerrit_jira_map (session w'))
          = 1%nat)
      /\ ((2 <= count_rows (of_issue issue_key)
                           (gerrit_jira_map (session w')))%nat ->
          forall e, e ∈ evs -> is_lookup e = false /\ is_request e = false).
Proof.
  intros J JS clock dry flow tags res ci k resolution w w' r H.
  assert (Hmain : exists evs,
      adds_events evs w w'
      /\ (forall i, get_issue (jira w) k = Some i ->
            gerrit_jira_map (session w')
            = gerrit_jira_map (session (associate k (change_id ci) w).2))
      /\ ((exists e, e ∈ evs /\ is_lookup e || is_request e = true) ->
          count_rows (of_issue k) (gerrit_jira_map (session w')) = 1%nat)).
  { unfold update_issue in H. unfold mbind at 1 in H. unfold M_bind in H.
    unfold except_JIRAError, jira_issue, jira_ask in H.
    unfold mbind at 1 in H. unfold M_bind in H.
    destruct (get_issue (jira w) k) as [i|] eqn:Hi.
    - cbn in H.
      destruct (associate_returns k (change_id ci) w)
        as (wa & Ha & Htr & _ & _ & _ & _ & Hone).
      unfold mbind at 1 in H. unfold M_bind in H. rewrite Ha in H.
      unfold mbind at 1 in H. unfold M_bind, emit at 1 in H.
      match type of H with
      | gated_transition _ _ _ _ _ _ _ _ _ ?w2 = _ => set (w2' := w2) in H
      end.
      pose proof (gated_transition_map _ _ _ _ _ _ _ _ _ _ _ _ H) as Hmap.
      apply gated_transition_guard in H as (evs & Hevs & Hguard).
      unfold same_on in Hmap. cbn in Hmap.
      exists (evs ++ [Informed (Goal k (status_name i)
                                 (goal_state_of (ci_status ci) resolution))]).
      split; [|split].
      + unfold adds_events in *. rewrite Hevs. cbn.
        by rewrite Htr, <- app_assoc.
      + intros i' _. by rewrite Ha.
      + intros (e & He & Hreq). rewrite Hmap.
        apply elem_of_app in He as [He|He%list_elem_of_singleton];
          [|by subst].
        pose proof (count_pair_le_issue k (change_id ci)
                      (gerrit_jira_map (session wa))).
        assert (count_rows (of_issue k) (gerrit_jira_map (session wa))
                <= 1)%nat by (apply Hguard; eauto).
        lia.
    - cbn in H. injection H as <- <-.
      exists [Warned (NotAnIssue k)]. split; [done|]. split; [done|].
      intros (e & ->%list_elem_of_singleton & He). done. }
  destruct Hmain as (evs & Hevs & Hmap & Hone).
  exists evs. split; [done|]. split; [done|]. split; [done|].
  intros Htwo e He.
  destruct (is_lookup e || is_request e) eqn:E.
  - assert (count_rows (of_issue k) (gerrit_jira_map (session w')) = 1%nat)
      by (apply Hone; eauto). lia.
  - by apply orb_false_elim in E.
Qed.

(** The step of C2 for the change [I1], the only change of [PROJ-1]. *)
Lemma transition_needs_single_association_witness :
  let w := Fake.start (Fake.tracker true) empty_database in
  let w' := (update_issue Fake.clock false Fake.flow Fake.tags (u "1")
               (Fake.change (u "I1") NEW) (u "PROJ-1", u "Resolved") w).2 in
  exists evs,
    adds_events evs w w'
    /\ (forall i, get_issue (jira w) (u "PROJ-1") = Some i ->
          gerrit_jira_map (session w')
          = gerrit_jira_map
              (session (associate (u "PROJ-1") (u "I1") w).2))
    /\ ((exists e, e ∈ evs /\ is_lookup e || is_request e = true) ->
        count_rows (of_issue (u "PROJ-1")) (gerrit_jira_map (session w'))
        = 1%nat)
    /\ ((2 <= count_rows (of_issue (u "PROJ-1"))
                         (gerrit_jira_map (session w')))%nat ->
        forall e, e ∈ evs -> is_lookup e = false /\ is_request e = false).
Proof.
  apply (transition_needs_single_association _ _ Fake.clock false Fake.flow
           Fake.tags (u "1") (Fake.change (u "I1") NEW) (u "PROJ-1")
           (u "Resolved") (Fake.start (Fake.tracker true) empty_database)
           _ (Ok tt)).
  vm_compute. reflexivity.
Defined.

(** ** The transition log *)

Lemma apply_transition_logs {J} `{!JiraServer J} (clock : nat -> Z) tag_map
    resolve_to ci issue_key i goal_state tid (w w' : world J) r :
  apply_transition clock tag_map resolve_to ci issue_key i goal_state tid w
  = (r, w') ->
  (r = Ok tt
   /\ gerrit_jira_log (session w')
      = insert_row {| tr_time := clock (clock_reads w);
                      tr_issue := issue_key;
                      from_status := status_name i;
                      to_status := goal_state |}
                   (gerrit_jira_log (session w))
   /\ stored w' = session w')
  \/ (r = Raise JIRAError
      /\ (goal_state ∉ (map_to_list tag_map).*2)
      /\ gerrit_jira_log (session w') = gerrit_jira_log (session w)
      /\ stored w' = stored w
      /\ (transition_issue (jira w) i tid None = None
          \/ exists j, transition_issue (jira w) i tid None = Some j
                       /\ add_comment j i (make_jira_message ci goal_state)
                          = None)).
Proof.
  intros H. unfold apply_transition in H. cbv zeta in H.
  set (message := make_jira_message ci goal_state) in *. clearbody message.
  unfold jira_transition_issue, jira_add_comment, except_JIRAError in H.
  destruct w as [ses sto j n tr].
  case_bool_decide as Hg.
  - step_in H; left; done.
  - step_in H; first [ left; done | right; cbn; eauto 10 ].
Qed.

Lemma apply_transition_spoofs {J} `{!JiraServer J} (clock : nat -> Z)
    tag_map resolve_to ci issue_key i goal_state tid (w : world J) :
  goal_state ∈ (map_to_list tag_map).*2 ->
  transition_issue (jira w) i tid (Some resolve_to) = None ->
  apply_transition clock tag_map resolve_to ci issue_key i goal_state tid w
  = (Ok tt,
     let d := set_log
                (insert_row {| tr_time := clock (clock_reads w);
                               tr_issue := issue_key;
                               from_status := status_name i;
                               to_status := goal_state |}
                            (gerrit_jira_log (session w))) (session w) in
     {| session := d; stored := d; jira := jira w;
        clock_reads := S (clock_reads w);
        trace := Warned Spoofing
                 :: AskedTransition (key i) tid (Some resolve_to) false
                 :: trace w |}).
Proof.
  intros Hg Hrej. unfold apply_transition.
  unfold jira_transition_issue, jira_add_comment, except_JIRAError.
  rewrite bool_decide_eq_true_2 by done.
  unfold mbind, M_bind, jira_do. by rewrite Hrej.
Qed.

Lemma apply_transition_rejected {J} `{!JiraServer J} (clock : nat -> Z)
    tag_map resolve_to ci issue_key i goal_state tid (w : world J) :
  goal_state ∉ (map_to_list tag_map).*2 ->
  transition_issue (jira w) i tid None = None ->
  apply_transition clock tag_map resolve_to ci issue_key i goal_state tid w
  = (Raise JIRAError,
     {| session := session w; stored := stored w; jira := jira w;
        clock_reads := clock_reads w;
        trace := AskedTransition (key i) tid None false :: trace w |}).
Proof.
  intros Hg Hrej. unfold apply_transition.
  unfold jira_transition_issue, jira_add_comment.
  rewrite bool_decide_eq_false_2 by done.
  unfold mbind, M_bind, jira_do. by rewrite Hrej.
Qed.

Lemma gated_transition_log {J} `{!JiraServer J} (clock : nat -> Z) dry_run
    nominal_flow tag_map resolve_to ci issue_key i goal_state
    (w w' : world J) r :
  gated_transition clock dry_run nominal_flow tag_map resolve_to ci
                   issue_key i goal_state w = (r, w') ->
  gerrit_jira_log (session w') = gerrit_jira_log (session w)
  \/ (r = Ok tt /\ dry_run = false
      /\ gerrit_jira_log (session w')
         = insert_row {| tr_time := clock (clock_reads w);
                         tr_issue := issue_key;
                         from_status := status_name i;
                         to_status := goal_state |}
                      (gerrit_jira_log (session w))).
Proof.
  intros H. unfold gated_transition in H.
  assert (Hlog : forall l, emit (J:=J) l w = (r, w') ->
                 gerrit_jira_log (session w') = gerrit_jira_log (session w)).
  { by intros l [= <- <-]. }
  destruct (negb _); [left; by eapply Hlog|].
  destruct (negb _); [left; by eapply Hlog|].
  unfold mbind at 1 in H. unfold M_bind, count_map in H.
  destruct (1 <? _)%nat; [left; by eapply Hlog|].
  unfold mbind at 1 in H. unfold M_bind in H.
  destruct (get_transition_to i goal_state w) as [[[[tid|] av]| |] w1] eqn:E;
    apply (frame_get_transition_to
             (same_on (fun w : world J =>
                         (clock_reads w, gerrit_jira_log (session w)))))
      in E; try frame_steps;
    unfold same_on in E; injection E as Hc Hl; cbn [fst snd] in H.
  - destruct dry_run.
    + left. injection H as <- <-. done.
    + apply apply_transition_logs in H
        as [(-> & Hrow & _)|(-> & _ & Hrow & _)].
      * right. split; [done|]. split; [done|]. by rewrite Hrow, Hc, Hl.
      * left. congruence.
  - left. injection H as <- <-. done.
  - left. injection H as <- <-. done.
  - left. injection H as <- <-. done.
Qed.

Lemma update_issue_log {J} `{!JiraServer J} (clock : nat -> Z) dry_run
    nominal_flow tag_map resolve_to ci issue_key resolution
    (w w' : world J) r :
  update_issue clock dry_run nominal_flow tag_map resolve_to ci
               (issue_key, resolution) w = (r, w') ->
  gerrit_jira_log (session w') = gerrit_jira_log (session w)
  \/ (r = Ok tt /\ dry_run = false
      /\ exists i,
          get_issue (jira w) issue_key = Some i
          /\ gerrit_jira_log (session w')
             = insert_row
                 {| tr_time := clock (clock_reads w);
                    tr_issue := issue_key;
                    from_status := status_name i;
                    to_status := goal_state_of (ci_status ci) resolution |}
                 (gerrit_jira_log (session w))).
Proof.
  intros H. unfold update_issue in H.
  unfold mbind at 1 in H. unfold M_bind in H.
  unfold except_JIRAError, jira_issue, jira_ask in H.
  unfold mbind at 1 in H. unfold M_bind in H.
  destruct (get_issue (jira w) issue_key) as [i|] eqn:Hi.
  - cbn in H.
    destruct (associate_returns issue_key (change_id ci) w)
      as (wa & Ha & _ & _ & Hclock & Hlog & _).
    unfold mbind at 1 in H. unfold M_bind in H. rewrite Ha in H.
    unfold mbind at 1 in H. unfold M_bind, emit at 1 in H.
    apply gated_transition_log in H as [Hsame|(-> & -> & Hrow)];
      cbn in *.
    + left. congruence.
    + right. split; [done|]. split; [done|]. exists i. split; [done|].
      by rewrite Hrow, Hclock, Hlog.
  - cbn in H. injection H as <- <-. by left.
Qed.

(** C4 does not hold of the engine: jira rejects the transition of a
    merged change to [Resolved], the rejection is caught on the
    resolution path, jira is as it was, and the poll has committed a row
    to the transition log for the transition that did not take place. *)
Theorem rejected_transition_is_logged :
  let w := Fake.start (Fake.tracker false) empty_database in
  let run := update_issues_from_review
               (Fake.gerrit [Fake.change (u "I1") MERGED]
                            (u "Closes: PROJ-1"))
               Fake.clock 3 (u "proj") [] [] false Fake.flow Fake.tags w in
  run.1 = Ok tt
  /\ List.filter is_request (trace run.2)
     = [AskedTransition (u "PROJ-1") (u "21") (Some (u "1")) false]
  /\ jira run.2 = jira w
  /\ rows (gerrit_jira_log (stored w)) = []
  /\ rows (gerrit_jira_log (stored run.2))
     = [(1, {| tr_time := Fake.clock 0; tr_issue := u "PROJ-1";
               from_status := u "Open"; to_status := u "Resolved" |})].
Proof. vm_compute. repeat split. Qed.

(** ** The goal state *)

Lemma count_rows_delete {R} (p : R -> bool) (t : table R) :
  count_rows p (delete_rows p t) = 0%nat.
Proof.
  unfold count_rows, delete_rows. cbn [rows].
  induction (rows t) as [|x l IH]; [done|]. cbn.
  destruct (p x.2) eqn:E; cbn; [done|]. by rewrite E.
Qed.

Lemma tagged_returns {J : Type} (tag_map : gmap text text) (key state : text)
    (issues : list text) (w : world J) :
  tag_map !! key = Some state ->
  tagged tag_map key issues w = (Ok ((fun i => (i, state)) <$> issues), w).
Proof. intros Hk. unfold tagged. destruct issues; [done|]. by rewrite Hk. Qed.

(** C5: a merged change has the state that the tag map gives the tag
    under which the issue was named, a draft has [In Progress], any other
    change that is not abandoned has [In Review]; this is the goal state
    that the step for the issue logs and tries to reach.  An abandoned
    change has its rows deleted and nothing else is done for it. *)
Theorem goal_state_by_status :
  (forall resolution : text, goal_state_of MERGED resolution = resolution)
  /\ (forall resolution : text,
        goal_state_of DRAFT resolution = u "In Progress")
  /\ (forall resolution : text, goal_state_of NEW resolution = u "In Review")
  /\ (forall status resolution : text,
        status <> MERGED -> status <> DRAFT ->
        goal_state_of status resolution = u "In Review")
  /\ (forall (J : Type) (JS : JiraServer J) (gerrit : GerritServer)
             (clock : nat -> Z) dry_run nominal_flow tag_map resolve_to ci
             (message closed resolved : text) (w : world J),
        ci_status ci <> ABANDONED ->
        commit gerrit (change_id ci) (current_revision ci)
        = Some (Some message) ->
        tag_map !! u "Closes" = Some closed ->
        tag_map !! u "Resolves" = Some resolved ->
        update_change gerrit clock dry_run nominal_flow tag_map resolve_to
                      ci w
        = for_each
            (((fun i => (i, closed))
                <$> meta_issues (message_meta message) (u "Closes"))
             ++ ((fun i => (i, resolved))
                   <$> meta_issues (message_meta message) (u "Resolves")))
            (update_issue clock dry_run nominal_flow tag_map resolve_to ci)
            {| session := session w; stored := stored w; jira := jira w;
               clock_reads := clock_reads w;
               trace := Printed (change_id ci) (ci_status ci) :: trace w |})
  /\ (forall (J : Type) (JS : JiraServer J) (clock : nat -> Z) dry_run
             nominal_flow tag_map resolve_to ci issue_key resolution i
             (w : world J),
        get_issue (jira w) issue_key = Some i ->
        update_issue clock dry_run nominal_flow tag_map resolve_to ci
                     (issue_key, resolution) w
        = (associate issue_key (change_id ci) ;;
           emit (Informed (Goal issue_key (status_name i)
                             (goal_state_of (ci_status ci) resolution))) ;;
           gated_transition clock dry_run nominal_flow tag_map resolve_to
             ci issue_key i (goal_state_of (ci_status ci) resolution)) w)
  /\ (forall (J : Type) (JS : JiraServer J) (gerrit : GerritServer)
             (clock : nat -> Z) dry_run nominal_flow tag_map resolve_to ci
             (w : world J),
        ci_status ci = ABANDONED ->
        update_change gerrit clock dry_run nominal_flow tag_map resolve_to
                      ci w
        = (Ok tt, abandoned ci w)
        /\ count_rows (of_change (change_id ci))
                      (gerrit_jira_map (session (abandoned ci w))) = 0%nat).
Proof.
  split; [|split; [|split; [|split; [|split; [|split]]]]].
  - intros. unfold goal_state_of. by rewrite bool_decide_eq_true_2.
  - done.
  - done.
  - intros status resolution Hm Hd. unfold goal_state_of.
    by rewrite !bool_decide_eq_false_2.
  - intros J JS gerrit clock dry flow tags res ci message closed resolved w
           Hst Hc Hcl Hre.
    unfold update_change. rewrite bool_decide_eq_false_2 by done.
    unfold mbind at 1. unfold M_bind, emit at 1.
    unfold mbind at 1. unfold M_bind, get_message_meta. cbn [session].
    rewrite Hc.
    unfold mbind at 1. unfold M_bind. rewrite (tagged_returns _ _ closed) by done.
    unfold mbind at 1. unfold M_bind.
    by rewrite (tagged_returns _ _ resolved).
  - intros J JS clock dry flow tags res ci k resolution i w Hi.
    unfold update_issue. unfold mbind at 1. unfold M_bind.
    unfold except_JIRAError, jira_issue, jira_ask.
    unfold mbind at 1. unfold M_bind. by rewrite Hi.
  - intros J JS gerrit clock dry flow tags res ci w Hst.
    split; [|apply count_rows_delete].
    unfold update_change. by rewrite bool_decide_eq_true_2.
Qed.

(** The abandoned change of C5. *)
Lemma goal_state_by_status_witness :
  let w := Fake.start (Fake.tracker true) empty_database in
  let ci := Fake.change (u "I1") ABANDONED in
  update_change (Fake.gerrit [ci] (u "Closes: PROJ-1")) Fake.clock false
                Fake.flow Fake.tags (u "1") ci w
  = (Ok tt, abandoned ci w)
  /\ count_rows (of_change (change_id ci))
                (gerrit_jira_map (session (abandoned ci w))) = 0%nat.
Proof.
  intros w ci.
  exact (proj2 (proj2 (proj2 (proj2 (proj2 (proj2 goal_state_by_status)))))
           _ _ (Fake.gerrit [ci] (u "Closes: PROJ-1")) Fake.clock false
           Fake.flow Fake.tags (u "1") ci w eq_refl).
Defined.

(** ** The checkpoint *)

Lemma run_args_window {J} `{!JiraServer J} (gerrit : GerritServer)
    (clock : nat -> Z) (strftime : Z -> text) fuel project dry_run
    nominal_flow tag_map (w : world J) :
  run_args gerrit clock strftime fuel project dry_run nominal_flow tag_map w
  = let end_time := clock (clock_reads w) in
    let start_time := window_start (poll_history (session w)) end_time in
    finally
      (update_issues_from_review gerrit clock fuel project
         (strftime start_time) (strftime end_time) dry_run nominal_flow
         tag_map)
      (fun returned =>
         if dry_run then mret tt
         else
           add_history {| period_start := start_time;
                          period_end := end_time;
                          status := if returned then 0 else (-1) |} ;;
           sql_commit)
      (polling clock w).
Proof. reflexivity. Qed.

(** C8: the window of the incremental poll starts a week before the
    clock reading when the history has no successful poll, and otherwise
    at the end of the successful poll with the largest key, which is the
    latest one added; polls with another status are not looked at; the
    window ends at the clock reading; this is the window the poll is run
    on and the window that is recorded. *)
Theorem window_starts_at_last_success :
  (forall (t : table PollHistory) (end_time : Z),
      (forall x, x ∈ rows t -> status x.2 <> 0%Z) ->
      window_start t end_time = (end_time - week)%Z)
  /\ week = (7 * 86400 * 1000000)%Z
  /\ (forall (t : table PollHistory) (end_time : Z) (x : N * PollHistory),
        x ∈ rows t -> status x.2 = 0%Z ->
        exists y,
          y ∈ rows t /\ status y.2 = 0%Z
          /\ (forall z, z ∈ rows t -> status z.2 = 0%Z -> z.1 <= y.1)
          /\ window_start t end_time = period_end y.2)
  /\ (forall (t : table PollHistory) (end_time : Z),
        table_ok t ->
        window_start t end_time
        = default (end_time - week)%Z
            ((fun x => period_end x.2)
               <$> last (List.filter successful (rows t))))
  /\ (forall (t t' : table PollHistory) (end_time : Z),
        List.filter successful (rows t) = List.filter successful (rows t') ->
        window_start t end_time = window_start t' end_time)
  /\ (forall (J : Type) (JS : JiraServer J) (gerrit : GerritServer)
             (clock : nat -> Z) (strftime : Z -> text) fuel project dry_run
             nominal_flow tag_map (w : world J),
        run_args gerrit clock strftime fuel project dry_run nominal_flow
                 tag_map w
        = let end_time := clock (clock_reads w) in
          let start_time :=
            window_start (poll_history (session w)) end_time in
          finally
            (update_issues_from_review gerrit clock fuel project
               (strftime start_time) (strftime end_time) dry_run
               nominal_flow tag_map)
            (fun returned =>
               if dry_run then mret tt
               else
                 add_history {| period_start := start_time;
                                period_end := end_time;
                                status := if returned then 0 else (-1) |} ;;
                 sql_commit)
            (polling clock w)).
Proof.
  split; [|split; [|split; [|split; [|split]]]].
  - apply window_start_default.
  - reflexivity.
  - apply window_start_latest.
  - apply window_start_most_recent.
  - intros t t' end_time Heq. unfold window_start, last_success.
    by rewrite Heq.
  - intros. apply run_args_window.
Qed.

(** The window of C8 after a failed and a successful poll. *)
Lemma window_starts_at_last_success_witness :
  let t := insert_row {| period_start := 5; period_end := 9; status := -1 |}
             (insert_row {| period_start := 1; period_end := 5; status := 0 |}
                         empty_table) in
  window_start t 20 = 5%Z.
Proof.
  intros t.
  rewrite (proj1 (proj2 (proj2 (proj2 window_starts_at_last_success))) t 20%Z).
  - reflexivity.
  - apply insert_row_ok, insert_row_ok, empty_table_ok.
Defined.

Lemma window_start_insert_failed (r : PollHistory) (t : table PollHistory)
    (end_time : Z) :
  status r <> 0%Z ->
  window_start (insert_row r t) end_time = window_start t end_time.
Proof.
  intros Hr. unfold window_start, last_success, insert_row. cbn [rows].
  rewrite List.filter_app. cbn. unfold successful at 2. cbn.
  apply Z.eqb_neq in Hr. by rewrite Hr, app_nil_r.
Qed.

Lemma window_start_insert_ok (r : PollHistory) (t : table PollHistory)
    (end_time : Z) :
  table_ok t -> status r = 0%Z ->
  window_start (insert_row r t) end_time = period_end r.
Proof.
  intros Hok Hr.
  rewrite window_start_most_recent by by apply insert_row_ok.
  unfold insert_row. cbn [rows]. rewrite List.filter_app. cbn.
  unfold successful at 2. cbn. apply Z.eqb_eq in Hr. rewrite Hr.
  by rewrite last_snoc.
Qed.

Lemma update_keeps_history {J} `{!JiraServer J} (gerrit : GerritServer)
    (clock : nat -> Z) fuel project start_time end_time dry_run nominal_flow
    tag_map :
  keeps (same_on (fun w : world J => poll_history (session w)))
        (update_issues_from_review gerrit clock fuel project start_time
           end_time dry_run nominal_flow tag_map).
Proof. apply frame_update_issues_from_review; frame_steps. Qed.

Lemma run_args_returns {J} `{!JiraServer J} (gerrit : GerritServer)
    (clock : nat -> Z) (strftime : Z -> text) fuel project nominal_flow
    tag_map (w w2 : world J) :
  let end_time := clock (clock_reads w) in
  let start_time := window_start (poll_history (session w)) end_time in
  update_issues_from_review gerrit clock fuel project (strftime start_time)
    (strftime end_time) false nominal_flow tag_map (polling clock w)
  = (Ok tt, w2) ->
  run_args gerrit clock strftime fuel project false nominal_flow tag_map w
  = (Ok tt, recorded {| period_start := start_time; period_end := end_time;
                        status := 0 |} w2)
  /\ poll_history (session w2) = poll_history (session w).
Proof.
  intros end_time start_time H. split.
  - rewrite run_args_window. cbv zeta. unfold finally.
    fold end_time. fold start_time. by rewrite H.
  - by apply update_keeps_history in H.
Qed.

Lemma run_args_raises {J} `{!JiraServer J} (gerrit : GerritServer)
    (clock : nat -> Z) (strftime : Z -> text) fuel project nominal_flow
    tag_map (w w2 : world J) (e : exn) :
  let end_time := clock (clock_reads w) in
  let start_time := window_start (poll_history (session w)) end_time in
  update_issues_from_review gerrit clock fuel project (strftime start_time)
    (strftime end_time) false nominal_flow tag_map (polling clock w)
  = (Raise e, w2) ->
  run_args gerrit clock strftime fuel project false nominal_flow tag_map w
  = (Raise e, recorded {| period_start := start_time;
                          period_end := end_time; status := -1 |} w2)
  /\ poll_history (session w2) = poll_history (session w).
Proof.
  intros end_time start_time H. split.
  - rewrite run_args_window. cbv zeta. unfold finally.
    fold end_time. fold start_time. by rewrite H.
  - by apply update_keeps_history in H.
Qed.

Lemma window_start_fixed (t : table PollHistory) (x : N * PollHistory)
    (end_time end_time' : Z) :
  x ∈ rows t -> status x.2 = 0%Z ->
  window_start t end_time = window_start t end_time'.
Proof.
  intros Hx Hs. unfold window_start, last_success.
  pose proof (merge_sort_Permutation rid_desc
                (List.filter successful (rows t))) as Hperm.
  assert (x ∈ merge_sort rid_desc (List.filter successful (rows t))) as Hin
    by (rewrite Hperm; by apply successful_rows).
  destruct (merge_sort rid_desc (List.filter successful (rows t)))
    as [|y l]; [by apply elem_of_nil in Hin|]. reflexivity.
Qed.

Lemma run_args_dry {J} `{!JiraServer J} (gerrit : GerritServer)
    (clock : nat -> Z) (strftime : Z -> text) fuel project nominal_flow
    tag_map (w : world J) :
  let end_time := clock (clock_reads w) in
  let start_time := window_start (poll_history (session w)) end_time in
  run_args gerrit clock strftime fuel project true nominal_flow tag_map w
  = update_issues_from_review gerrit clock fuel project (strftime start_time)
      (strftime end_time) true nominal_flow tag_map (polling clock w).
Proof.
  intros end_time start_time. rewrite run_args_window. cbv zeta.
  unfold finally. fold end_time. fold start_time.
  by destruct (update_issues_from_review _ _ _ _ _ _ _ _ _ _)
    as [[[]| |] w'].
Qed.

(** C7, as the engine has it: unless it is a dry run, the incremental
    poll records its window once: with status zero when the poll of the
    window has returned, and then the next window starts where this one
    ended; with status -1 when the poll of the window raises, and the
    error is raised again.  The record is committed in both cases.  A
    failed record does not move the start of the next window: when the
    history has a successful poll the next window starts where the
    failed one started, so that the window is polled again, with a later
    end; when it has none the next window starts a week before its own
    end.  A dry run records nothing, and a poll that does not end
    records nothing. *)
Theorem checkpoint_records_outcome :
  forall (J : Type) (JS : JiraServer J) (gerrit : GerritServer)
         (clock : nat -> Z) (strftime : Z -> text) fuel project nominal_flow
         tag_map (w w2 : world J),
    let end_time := clock (clock_reads w) in
    let start_time := window_start (poll_history (session w)) end_time in
    let poll dry_run :=
      update_issues_from_review gerrit clock fuel project
        (strftime start_time) (strftime end_time) dry_run nominal_flow
        tag_map (polling clock w) in
    let run dry_run :=
      run_args gerrit clock strftime fuel project dry_run nominal_flow
               tag_map w in
    let record s :=
      {| period_start := start_time; period_end := end_time; status := s |} in
    (poll false = (Ok tt, w2) ->
     run false = (Ok tt, recorded (record 0%Z) w2)
     /\ poll_history (stored (recorded (record 0%Z) w2))
        = insert_row (record 0%Z) (poll_history (session w))
     /\ (table_ok (poll_history (session w)) ->
         forall next_end,
           window_start (poll_history (stored (recorded (record 0%Z) w2)))
                        next_end
           = end_time))
    /\ (forall e,
          poll false = (Raise e, w2) ->
          run false = (Raise e, recorded (record (-1)%Z) w2)
          /\ poll_history (stored (recorded (record (-1)%Z) w2))
             = insert_row (record (-1)%Z) (poll_history (session w))
          /\ (forall next_end,
                window_start
                  (poll_history (stored (recorded (record (-1)%Z) w2)))
                  next_end
                = window_start (poll_history (session w)) next_end)
          /\ (forall x,
                x ∈ rows (poll_history (session w)) -> status x.2 = 0%Z ->
                forall next_end,
                  window_start
                    (poll_history (stored (recorded (record (-1)%Z) w2)))
                    next_end
                  = start_time)
          /\ ((forall x,
                  x ∈ rows (poll_history (session w)) -> status x.2 <> 0%Z) ->
              forall next_end,
                window_start
                  (poll_history (stored (recorded (record (-1)%Z) w2)))
                  next_end
                = (next_end - week)%Z))
    /\ (forall r,
          poll true = (r, w2) ->
          run true = (r, w2)
          /\ poll_history (session w2) = poll_history (session w)
          /\ (poll_history (stored w) = poll_history (session w) ->
              poll_history (stored w2) = poll_history (session w)))
    /\ (poll false = (OutOfFuel, w2) -> run false = (OutOfFuel, w2)).
Proof.
  intros J JS gerrit clock strftime fuel project flow tags w w2
         end_time start_time poll run record.
  split; [|split; [|split]].
  - intros H. apply run_args_returns in H as [Hrun Hhist].
    split; [exact Hrun|]. unfold recorded.
    cbn [stored session poll_history set_history]. rewrite Hhist.
    split; [done|]. intros Hok next_end.
    by rewrite window_start_insert_ok.
  - intros e H. apply run_args_raises in H as [Hrun Hhist].
    split; [exact Hrun|]. unfold recorded.
    cbn [stored session poll_history set_history]. rewrite Hhist.
    split; [done|].
    assert (Hsame : forall next_end,
              window_start
                (insert_row (record (-1)%Z) (poll_history (session w)))
                next_end
              = window_start (poll_history (session w)) next_end).
    { intros next_end. by rewrite window_start_insert_failed. }
    split; [exact Hsame|]. split.
    + intros x Hx Hs next_end. rewrite Hsame. by eapply window_start_fixed.
    + intros Hno next_end. rewrite Hsame. by apply window_start_default.
  - intros r H. subst run. cbv beta. rewrite run_args_dry. cbv zeta.
    fold end_time. fold start_time.
    split; [exact H|].
    apply quiet_dry_run in H as (_ & _ & Hses & _ & Hsto & _).
    cbn [polling session stored] in Hses, Hsto.
    split; [exact Hses|]. intros Heq. rewrite Hsto by done. exact Hses.
  - intros H. subst run. cbv beta. rewrite run_args_window. cbv zeta.
    unfold finally. fold end_time. fold start_time.
    change (update_issues_from_review gerrit clock fuel project
              (strftime start_time) (strftime end_time) false flow tags
              (polling clock w)) with (poll false).
    by rewrite H.
Qed.

(** C7 at a gerrit that cannot be reached, with no successful poll in
    the history: the failed poll is recorded and the next window starts
    a week before its own end. *)
Lemma checkpoint_records_outcome_witness :
  let w := Fake.start (Fake.tracker true) empty_database in
  let record :=
    {| period_start := (Fake.clock 0 - week)%Z; period_end := Fake.clock 0;
       status := -1 |} in
  run_args Fake.unreachable Fake.clock Fake.strftime 3 (u "proj") false
           Fake.flow Fake.tags w
  = (Raise RequestError, recorded record (polling Fake.clock w))
  /\ forall next_end,
      window_start
        (poll_history (stored (recorded record (polling Fake.clock w))))
        next_end
      = (next_end - week)%Z.
Proof.
  intros w record.
  destruct (proj1 (proj2 (checkpoint_records_outcome _ _ Fake.unreachable
                            Fake.clock Fake.strftime 3 (u "proj") Fake.flow
                            Fake.tags w (polling Fake.clock w)))
              RequestError) as (Hrun & _ & _ & _ & Hweek);
    [vm_compute; reflexivity|].
  split; [exact Hrun|]. apply Hweek.
  intros x Hx. by apply elem_of_nil in Hx.
Defined.

(** Against C7 as it was stated: gerrit cannot be reached, the poll
    raises, and a row with status -1 is committed to the poll history;
    and the next poll, which fails as well, has not the window of the
    first with a later end: its window starts later. *)
Lemma failed_poll_is_recorded :
  let w := Fake.start (Fake.tracker true) empty_database in
  let run := run_args Fake.unreachable Fake.clock Fake.strftime 3
                      (u "proj") false Fake.flow Fake.tags w in
  let again := run_args Fake.unreachable Fake.clock Fake.strftime 3
                        (u "proj") false Fake.flow Fake.tags run.2 in
  run.1 = Raise RequestError
  /\ rows (poll_history (stored w)) = []
  /\ rows (poll_history (stored run.2))
     = [(1, {| period_start := (Fake.clock 0 - week)%Z;
               period_end := Fake.clock 0; status := -1 |})]
  /\ rows (poll_history (stored again.2))
     = [(1, {| period_start := (Fake.clock 0 - week)%Z;
               period_end := Fake.clock 0; status := -1 |});
        (2, {| period_start := (Fake.clock 1 - week)%Z;
               period_end := Fake.clock 1; status := -1 |})]
  /\ (Fake.clock 1 - week)%Z <> (Fake.clock 0 - week)%Z.
Proof.
  split; [|split; [|split; [|split]]]; try (vm_compute; reflexivity).
  vm_compute. discriminate.
Qed.

(** Against C3 as it was stated: in a dry run the change [I1] is
    associated with [PROJ-1] and the row is committed, and the rows of
    the abandoned change [I0] are deleted and the deletion committed
    with it. *)
Lemma dry_run_still_associates :
  let row := {| gj_issue := u "PROJ-1"; gj_changeid := u "I0" |} in
  let d := set_map (insert_row row empty_table) empty_database in
  let w := Fake.start (Fake.tracker true) d in
  let run := update_issues_from_review
               (Fake.gerrit [Fake.change (u "I0") ABANDONED;
                             Fake.change (u "I1") NEW]
                            (u "Closes: PROJ-1"))
               Fake.clock 3 (u "proj") [] [] true Fake.flow Fake.tags w in
  run.1 = Ok tt
  /\ rows (gerrit_jira_map (stored w)) = [(1, row)]
  /\ rows (gerrit_jira_map (stored run.2))
     = [(2, {| gj_issue := u "PROJ-1"; gj_changeid := u "I1" |})].
Proof. vm_compute. repeat split. Qed.

(** * More of the code *)

(** ** Lines, parts and trimmed texts *)

Lemma lstrip_elem (s : text) (x : N) : x ∈ Py.lstrip s -> x ∈ s.
Proof.
  induction s as [|y s IH]; [done|]. cbn.
  destruct (Py.isspace y); [|done].
  intros ?. apply list_elem_of_further. auto.
Qed.

Lemma strip_elem (s : text) (x : N) : x ∈ Py.strip s -> x ∈ s.
Proof.
  unfold Py.strip, Py.rstrip. rewrite elem_of_reverse.
  intros Hx%lstrip_elem. rewrite elem_of_reverse in Hx.
  by apply lstrip_elem.
Qed.

Lemma partition_elem (sep s a b : text) (x : N) :
  Py.partition sep s = Some (a, b) -> x ∈ a \/ x ∈ b -> x ∈ s.
Proof.
  revert a. induction s as [|c s IH]; intros a Hp Hx.
  - cbn in Hp. destruct (Py.starts_with sep []); [|done].
    injection Hp as <- <-. rewrite drop_nil in Hx.
    destruct Hx as [Hx|Hx]; by apply elem_of_nil in Hx.
  - rewrite partition_cons in Hp.
    destruct (Py.starts_with sep (c :: s)).
    + injection Hp as <- <-. destruct Hx as [Hx|Hx];
        [by apply elem_of_nil in Hx|].
      revert Hx. apply sublist_subseteq, sublist_drop.
    + destruct (Py.partition sep s) as [[a' b']|] eqn:E; [|done].
      injection Hp as <- <-. cbn in Hx.
      destruct Hx as [Hx|Hx].
      * apply elem_of_cons in Hx as [->|Hx]; [apply list_elem_of_here|].
        apply list_elem_of_further. eapply IH; eauto.
      * apply list_elem_of_further. eapply IH; eauto.
Qed.

Lemma split_from_elem (c : N) (s cur e : text) :
  e ∈ Py.split_from c cur s ->
  forall x, x ∈ e -> (x ∈ cur \/ x ∈ s) /\ (c ∉ cur -> x <> c).
Proof.
  revert cur. induction s as [|d s IH]; intros cur He x Hx; cbn in He.
  - apply list_elem_of_singleton in He as ->. split; [by left|].
    intros Hc ->. done.
  - destruct (N.eqb_spec d c) as [->|Hd].
    + apply elem_of_cons in He as [->|He].
      * split; [by left|]. intros Hc ->. done.
      * destruct (IH [] He x Hx) as [[Hn|Hs] Hne];
          [by apply elem_of_nil in Hn|].
        split; [right; by apply list_elem_of_further|].
        intros _. apply Hne, not_elem_of_nil.
    + destruct (IH (cur ++ [d]) He x Hx) as [Hin Hne]. split.
      * destruct Hin as [Hin|Hin]; [|right; by apply list_elem_of_further].
        apply elem_of_app in Hin as [? | ->%list_elem_of_singleton];
          [by left|right; apply list_elem_of_here].
      * intros Hc. apply Hne. rewrite elem_of_app, list_elem_of_singleton.
        intros [?|?]; [done|]. by subst.
Qed.

Lemma splitlines_from_elem (n : nat) (s cur l : text) :
  (length s <= n)%nat -> l ∈ Py.splitlines_from cur s ->
  forall x, x ∈ l -> x ∈ cur \/ (x ∈ s /\ Py.islinebreak x = false).
Proof.
  revert s cur. induction n as [|n IH]; intros s cur Hn Hl x Hx.
  - destruct s; [|cbn in Hn; lia]. cbn in Hl.
    destruct cur; [by apply elem_of_nil in Hl|].
    apply list_elem_of_singleton in Hl as ->. by left.
  - destruct s as [|y s]; cbn in Hl.
    + destruct cur; [by apply elem_of_nil in Hl|].
      apply list_elem_of_singleton in Hl as ->. by left.
    + cbn in Hn. destruct (Py.islinebreak y) eqn:Ey.
      * assert (Hrest : forall t, (length t <= n)%nat ->
                  (forall z, z ∈ t -> z ∈ y :: s) ->
                  l ∈ cur :: Py.splitlines_from [] t ->
                  x ∈ cur \/ (x ∈ y :: s /\ Py.islinebreak x = false)).
        { intros t Ht Hsub Hin.
          apply elem_of_cons in Hin as [->|Hin]; [by left|].
          destruct (IH t [] Ht Hin x Hx) as [Hnil|[Hxt Hb]];
            [by apply elem_of_nil in Hnil|].
          right. split; [by apply Hsub|done]. }
        destruct s as [|d s'].
        -- apply (Hrest []); [cbn; lia|by intros z ?%elem_of_nil|done].
        -- destruct ((y =? 13) && (d =? 10)).
           ++ apply (Hrest s'); [cbn in Hn; lia| |done].
              intros z Hz. by do 2 apply list_elem_of_further.
           ++ apply (Hrest (d :: s')); [lia| |done].
              intros z Hz. by apply list_elem_of_further.
      * destruct (IH s (cur ++ [y]) ltac:(lia) Hl x Hx) as [Hin|[Hin Hb]].
        -- apply elem_of_app in Hin as [? | ->%list_elem_of_singleton];
             [by left|]. right. split; [apply list_elem_of_here|done].
        -- right. split; [by apply list_elem_of_further|done].
Qed.

Lemma splitlines_elem (s l : text) (x : N) :
  l ∈ Py.splitlines s -> x ∈ l -> x ∈ s /\ Py.islinebreak x = false.
Proof.
  intros Hl Hx.
  destruct (splitlines_from_elem (length s) s [] l (le_n _) Hl x Hx)
    as [Hnil|?]; [by apply elem_of_nil in Hnil|done].
Qed.

(** The vertical tab and the form feed end a line as the line feed
    does. *)
Lemma splitlines_tab_and_feed :
  Py.splitlines (u "Closes: A-1" ++ [11] ++ u "Resolves: B-2" ++ [12]
                 ++ u "Change-Id: I1" ++ [10])
  = [u "Closes: A-1"; u "Resolves: B-2"; u "Change-Id: I1"].
Proof. vm_compute. reflexivity. Qed.

(** ** The change id of a commit *)

Lemma change_id_in_none (lines : list text) :
  (forall l v, l ∈ lines ->
     Py.partition colon (Py.strip l) <> Some (u "Change-Id", v)) ->
  change_id_in lines = None.
Proof.
  induction lines as [|line rest IH]; intros Hno; [done|].
  cbn [change_id_in]. unfold Py.split1.
  destruct (Py.partition colon (Py.strip line)) as [[k v]|] eqn:E.
  - case_bool_decide as Hk.
    + subst k. exfalso. eapply Hno; [apply list_elem_of_here|exact E].
    + apply IH. intros l v' Hl. apply Hno. by apply list_elem_of_further.
  - apply IH. intros l v' Hl. apply Hno. by apply list_elem_of_further.
Qed.

(** X1: [get_gerrit_change_id] gives the trimmed value of the first line
    that, once trimmed, has the key [Change-Id] before its first colon,
    whatever follows that line, and nothing when the message has no such
    line, as when it has no colon at all. *)
Theorem change_id_of_first_line :
  (forall (pre post : list text) (line v : text),
      (forall l v', l ∈ pre ->
         Py.partition colon (Py.strip l) <> Some (u "Change-Id", v')) ->
      Py.partition colon (Py.strip line) = Some (u "Change-Id", v) ->
      change_id_in (pre ++ line :: post) = Some (Py.strip v))
  /\ (forall lines : list text,
        (forall l v, l ∈ lines ->
           Py.partition colon (Py.strip l) <> Some (u "Change-Id", v)) ->
        change_id_in lines = None)
  /\ (forall c : git_commit,
        58 ∉ c_message c -> get_gerrit_change_id c = None).
Proof.
  split; [|split].
  - intros pre post line v Hpre Hline.
    induction pre as [|l pre IH]; cbn [app change_id_in]; unfold Py.split1.
    + rewrite Hline. by rewrite bool_decide_eq_true_2.
    + destruct (Py.partition colon (Py.strip l)) as [[k v']|] eqn:E.
      * case_bool_decide as Hk.
        -- subst k. exfalso.
           eapply Hpre; [apply list_elem_of_here|exact E].
        -- apply IH. intros l' v'' Hl. apply Hpre.
           by apply list_elem_of_further.
      * apply IH. intros l' v'' Hl. apply Hpre.
        by apply list_elem_of_further.
  - apply change_id_in_none.
  - intros c Hc. unfold get_gerrit_change_id. apply change_id_in_none.
    intros l v Hl Hp. apply Hc.
    assert (58 ∈ Py.strip l) as Hin.
    { change colon with [58] in Hp.
      destruct (decide (58 ∈ Py.strip l)) as [|Hn]; [done|].
      by rewrite partition_char_absent in Hp. }
    apply strip_elem in Hin. by eapply splitlines_elem.
Qed.

(** The change id of X1 behind an indented key. *)
Lemma change_id_of_first_line_witness :
  change_id_in [u "Fix the parser"; u "  Change-Id: I0123 "; u "Change-Id: I9"]
  = Some (u "I0123").
Proof.
  exact (proj1 change_id_of_first_line [u "Fix the parser"]
           [u "Change-Id: I9"] (u "  Change-Id: I0123 ") (u " I0123")
           ltac:(intros l v' ->%list_elem_of_singleton; vm_compute; congruence)
           eq_refl).
Defined.

(** ** More on the tags of a commit message *)

Lemma meta_line_shape (result : gmap text meta_value) (line : text) :
  (forall key v, result !! key = Some v ->
     (key ∈ issue_keys /\ exists l, v = MList l)
     \/ (key ∈ branch_keys /\ exists s, v = MStr s)) ->
  forall key v, meta_line result line !! key = Some v ->
    (key ∈ issue_keys /\ exists l, v = MList l)
    \/ (key ∈ branch_keys /\ exists s, v = MStr s).
Proof.
  intros Hshape key v. unfold meta_line, Py.split1.
  destruct (Py.partition colon line) as [[k x]|]; [|apply Hshape].
  case_bool_decide as Hb.
  - destruct (decide (k = key)) as [->|Hne].
    + rewrite lookup_insert_eq. intros [= <-]. right. eauto.
    + rewrite lookup_insert_ne by done. apply Hshape.
  - case_bool_decide as Hi; [|apply Hshape].
    destruct (result !! k) as [[s|l]|] eqn:E; try apply Hshape.
    destruct (decide (k = key)) as [->|Hne].
    + rewrite lookup_insert_eq. intros [= <-]. left. eauto.
    + rewrite lookup_insert_ne by done. apply Hshape.
Qed.

Lemma issue_keys_start :
  meta_lists (<[u "Closes" := MList []]> (<[u "Resolves" := MList []]> ∅)).
Proof.
  intros k Hk. unfold issue_keys in Hk.
  apply elem_of_cons in Hk as [->|Hk]; [by eexists|].
  apply elem_of_cons in Hk as [->|Hk]; [by eexists|].
  by apply elem_of_nil in Hk.
Qed.

Lemma meta_lines_lists (lines : list text) (result : gmap text meta_value) :
  meta_lists result -> meta_lists (foldl meta_line result lines).
Proof.
  revert result. induction lines as [|l lines IH]; intros r Hr; [done|].
  cbn. by apply IH, meta_line_lists.
Qed.

Lemma message_meta_shape (message : text) :
  forall key v, message_meta message !! key = Some v ->
    (key ∈ issue_keys /\ exists l, v = MList l)
    \/ (key ∈ branch_keys /\ exists s, v = MStr s).
Proof.
  unfold message_meta.
  generalize (Py.splitlines message). intros lines.
  assert (Hstart : forall key v,
            (<[u "Closes" := MList []]>
               (<[u "Resolves" := MList []]> (∅ : gmap text meta_value)))
              !! key = Some v ->
            (key ∈ issue_keys /\ exists l, v = MList l)
            \/ (key ∈ branch_keys /\ exists s, v = MStr s)).
  { intros key v Hl. left.
    destruct (decide (key = u "Closes")) as [->|H1].
    - rewrite lookup_insert_eq in Hl. injection Hl as <-.
      split; [unfold issue_keys; set_solver|eauto].
    - rewrite lookup_insert_ne in Hl by done.
      destruct (decide (key = u "Resolves")) as [->|H2].
      + rewrite lookup_insert_eq in Hl. injection Hl as <-.
        split; [unfold issue_keys; set_solver|eauto].
      + rewrite lookup_insert_ne in Hl by done.
        by rewrite lookup_empty in Hl. }
  revert Hstart.
  generalize (<[u "Closes" := MList []]>
                (<[u "Resolves" := MList []]>
                   (∅ : gmap text meta_value))).
  induction lines as [|l lines IH]; intros r Hr; [exact Hr|].
  cbn. apply IH. by apply meta_line_shape.
Qed.

(** X2: the dictionary of [get_message_meta] always has a list for
    [Closes] and for [Resolves], be the message empty; its other keys
    are branch keys that the message names, with a text; and gerrit's
    own [Change-Id] footer is no key of it. *)
Theorem message_meta_keys :
  forall message : text,
    (forall key, key ∈ issue_keys ->
       exists l, message_meta message !! key = Some (MList l))
    /\ (forall key v, message_meta message !! key = Some v ->
          (key ∈ issue_keys /\ exists l, v = MList l)
          \/ (key ∈ branch_keys /\ exists s, v = MStr s))
    /\ message_meta message !! u "Change-Id" = None
    /\ meta_issues (message_meta []) (u "Closes") = []
    /\ meta_issues (message_meta []) (u "Resolves") = [].
Proof.
  intros message.
  split; [|split; [|split; [|split]]].
  - apply meta_lines_lists, issue_keys_start.
  - apply message_meta_shape.
  - destruct (message_meta message !! u "Change-Id") as [v|] eqn:E; [|done].
    destruct (message_meta_shape _ _ _ E) as [[Hk _]|[Hk _]]; exfalso;
      revert Hk; apply (bool_decide_unpack _); vm_compute; exact I.
  - reflexivity.
  - reflexivity.
Qed.

Lemma meta_line_branch (result : gmap text meta_value) (line key : text) :
  key ∈ branch_keys ->
  meta_line result line !! key
  = match line_value key line with
    | Some v => Some (MStr v)
    | None => result !! key
    end.
Proof.
  intros Hkey. unfold meta_line, line_value, Py.split1.
  destruct (Py.partition colon line) as [[k x]|]; [|done].
  case_bool_decide as Hb.
  - case_bool_decide as He.
    + subst. by rewrite lookup_insert_eq.
    + by rewrite lookup_insert_ne.
  - assert (k <> key) as Hne by (intros ->; done).
    rewrite (bool_decide_eq_false_2 (k = key)) by done.
    case_bool_decide as Hi; [|done].
    destruct (result !! k) as [[s|l]|] eqn:E; try done.
    by rewrite lookup_insert_ne.
Qed.

(** X3: of the lines of a branch key ([Feature-Branch], [Base-Branch],
    [Relative-To-Branch], [ChangeId]) the last one counts: the
    dictionary has its trimmed value, and has no entry for the key when
    the message has no such line. *)
Theorem message_meta_last_branch :
  forall message key : text,
    key ∈ branch_keys ->
    message_meta message !! key
    = MStr <$> last (omap (line_value key) (Py.splitlines message)).
Proof.
  intros message key Hkey. unfold message_meta.
  assert (Hfold : forall lines (r : gmap text meta_value),
             foldl meta_line r lines !! key
             = match last (omap (line_value key) lines) with
               | Some v => Some (MStr v)
               | None => r !! key
               end).
  { induction lines as [|l lines IH]; intros r; [done|].
    cbn [foldl omap list_omap]. rewrite IH, meta_line_branch by done.
    destruct (line_value key l) as [v|]; [|done].
    destruct (omap (line_value key) lines) as [|v' vs] eqn:E; [done|].
    change (last (v :: v' :: vs)) with (last (v' :: vs)).
    destruct (last_is_Some (v' :: vs)) as [_ Hs].
    destruct Hs as [z Hz]; [done|]. by rewrite Hz. }
  rewrite Hfold.
  destruct (last _); [done|]. cbn.
  rewrite lookup_insert_ne, lookup_insert_ne, lookup_empty; [done| |];
    intros <-; revert Hkey; apply (bool_decide_unpack _); vm_compute;
    exact I.
Qed.

(** The last branch line of X3. *)
Lemma message_meta_last_branch_witness :
  message_meta (u "Base-Branch: a" ++ [10] ++ u "Base-Branch:  b ")
    !! u "Base-Branch"
  = Some (MStr (u "b")).
Proof.
  rewrite (message_meta_last_branch _ (u "Base-Branch")).
  - reflexivity.
  - by apply (bool_decide_unpack _).
Defined.

(** X4: every issue that [get_message_meta] lists under a key is
    trimmed, has no comma and no line boundary in it, and is made of
    characters of the message. *)
Theorem message_meta_issues_clean :
  forall message key e : text,
    e ∈ meta_issues (message_meta message) key ->
    trimmed e /\ (44 ∉ e)
    /\ forall c, c ∈ e -> c ∈ message /\ Py.islinebreak c = false.
Proof.
  intros message key e He.
  destruct (decide (key ∈ issue_keys)) as [Hkey|Hkey].
  - rewrite message_meta_issues in He by done.
    apply list_elem_of_In, in_concat in He as (entries & Hentries & He).
    apply list_elem_of_In, list_elem_of_fmap in Hentries
      as (line & -> & Hline).
    apply list_elem_of_In in He. unfold line_entries in He.
    destruct (Py.partition colon line) as [[k v]|] eqn:E;
      [|by apply elem_of_nil in He].
    case_bool_decide; [|by apply elem_of_nil in He].
    apply list_elem_of_fmap in He as (x & -> & Hx).
    split; [apply strip_trimmed|]. split.
    + intros Hc%strip_elem.
      destruct (split_from_elem comma _ [] x Hx 44 Hc) as [_ Hne].
      by apply Hne; [apply not_elem_of_nil|].
    + intros c Hc%strip_elem.
      destruct (split_from_elem comma _ [] x Hx c Hc) as [[Hn|Hv] _];
        [by apply elem_of_nil in Hn|].
      apply strip_elem in Hv.
      eapply splitlines_elem; [exact Hline|].
      eapply partition_elem; [exact E|by right].
  - unfold meta_issues in He.
    destruct (message_meta message !! key) as [[s|l]|] eqn:E;
      try by apply elem_of_nil in He.
    destruct (message_meta_shape _ _ _ E) as [[Hk _]|[_ [s Hs]]]; done.
Qed.

(** The issue of X4 in a message with one tag. *)
Lemma message_meta_issues_clean_witness :
  let message := u "Closes: A-1 , B-2" in
  trimmed (u "A-1") /\ (44 ∉ u "A-1")
  /\ forall c, c ∈ u "A-1" -> c ∈ message /\ Py.islinebreak c = false.
Proof.
  intros message.
  apply (message_meta_issues_clean message (u "Closes") (u "A-1")).
  apply (bool_decide_unpack _). vm_compute. exact I.
Defined.

(** ** More on the poll *)

(** X5: [get_jira_status_from_changeinfo] has no state for an abandoned
    change and for any other change the goal state of the poll, with
    [Resolved] for a merged change. *)
Theorem jira_status_of_change :
  (forall ci : changeinfo,
      get_jira_status_from_changeinfo ci = None <-> ci_status ci = ABANDONED)
  /\ (forall ci : changeinfo,
        ci_status ci <> ABANDONED ->
        get_jira_status_from_changeinfo ci
        = Some (goal_state_of (ci_status ci) (u "Resolved"))).
Proof.
  split.
  - intros ci. unfold get_jira_status_from_changeinfo.
    repeat case_bool_decide; split; congruence.
  - intros ci Hci. unfold get_jira_status_from_changeinfo, goal_state_of.
    rewrite bool_decide_eq_false_2 by done.
    by repeat case_bool_decide.
Qed.

(** The status of X5 for a draft. *)
Lemma jira_status_of_change_witness :
  get_jira_status_from_changeinfo (Fake.change (u "I1") DRAFT)
  = Some (u "In Progress").
Proof.
  exact (proj2 jira_status_of_change (Fake.change (u "I1") DRAFT)
           ltac:(discriminate)).
Defined.

Lemma find_done_last (l : list resolution) :
  find_done l = last (filter (fun r => res_name r = u "Done") l).
Proof.
  induction l as [|r l IH] using rev_ind; [done|].
  unfold find_done in *. rewrite foldl_app, filter_app. cbn [foldl].
  rewrite IH, filter_cons, filter_nil.
  case_bool_decide as Hr.
  - rewrite decide_True by done. by rewrite last_snoc.
  - rewrite decide_False by done. by rewrite app_nil_r.
Qed.

(** X6: the resolution that the poll hands to jira is the last one that
    jira calls [Done]; when jira has none of that name the poll raises
    its assertion before anything is done, and when jira cannot list its
    resolutions the error of jira is raised. *)
Theorem poll_needs_done_resolution :
  (forall l : list resolution,
      find_done l = last (filter (fun r => res_name r = u "Done") l))
  /\ (forall (J : Type) (JS : JiraServer J) (gerrit : GerritServer)
             (clock : nat -> Z) fuel project start_time end_time dry_run
             nominal_flow tag_map (w : world J) (l : list resolution),
        resolutions (jira w) = Some l ->
        (forall r, r ∈ l -> res_name r <> u "Done") ->
        update_issues_from_review gerrit clock fuel project start_time
          end_time dry_run nominal_flow tag_map w
        = (Raise AssertionError, w))
  /\ (forall (J : Type) (JS : JiraServer J) (gerrit : GerritServer)
             (clock : nat -> Z) fuel project start_time end_time dry_run
             nominal_flow tag_map (w : world J),
        resolutions (jira w) = None ->
        update_issues_from_review gerrit clock fuel project start_time
          end_time dry_run nominal_flow tag_map w
        = (Raise JIRAError, w)).
Proof.
  split; [|split].
  - apply find_done_last.
  - intros J JS gerrit clock fuel project st en dry flow tags w l Hl Hno.
    unfold update_issues_from_review, jira_resolutions, jira_ask.
    unfold mbind, M_bind. rewrite Hl, find_done_last.
    assert (Hnil : forall l0 : list resolution,
               (forall r, r ∈ l0 -> res_name r <> u "Done") ->
               filter (fun r => res_name r = u "Done") l0 = []).
    { induction l0 as [|r l0 IH]; intros Hl0; [done|].
      rewrite filter_cons, decide_False.
      - apply IH. intros r' Hr'. apply Hl0. by apply list_elem_of_further.
      - apply Hl0, list_elem_of_here. }
    by rewrite Hnil.
  - intros J JS gerrit clock fuel project st en dry flow tags w Hl.
    unfold update_issues_from_review, jira_resolutions, jira_ask.
    unfold mbind, M_bind. by rewrite Hl.
Qed.

Lemma poll_pages_step {J} `{!JiraServer J} (gerrit : GerritServer)
    (clock : nat -> Z) fuel project start_time end_time dry_run nominal_flow
    tag_map resolve_to offset :
  poll_pages gerrit clock (S fuel) project start_time end_time dry_run
             nominal_flow tag_map resolve_to offset
  = (response ← get_changes_from_range gerrit project start_time end_time
                  offset;
     for_each response
              (update_change gerrit clock dry_run nominal_flow tag_map
                             resolve_to) ;;
     if has_more response then
       poll_pages gerrit clock fuel project start_time end_time dry_run
                  nominal_flow tag_map resolve_to
                  (offset + length response)%nat
     else mret tt).
Proof. reflexivity. Qed.

Lemma poll_pages_more_fuel {J} `{!JiraServer J} (gerrit : GerritServer)
    (clock : nat -> Z) fuel project start_time end_time dry_run nominal_flow
    tag_map resolve_to offset (w w' : world J) r :
  poll_pages gerrit clock fuel project start_time end_time dry_run
             nominal_flow tag_map resolve_to offset w = (r, w') ->
  r <> OutOfFuel ->
  poll_pages gerrit clock (S fuel) project start_time end_time dry_run
             nominal_flow tag_map resolve_to offset w = (r, w').
Proof.
  revert offset w. induction fuel as [|fuel IH]; intros offset w H Hr.
  - cbn in H. unfold out_of_fuel in H. by injection H as <- <-.
  - rewrite poll_pages_step in H. rewrite poll_pages_step.
    unfold mbind at 1 in H. unfold mbind at 1. unfold M_bind in *.
    destruct (get_changes_from_range _ _ _ _ _ w) as [[response| |] w0];
      try done.
    unfold mbind at 1 in H. unfold mbind at 1. unfold M_bind in *.
    destruct (for_each response _ w0) as [[[]| |] w1]; try done.
    destruct (has_more response); [|done]. by apply IH.
Qed.

(** What cannot run out of fuel. *)
Lemma for_each_ends {J A} (body : A -> M J unit) (l : list A) (w : world J) :
  (forall x w0, (body x w0).1 <> OutOfFuel) ->
  (for_each l body w).1 <> OutOfFuel.
Proof.
  intros Hb. revert w. induction l as [|x l IH]; intros w; [done|].
  cbn [for_each]. unfold mbind, M_bind.
  pose proof (Hb x w) as Hx.
  destruct (body x w) as [[[]| |] w0]; [apply IH|done|done].
Qed.

Lemma bind_ends {J A B} (m : M J A) (f : A -> M J B) (w : world J) :
  (m w).1 <> OutOfFuel ->
  (forall a w0, (f a w0).1 <> OutOfFuel) ->
  ((m ≫= f) w).1 <> OutOfFuel.
Proof.
  intros Hm Hf. unfold mbind, M_bind.
  destruct (m w) as [[a| |] w0]; [apply Hf|done|done].
Qed.

Lemma associate_ends {J} issue_key change_id (w : world J) :
  (associate issue_key change_id w).1 <> OutOfFuel.
Proof.
  destruct (associate_returns issue_key change_id w) as (w' & -> & _). done.
Qed.

Lemma get_transition_to_ends {J} `{!JiraServer J} i target (w : world J) :
  (get_transition_to i target w).1 <> OutOfFuel.
Proof.
  unfold get_transition_to, jira_transitions, jira_ask.
  apply bind_ends.
  - unfold mbind, M_bind, emit. cbn. by destruct (transitions _ _).
  - intros l w0. destruct (scan_transitions l target) as [[? ?] ?].
    unfold mbind, M_bind. rewrite for_each_emit. done.
Qed.

Lemma apply_transition_ends {J} `{!JiraServer J} (clock : nat -> Z) tag_map
    resolve_to ci issue_key i goal_state tid (w : world J) :
  (apply_transition clock tag_map resolve_to ci issue_key i goal_state tid
                    w).1 <> OutOfFuel.
Proof.
  destruct (apply_transition clock tag_map resolve_to ci issue_key i
              goal_state tid w) as [r w'] eqn:E.
  by apply apply_transition_logs in E as [(-> & _)|(-> & _)].
Qed.

Lemma update_issue_ends {J} `{!JiraServer J} (clock : nat -> Z) dry_run
    nominal_flow tag_map resolve_to ci p (w : world J) :
  (update_issue clock dry_run nominal_flow tag_map resolve_to ci p w).1
  <> OutOfFuel.
Proof.
  destruct p as [issue_key resolution]. unfold update_issue.
  apply bind_ends.
  - unfold except_JIRAError, jira_issue, jira_ask, mbind, M_bind.
    by destruct (get_issue _ _).
  - intros [i|] w0; [|done].
    apply bind_ends; [apply associate_ends|]. intros _ w1.
    apply bind_ends; [done|]. intros _ w2.
    unfold gated_transition.
    destruct (negb _); [done|]. destruct (negb _); [done|].
    apply bind_ends; [done|]. intros n w3.
    destruct (1 <? n)%nat; [done|].
    apply bind_ends; [apply get_transition_to_ends|].
    intros [[tid|] av] w4; cbn [fst snd]; [|done].
    destruct dry_run; [done|]. apply apply_transition_ends.
Qed.

Lemma update_change_ends {J} `{!JiraServer J} (gerrit : GerritServer)
    (clock : nat -> Z) dry_run nominal_flow tag_map resolve_to ci
    (w : world J) :
  (update_change gerrit clock dry_run nominal_flow tag_map resolve_to ci
                 w).1 <> OutOfFuel.
Proof.
  unfold update_change. apply bind_ends; [done|]. intros _ w0.
  case_bool_decide; [done|].
  apply bind_ends.
  { unfold get_message_meta. by destruct (commit gerrit _ _) as [[?|]|]. }
  intros meta w1. apply bind_ends.
  { unfold tagged. destruct (meta_issues _ _); [done|].
    by destruct (tag_map !! _). }
  intros closes w2. apply bind_ends.
  { unfold tagged. destruct (meta_issues _ _); [done|].
    by destruct (tag_map !! _). }
  intros resolves w3. apply for_each_ends. intros p w4.
  apply update_issue_ends.
Qed.

Lemma has_more_length (response : list changeinfo) :
  has_more response = true -> (0 < length response)%nat.
Proof. destruct response; [done|cbn; lia]. Qed.

Lemma poll_pages_ends {J} `{!JiraServer J} (gerrit : GerritServer)
    (clock : nat -> Z) project start_time end_time dry_run nominal_flow
    tag_map resolve_to (pages : nat) :
  (forall offset response,
      (pages <= offset)%nat ->
      changes gerrit project start_time end_time offset = Some response ->
      has_more response = false) ->
  forall fuel offset (w : world J),
    (1 <= fuel)%nat -> (pages < offset + fuel)%nat ->
    (poll_pages gerrit clock fuel project start_time end_time dry_run
                nominal_flow tag_map resolve_to offset w).1 <> OutOfFuel.
Proof.
  intros Hlast. induction fuel as [|fuel IH]; intros offset w H1 Hp; [lia|].
  rewrite poll_pages_step. unfold mbind at 1. unfold M_bind.
  unfold get_changes_from_range.
  destruct (changes gerrit project start_time end_time offset)
    as [response|] eqn:E; [|done].
  apply bind_ends.
  - apply for_each_ends. intros ci w0. apply update_change_ends.
  - intros _ w0. destruct (has_more response) eqn:Hm; [|done].
    pose proof (has_more_length _ Hm).
    destruct (decide (pages <= offset)%nat) as [Hle|Hlt].
    + by rewrite (Hlast _ _ Hle E) in Hm.
    + apply IH; lia.
Qed.

(** X7: a poll that has ended is the poll with any more fuel, so what
    is proved of a run holds of the run of the engine; and the poll ends
    when gerrit sets no more-changes mark from some offset on: one page
    more than that offset is fuel enough. *)
Theorem poll_ends :
  (forall (J : Type) (JS : JiraServer J) (gerrit : GerritServer)
          (clock : nat -> Z) fuel more project start_time end_time dry_run
          nominal_flow tag_map (w w' : world J) r,
      update_issues_from_review gerrit clock fuel project start_time
        end_time dry_run nominal_flow tag_map w = (r, w') ->
      r <> OutOfFuel ->
      update_issues_from_review gerrit clock (fuel + more) project
        start_time end_time dry_run nominal_flow tag_map w = (r, w'))
  /\ (forall (J : Type) (JS : JiraServer J) (gerrit : GerritServer)
             (clock : nat -> Z) (pages : nat) project start_time end_time
             dry_run nominal_flow tag_map (w : world J),
        (forall offset response,
            (pages <= offset)%nat ->
            changes gerrit project start_time end_time offset
            = Some response ->
            has_more response = false) ->
        (update_issues_from_review gerrit clock (S pages) project
           start_time end_time dry_run nominal_flow tag_map w).1
        <> OutOfFuel).
Proof.
  split.
  - intros J JS gerrit clock fuel more project st en dry flow tags w w' r
           H Hr.
    unfold update_issues_from_review in *.
    unfold mbind, M_bind in *.
    destruct (jira_resolutions w) as [[l| |] w0]; try done.
    destruct (find_done l) as [d|]; [|done].
    induction more as [|more IH]; [by rewrite Nat.add_0_r|].
    rewrite Nat.add_succ_r. by apply poll_pages_more_fuel.
  - intros J JS gerrit clock pages project st en dry flow tags w Hlast.
    unfold update_issues_from_review. apply bind_ends.
    + unfold jira_resolutions, jira_ask. by destruct (resolutions _).
    + intros l w0. destruct (find_done l); [|done].
      apply poll_pages_ends with (pages := pages); [done|lia|lia].
Qed.

(** The poll of X7 on one page, with a page of fuel to spare. *)
Lemma poll_ends_witness :
  let w := Fake.start (Fake.tracker true) empty_database in
  let run fuel :=
    update_issues_from_review
      (Fake.gerrit [Fake.change (u "I1") NEW] (u "Closes: PROJ-1"))
      Fake.clock fuel (u "proj") [] [] false Fake.flow Fake.tags w in
  run (1 + 1)%nat = (Ok tt, (run 1%nat).2).
Proof.
  intros w run. apply (proj1 poll_ends).
  - vm_compute. reflexivity.
  - discriminate.
Defined.

(** ** What every poll keeps *)

#[global] Instance appended_preorder {J} : PreOrder (@appended J).
Proof.
  split.
  - intros w. unfold appended, grown. repeat split; done.
  - intros a b c (A1 & B1 & C1 & D1) (A2 & B2 & C2 & D2).
    unfold appended, grown in *. repeat split.
    + by etransitivity.
    + by etransitivity.
    + destruct (C1 H) as [? ?]. destruct C2 as [? ?]; [done|].
      by etransitivity.
    + destruct (C1 H) as [? ?]. by destruct C2 as [? ?].
    + destruct (D1 H) as [? ?]. destruct D2 as [? ?]; [done|].
      by etransitivity.
    + destruct (D1 H) as [? ?]. by destruct D2 as [? ?].
Qed.

(** A step of a poll keeps [appended]. *)
Ltac appended_step :=
  let H := fresh "Hrun" in
  intros; intros ? ? ? H; step_in H; unfold appended, grown; cbn;
  repeat split; intros;
  repeat match goal with
         | |- _ `prefix_of` _ ++ _ => apply prefix_app_r
         | H : _ `prefix_of` ?l |- _ `prefix_of` ?l ++ _ => apply prefix_app_r
         end;
  try done.

Lemma update_appends {J} `{!JiraServer J} (gerrit : GerritServer)
    (clock : nat -> Z) fuel project start_time end_time dry_run nominal_flow
    tag_map :
  keeps (@appended J)
        (update_issues_from_review gerrit clock fuel project start_time
           end_time dry_run nominal_flow tag_map).
Proof.
  apply frame_update_issues_from_review; first [apply _ | appended_step].
Qed.

(** X8: the transition log and the poll history are only ever appended
    to: whatever a poll of a window or an incremental poll does and
    however it ends, the rows that were there are the first rows
    afterwards, in the session and, when nothing older was left
    uncommitted, in what is committed. *)
Theorem log_and_history_append_only :
  (forall (J : Type) (JS : JiraServer J) (gerrit : GerritServer)
          (clock : nat -> Z) fuel project start_time end_time dry_run
          nominal_flow tag_map (w w' : world J) r,
      update_issues_from_review gerrit clock fuel project start_time
        end_time dry_run nominal_flow tag_map w = (r, w') ->
      appended w w')
  /\ (forall (J : Type) (JS : JiraServer J) (gerrit : GerritServer)
             (clock : nat -> Z) (strftime : Z -> text) fuel project dry_run
             nominal_flow tag_map (w w' : world J) r,
        run_args gerrit clock strftime fuel project dry_run nominal_flow
                 tag_map w = (r, w') ->
        appended w w').
Proof.
  split.
  - intros J JS gerrit clock fuel project st en dry flow tags w w' r H.
    by eapply update_appends.
  - intros J JS gerrit clock strftime fuel project dry flow tags w w' r H.
    assert (keeps (@appended J)
              (run_args gerrit clock strftime fuel project dry flow tags))
      as K; [|by eapply K].
    apply frame_run_args; try apply _;
      [appended_step.. | intros st en; apply update_appends].
Qed.

Lemma database_ok_set_map (t : table GerritJira) (d : database) :
  database_ok d -> table_ok t -> database_ok (set_map t d).
Proof.
  intros (? & ? & ?) ?. unfold database_ok, set_map. cbn.
  split; [|split]; done.
Qed.

Lemma database_ok_set_log (t : table GerritJiraTrans) (d : database) :
  database_ok d -> table_ok t -> database_ok (set_log t d).
Proof.
  intros (? & ? & ?) ?. unfold database_ok, set_log. cbn.
  split; [|split]; done.
Qed.

Lemma database_ok_set_history (t : table PollHistory) (d : database) :
  database_ok d -> table_ok t -> database_ok (set_history t d).
Proof.
  intros (? & ? & ?) ?. unfold database_ok, set_history. cbn.
  split; [|split]; done.
Qed.

(** A step of a poll keeps the keys of the tables in order. *)
Ltac tables_step :=
  let H := fresh "Hrun" in
  let Hs := fresh "Hs" in
  let Ht := fresh "Ht" in
  intros; intros ? ? ? H [Hs Ht]; step_in H; split; cbn; try done;
  first
    [ apply database_ok_set_map; [done|];
      first [ apply insert_row_ok | apply delete_rows_ok ]; apply Hs
    | apply database_ok_set_log; [done|]; apply insert_row_ok; apply Hs
    | apply database_ok_set_history; [done|]; apply insert_row_ok; apply Hs ].

Lemma tables_ok_preorder {J} :
  PreOrder (fun w w' : world J => tables_ok w -> tables_ok w').
Proof. split; [by intros w|]. intros a b c Hab Hbc Ha. auto. Qed.

Lemma update_keeps_tables {J} `{!JiraServer J} (gerrit : GerritServer)
    (clock : nat -> Z) fuel project start_time end_time dry_run nominal_flow
    tag_map :
  keeps (fun w w' : world J => tables_ok w -> tables_ok w')
        (update_issues_from_review gerrit clock fuel project start_time
           end_time dry_run nominal_flow tag_map).
Proof.
  apply frame_update_issues_from_review;
    first [apply tables_ok_preorder | tables_step].
Qed.

(** X9: the keys of the rows stay in order: when the keys of every
    table grow along its rows and none is above the last key handed
    out, which holds of the empty database, the same holds after a poll
    of a window and after an incremental poll, in the session and in
    what is committed; so no two rows of a table have one key. *)
Theorem keys_stay_in_order :
  (forall J (w : world J), session w = empty_database ->
     stored w = empty_database -> tables_ok w)
  /\ (forall (J : Type) (JS : JiraServer J) (gerrit : GerritServer)
             (clock : nat -> Z) fuel project start_time end_time dry_run
             nominal_flow tag_map (w w' : world J) r,
        update_issues_from_review gerrit clock fuel project start_time
          end_time dry_run nominal_flow tag_map w = (r, w') ->
        tables_ok w -> tables_ok w')
  /\ (forall (J : Type) (JS : JiraServer J) (gerrit : GerritServer)
             (clock : nat -> Z) (strftime : Z -> text) fuel project dry_run
             nominal_flow tag_map (w w' : world J) r,
        run_args gerrit clock strftime fuel project dry_run nominal_flow
                 tag_map w = (r, w') ->
        tables_ok w -> tables_ok w')
  /\ (forall R (t : table R), table_ok t -> NoDup (fst <$> rows t)).
Proof.
  split; [|split; [|split]].
  - intros J w Hs Ht. unfold tables_ok. rewrite Hs, Ht.
    repeat split; constructor.
  - intros J JS gerrit clock fuel project st en dry flow tags w w' r H.
    by eapply update_keeps_tables.
  - intros J JS gerrit clock strftime fuel project dry flow tags w w' r H.
    assert (keeps (fun a b : world J => tables_ok a -> tables_ok b)
              (run_args gerrit clock strftime fuel project dry flow tags))
      as K; [|by eapply K].
    apply frame_run_args;
      first [apply tables_ok_preorder | tables_step | idtac].
    intros st en. apply update_keeps_tables.
  - intros R t [Hs _]. induction Hs as [|x l Hl IH Hx]; cbn; [constructor|].
    constructor; [|done].
    intros Hin. apply list_elem_of_fmap in Hin as (y & Hy & Hin).
    eapply Forall_forall in Hx; [|exact Hin]. lia.
Qed.

(** The poll of X9 from the empty database. *)
Lemma keys_stay_in_order_witness :
  let w := Fake.start (Fake.tracker true) empty_database in
  tables_ok
    (update_issues_from_review
       (Fake.gerrit [Fake.change (u "I1") NEW] (u "Closes: PROJ-1"))
       Fake.clock 3 (u "proj") [] [] false Fake.flow Fake.tags w).2.
Proof.
  intros w.
  apply (proj1 (proj2 keys_stay_in_order) _ _
           (Fake.gerrit [Fake.change (u "I1") NEW] (u "Closes: PROJ-1"))
           Fake.clock 3%nat (u "proj") [] [] false Fake.flow Fake.tags w _
           (Ok tt)).
  - vm_compute. reflexivity.
  - by apply (proj1 keys_stay_in_order).
Defined.

(** X10: the poll of a window, which is all that the command
    [update-jira-from-gerrit] runs, never writes the poll history, so
    the window of the next incremental poll is what it was. *)
Theorem update_leaves_checkpoint :
  forall (J : Type) (JS : JiraServer J) (gerrit : GerritServer)
         (clock : nat -> Z) fuel project start_time end_time dry_run
         nominal_flow tag_map (w w' : world J) r,
    update_issues_from_review gerrit clock fuel project start_time
      end_time dry_run nominal_flow tag_map w = (r, w') ->
    poll_history (session w') = poll_history (session w)
    /\ forall next_end,
        window_start (poll_history (session w')) next_end
        = window_start (poll_history (session w)) next_end.
Proof.
  intros J JS gerrit clock fuel project st en dry flow tags w w' r H.
  apply update_keeps_history in H. unfold same_on in H.
  split; [done|]. intros e. by rewrite H.
Qed.

(** The poll of X10 after a successful incremental poll. *)
Lemma update_leaves_checkpoint_witness :
  let d := set_history
             (insert_row {| period_start := 1; period_end := 5;
                            status := 0 |} empty_table) empty_database in
  let w := Fake.start (Fake.tracker true) d in
  let w' := (update_issues_from_review
               (Fake.gerrit [Fake.change (u "I1") NEW] (u "Closes: PROJ-1"))
               Fake.clock 3 (u "proj") [] [] false Fake.flow Fake.tags w).2 in
  poll_history (session w') = poll_history (session w)
  /\ forall next_end,
      window_start (poll_history (session w')) next_end
      = window_start (poll_history (session w)) next_end.
Proof.
  intros d w w'.
  apply (update_leaves_checkpoint _ _
           (Fake.gerrit [Fake.change (u "I1") NEW] (u "Closes: PROJ-1"))
           Fake.clock 3%nat (u "proj") [] [] false Fake.flow Fake.tags w w'
           (Ok tt)).
  vm_compute. reflexivity.
Defined.

Lemma keeps_for_each_in {J A} (R : relation (world J)) `{!PreOrder R}
    (l : list A) (body : A -> M J unit) :
  (forall x, x ∈ l -> keeps R (body x)) -> keeps R (for_each l body).
Proof.
  intros Hb. induction l as [|x l IH]; cbn [for_each].
  - by apply keeps_ret.
  - apply keeps_bind; [done|apply Hb, list_elem_of_here|]. intros _.
    apply IH. intros y Hy. by apply Hb, list_elem_of_further.
Qed.

Lemma abandoned_changes_commit_nothing {J} `{!JiraServer J}
    (gerrit : GerritServer) (clock : nat -> Z) fuel project start_time
    end_time dry_run nominal_flow tag_map resolve_to offset :
  all_abandoned gerrit project start_time end_time ->
  keeps (same_on (fun w : world J =>
                    (stored w, jira w, gerrit_jira_log (session w),
                     clock_reads w)))
        (poll_pages gerrit clock fuel project start_time end_time dry_run
                    nominal_flow tag_map resolve_to offset).
Proof.
  intros Hall. revert offset. induction fuel as [|fuel IH]; intros offset.
  - cbn [poll_pages]. apply keeps_out_of_fuel. apply _.
  - rewrite poll_pages_step.
    intros w r w' H. unfold mbind at 1 in H. unfold M_bind in H.
    unfold get_changes_from_range in H.
    destruct (changes gerrit project start_time end_time offset)
      as [response|] eqn:E; [|by injection H as <- <-].
    specialize (Hall _ _ E). revert w r w' H.
    change (keeps (same_on (fun w : world J =>
                     (stored w, jira w, gerrit_jira_log (session w),
                      clock_reads w)))
              (for_each response
                 (update_change gerrit clock dry_run nominal_flow tag_map
                                resolve_to) ;;
               if has_more response then
                 poll_pages gerrit clock fuel project start_time end_time
                   dry_run nominal_flow tag_map resolve_to
                   (offset + length response)%nat
               else mret tt)).
    apply keeps_bind; [apply _| |].
    + apply keeps_for_each_in; [apply _|]. intros ci Hci.
      eapply Forall_forall in Hall; [|exact Hci].
      unfold update_change. rewrite bool_decide_eq_true_2 by done.
      intros w r w' H. by step_in H.
    + intros _. destruct (has_more response); [apply IH|].
      apply keeps_ret. apply _.
Qed.

(** X11: when every change of the window is abandoned, the poll deletes
    their rows in the session only: nothing is committed, jira is not
    changed, no row is added to the transition log and the clock is not
    read; the deletions are committed by a later commit, as that of the
    record of the incremental poll. *)
Theorem abandoned_window_commits_nothing :
  forall (J : Type) (JS : JiraServer J) (gerrit : GerritServer)
         (clock : nat -> Z) fuel project start_time end_time dry_run
         nominal_flow tag_map (w w' : world J) r,
    all_abandoned gerrit project start_time end_time ->
    update_issues_from_review gerrit clock fuel project start_time
      end_time dry_run nominal_flow tag_map w = (r, w') ->
    stored w' = stored w /\ jira w' = jira w
    /\ gerrit_jira_log (session w') = gerrit_jira_log (session w)
    /\ clock_reads w' = clock_reads w.
Proof.
  intros J JS gerrit clock fuel project st en dry flow tags w w' r Hall H.
  unfold update_issues_from_review in H.
  unfold mbind, M_bind, jira_resolutions, jira_ask in H.
  destruct (resolutions (jira w)) as [l|]; [|by injection H as <- <-].
  destruct (find_done l) as [d|]; [|by injection H as <- <-].
  apply abandoned_changes_commit_nothing in H; [|done].
  unfold same_on in H. by injection H as -> -> -> ->.
Qed.

(** The window of X11 with the one abandoned change [I0]. *)
Lemma abandoned_window_commits_nothing_witness :
  let row := {| gj_issue := u "PROJ-1"; gj_changeid := u "I0" |} in
  let d := set_map (insert_row row empty_table) empty_database in
  let w := Fake.start (Fake.tracker true) d in
  let w' := (update_issues_from_review
               (Fake.gerrit [Fake.change (u "I0") ABANDONED] [])
               Fake.clock 3 (u "proj") [] [] false Fake.flow Fake.tags w).2 in
  stored w' = stored w /\ jira w' = jira w
  /\ gerrit_jira_log (session w') = gerrit_jira_log (session w)
  /\ clock_reads w' = clock_reads w.
Proof.
  intros row d w w'.
  apply (abandoned_window_commits_nothing _ _
           (Fake.gerrit [Fake.change (u "I0") ABANDONED] [])
           Fake.clock 3%nat (u "proj") [] [] false Fake.flow Fake.tags w w'
           (Ok tt)).
  - intros offset response Hr. destruct offset; injection Hr as <-.
    + by repeat constructor.
    + constructor.
  - vm_compute. reflexivity.
Defined.

(** ** Mentions and watchers *)

Lemma user_run_no_bracket (s : text) : 93 ∉ Mention.user_run s.
Proof.
  induction s as [|c s IH]; cbn [Mention.user_run]; [apply not_elem_of_nil|].
  destruct (N.eqb_spec c 93) as [->|Hc]; [apply not_elem_of_nil|].
  apply not_elem_of_cons. split; [congruence|done].
Qed.

Lemma user_run_prefix (s : text) :
  s = Mention.user_run s ++ drop (length (Mention.user_run s)) s.
Proof.
  induction s as [|c s IH]; cbn [Mention.user_run]; [done|].
  destruct (N.eqb_spec c 93) as [->|Hc]; [done|].
  cbn [length drop app]. by rewrite <- IH.
Qed.

Lemma user_run_app (a b : text) :
  93 ∉ a -> Mention.user_run (a ++ 93 :: b) = a.
Proof.
  induction a as [|c a IH]; intros Ha; cbn [app Mention.user_run].
  - by rewrite N.eqb_refl.
  - apply not_elem_of_cons in Ha as [Hc Ha].
    destruct (N.eqb_spec c 93) as [->|_]; [done|]. by rewrite IH.
Qed.

Lemma match_at_some (s user : text) :
  Mention.match_at s = Some user ->
  user <> [] /\ (93 ∉ user)
  /\ exists rest, s = [91; 126] ++ user ++ [93] ++ rest.
Proof.
  destruct s as [|c [|d s]]; try done. unfold Mention.match_at.
  destruct (N.eqb_spec c 91) as [->|_]; [|done].
  destruct (N.eqb_spec d 126) as [->|_]; [|done].
  cbn [andb]. pose proof (user_run_prefix s) as Hs.
  pose proof (user_run_no_bracket s) as Hb.
  destruct (Mention.user_run s) as [|x run]; [done|].
  destruct (drop (length (x :: run)) s) as [|e rest]; [done|].
  destruct (N.eqb_spec e 93) as [->|_]; [|done].
  intros [= <-]. split; [done|]. split; [done|].
  exists rest. by rewrite Hs at 1.
Qed.

Lemma match_at_other (c : N) (s : text) :
  c <> 91 -> Mention.match_at (c :: s) = None.
Proof.
  intros Hc. destruct s as [|d s]; [done|]. unfold Mention.match_at.
  by destruct (N.eqb_spec c 91).
Qed.

Lemma match_at_mention (user b : text) :
  user <> [] -> 93 ∉ user ->
  Mention.match_at (91 :: 126 :: user ++ 93 :: b) = Some user.
Proof.
  intros Hu Hb. unfold Mention.match_at. cbn [N.eqb Pos.eqb andb].
  cbv zeta. rewrite user_run_app by done.
  destruct user as [|x t]; [done|]. cbv iota beta.
  rewrite drop_app_length. by rewrite N.eqb_refl.
Qed.

Lemma findall_from_sound (s : text) (skip : nat) (x : text) :
  x ∈ Mention.findall_from skip s ->
  x <> [] /\ (93 ∉ x)
  /\ exists a b, s = a ++ [91; 126] ++ x ++ [93] ++ b.
Proof.
  revert skip. induction s as [|c s IH]; intros skip Hx;
    [by apply elem_of_nil in Hx|].
  assert (Hrest : forall k, x ∈ Mention.findall_from k s ->
            x <> [] /\ (93 ∉ x)
            /\ exists a b, c :: s = a ++ [91; 126] ++ x ++ [93] ++ b).
  { intros k Hk. destruct (IH k Hk) as (Hne & Hb & a & b & ->).
    split; [done|]. split; [done|]. by exists (c :: a), b. }
  cbn [Mention.findall_from] in Hx. destruct skip as [|k]; [|by eapply Hrest].
  destruct (Mention.match_at (c :: s)) as [user|] eqn:E; [|by eapply Hrest].
  apply elem_of_cons in Hx as [->|Hx]; [|by eapply Hrest].
  destruct (match_at_some _ _ E) as (Hne & Hb & rest & Hs).
  split; [done|]. split; [done|]. by exists [], rest.
Qed.

Lemma findall_from_plain (s : text) (skip : nat) :
  91 ∉ s -> Mention.findall_from skip s = [].
Proof.
  revert skip. induction s as [|c s IH]; intros skip Hs; [done|].
  apply not_elem_of_cons in Hs as [Hc Hs]. cbn [Mention.findall_from].
  destruct skip as [|k]; [|by apply IH].
  rewrite match_at_other by congruence. by apply IH.
Qed.

Lemma findall_from_skip (p b : text) :
  Mention.findall_from (length p) (p ++ b) = Mention.findall_from 0 b.
Proof. induction p as [|c p IH]; [done|]. exact IH. Qed.

Lemma findall_from_cons (c : N) (s : text) :
  Mention.findall_from 0 (c :: s)
  = match Mention.match_at (c :: s) with
    | Some user => user :: Mention.findall_from (length user + 2) s
    | None => Mention.findall_from 0 s
    end.
Proof. done. Qed.

Lemma findall_mention (a user b : text) :
  91 ∉ a -> user <> [] -> 93 ∉ user ->
  Mention.findall (a ++ [91; 126] ++ user ++ [93] ++ b)
  = user :: Mention.findall b.
Proof.
  intros Ha Hu Hb. unfold Mention.findall.
  induction a as [|c a IH]; cbn [app]; rewrite findall_from_cons.
  - rewrite match_at_mention by done. f_equal.
    replace (length user + 2)%nat with (length (126 :: user ++ [93]))
      by (cbn; rewrite length_app; cbn; lia).
    replace (126 :: user ++ 93 :: b) with ((126 :: user ++ [93]) ++ b)
      by (cbn; by rewrite <- app_assoc).
    apply findall_from_skip.
  - apply not_elem_of_cons in Ha as [Hc Ha].
    rewrite match_at_other by congruence. by apply IH.
Qed.

(** X12: every user that [USER_RE.findall] gives is written in the text
    as a mention, between [[~] and []]; it is not empty and has no
    closing bracket in it.  A text without an opening bracket mentions
    nobody. *)
Theorem mentions_are_bracketed :
  (forall (s user : text),
      user ∈ Mention.findall s ->
      user <> [] /\ (93 ∉ user)
      /\ exists a b, s = a ++ u "[~" ++ user ++ u "]" ++ b)
  /\ (forall s : text, 91 ∉ s -> Mention.findall s = []).
Proof.
  split.
  - intros s user. apply findall_from_sound.
  - intros s. apply findall_from_plain.
Qed.

(** X13: the first mention of a text is found, and the search goes on
    behind its closing bracket: when no opening bracket comes before it,
    the users of the text are that user and then those of the rest. *)
Theorem first_mention_found :
  forall a user b : text,
    91 ∉ a -> user <> [] -> 93 ∉ user ->
    Mention.findall (a ++ u "[~" ++ user ++ u "]" ++ b)
    = user :: Mention.findall b.
Proof. intros a user b. apply findall_mention. Qed.

(** The mentions of X13 in a comment. *)
Lemma first_mention_found_witness :
  Mention.findall (u "cc " ++ u "[~" ++ u "alice" ++ u "]" ++ u " and [~bob]")
  = u "alice" :: Mention.findall (u " and [~bob]").
Proof.
  apply (first_mention_found (u "cc ") (u "alice") (u " and [~bob]")).
  - apply (bool_decide_unpack _). vm_compute. exact I.
  - discriminate.
  - apply (bool_decide_unpack _). vm_compute. exact I.
Defined.

(** X14: [add_mentions_to_watchers] adds a user once, and adds exactly
    the users that the description or a comment of the issue mentions
    and that do not watch it yet; an issue without description has the
    mentions of its comments. *)
Theorem mentions_become_watchers :
  forall i : Mention.content,
    NoDup (Mention.add_mentions_to_watchers i)
    /\ forall user : text,
        user ∈ Mention.add_mentions_to_watchers i
        <-> ((exists d, Mention.description i = Some d
                        /\ user ∈ Mention.findall d)
             \/ (exists c, c ∈ Mention.comments i
                           /\ user ∈ Mention.findall c))
            /\ user ∉ Mention.watchers i.
Proof.
  intros i. split;
    [unfold Mention.add_mentions_to_watchers; apply NoDup_elements|].
  intros user.
  unfold Mention.add_mentions_to_watchers, Mention.get_nonwatcher_mentions,
    Mention.get_mentioned_user_set, Mention.get_watcher_user_set.
  rewrite elem_of_elements, elem_of_difference, elem_of_union,
    !elem_of_list_to_set, list_elem_of_join.
  split.
  - intros [[Hd|(l & Hu & Hl)] Hw]; (split; [|done]).
    + destruct (Mention.description i) as [d|];
        [left; eauto|by apply elem_of_nil in Hd].
    + apply list_elem_of_fmap in Hl as (c & -> & Hc). right. eauto.
  - intros [[(d & Hd & Hu)|(c & Hc & Hu)] Hw]; (split; [|done]).
    + left. by rewrite Hd.
    + right. exists (Mention.findall c). split; [done|].
      apply list_elem_of_fmap. eauto.
Qed.

(** ** The resolutions of a commit *)

Lemma bytes_lstrip_head (s : text) (c : N) :
  head (PyStr.lstrip s) = Some c -> PyStr.isspace c = false.
Proof.
  induction s as [|d s IH]; [done|]. cbn [PyStr.lstrip].
  destruct (PyStr.isspace d) eqn:E; [done|]. by intros [= <-].
Qed.

Lemma bytes_lstrip_keeps (l k : text) (c : N) :
  PyStr.isspace c = false ->
  PyStr.lstrip (l ++ c :: k) = PyStr.lstrip l ++ c :: k.
Proof.
  intros Hc. induction l as [|d l IH]; cbn [PyStr.lstrip app].
  - by rewrite Hc.
  - by destruct (PyStr.isspace d).
Qed.

Lemma bytes_rstrip_cons (c : N) (s : text) :
  PyStr.isspace c = false -> PyStr.rstrip (c :: s) = c :: PyStr.rstrip s.
Proof.
  intros Hc. unfold PyStr.rstrip.
  rewrite reverse_cons, bytes_lstrip_keeps by done.
  by rewrite reverse_app.
Qed.

Lemma bytes_strip_trimmed (s : text) : trimmed_bytes (PyStr.strip s).
Proof.
  unfold trimmed_bytes, PyStr.strip. split; intros c Hc.
  - destruct (PyStr.lstrip s) as [|d t] eqn:E; [done|].
    assert (PyStr.isspace d = false) as Hd
      by (apply bytes_lstrip_head with s; by rewrite E).
    rewrite bytes_rstrip_cons in Hc by done. by injection Hc as <-.
  - unfold PyStr.rstrip in Hc. rewrite last_reverse in Hc.
    by apply bytes_lstrip_head in Hc.
Qed.

Lemma bytes_lstrip_elem (s : text) (x : N) : x ∈ PyStr.lstrip s -> x ∈ s.
Proof.
  induction s as [|y s IH]; [done|]. cbn [PyStr.lstrip].
  destruct (PyStr.isspace y); [|done].
  intros ?. apply list_elem_of_further. auto.
Qed.

Lemma bytes_strip_elem (s : text) (x : N) : x ∈ PyStr.strip s -> x ∈ s.
Proof.
  unfold PyStr.strip, PyStr.rstrip. rewrite elem_of_reverse.
  intros Hx%bytes_lstrip_elem. rewrite elem_of_reverse in Hx.
  by apply bytes_lstrip_elem.
Qed.

Lemma bytes_splitlines_from_elem (n : nat) (s cur l : text) :
  (length s <= n)%nat ->
  l ∈ PyStr.splitlines_from cur s ->
  forall x, x ∈ l ->
    x ∈ cur \/ (x ∈ s /\ (x =? 10) || (x =? 13) = false).
Proof.
  revert s cur. induction n as [|n IH]; intros s cur Hn Hl x Hx.
  - destruct s; [|cbn in Hn; lia]. cbn in Hl.
    destruct cur; [by apply elem_of_nil in Hl|].
    apply list_elem_of_singleton in Hl as ->. by left.
  - destruct s as [|y s]; cbn [PyStr.splitlines_from] in Hl.
    + destruct cur; [by apply elem_of_nil in Hl|].
      apply list_elem_of_singleton in Hl as ->. by left.
    + cbn in Hn. destruct ((y =? 10) || (y =? 13)) eqn:Ey.
      * assert (Hrest : forall t, (length t <= n)%nat ->
                  (forall z, z ∈ t -> z ∈ y :: s) ->
                  l ∈ cur :: PyStr.splitlines_from [] t ->
                  x ∈ cur
                  \/ (x ∈ y :: s /\ (x =? 10) || (x =? 13) = false)).
        { intros t Ht Hsub Hin.
          apply elem_of_cons in Hin as [->|Hin]; [by left|].
          destruct (IH t [] Ht Hin x Hx) as [Hnil|[Hxt Hb]];
            [by apply elem_of_nil in Hnil|].
          right. split; [by apply Hsub|done]. }
        destruct s as [|d s'].
        -- apply (Hrest []); [cbn; lia|by intros z ?%elem_of_nil|done].
        -- destruct ((y =? 13) && (d =? 10)).
           ++ apply (Hrest s'); [cbn in Hn; lia| |done].
              intros z Hz. by do 2 apply list_elem_of_further.
           ++ apply (Hrest (d :: s')); [lia| |done].
              intros z Hz. by apply list_elem_of_further.
      * destruct (IH s (cur ++ [y]) ltac:(lia) Hl x Hx) as [Hin|[Hin Hb]].
        -- apply elem_of_app in Hin as [? | ->%list_elem_of_singleton];
             [by left|]. right. split; [apply list_elem_of_here|done].
        -- right. split; [by apply list_elem_of_further|done].
Qed.

Lemma bytes_splitlines_elem (s l : text) (x : N) :
  l ∈ PyStr.splitlines s -> x ∈ l -> x ∈ s /\ x <> 10 /\ x <> 13.
Proof.
  intros Hl Hx.
  destruct (bytes_splitlines_from_elem (length s) s [] l (le_n _) Hl x Hx)
    as [Hnil|[Hin Hb]]; [by apply elem_of_nil in Hnil|].
  split; [done|]. apply orb_false_iff in Hb as [H10 H13].
  by split; apply N.eqb_neq.
Qed.

Lemma resolve_issue_lookup (resolution : text) (res : gmap text text)
    (x issue r : text) :
  resolve_issue resolution res x !! issue = Some r ->
  res !! issue = Some r
  \/ (issue = PyStr.strip x /\ r = resolution /\ issue <> u "None").
Proof.
  unfold resolve_issue. cbv zeta. case_bool_decide as Hn; [by left|].
  destruct (decide (PyStr.strip x = issue)) as [<-|Hne].
  - rewrite lookup_insert_eq. intros [= <-]. by right.
  - rewrite lookup_insert_ne by done. by left.
Qed.

Lemma resolve_issues_lookup (resolution : text) (xs : list text)
    (res : gmap text text) (issue r : text) :
  foldl (resolve_issue resolution) res xs !! issue = Some r ->
  res !! issue = Some r
  \/ exists x, x ∈ xs /\ issue = PyStr.strip x /\ r = resolution
               /\ issue <> u "None".
Proof.
  revert res. induction xs as [|x xs IH]; intros res H; [by left|].
  cbn [foldl] in H. apply IH in H as [H|(y & Hy & H)].
  - apply resolve_issue_lookup in H as [H|H]; [by left|].
    right. exists x. split; [apply list_elem_of_here|done].
  - right. exists y. split; [by apply list_elem_of_further|done].
Qed.

Lemma resolution_line_lookup (tag_map res : gmap text text)
    (line issue r : text) :
  resolution_line tag_map res line !! issue = Some r ->
  res !! issue = Some r
  \/ exists key issues x,
       Py.partition colon (PyStr.strip line) = Some (key, issues)
       /\ tag_resolution tag_map key = Some r
       /\ x ∈ Py.split comma issues
       /\ PyStr.strip x = issue /\ issue <> u "None".
Proof.
  unfold resolution_line, Py.split1.
  destruct (Py.partition colon (PyStr.strip line)) as [[key issues]|];
    [|by left].
  destruct (tag_resolution tag_map key) as [resolution|] eqn:E; [|by left].
  intros [H|(x & Hx & -> & -> & Hn)]%resolve_issues_lookup; [by left|].
  right. by exists key, issues, x.
Qed.

Lemma resolution_lines_lookup (tag_map : gmap text text) (lines : list text)
    (res : gmap text text) (issue r : text) :
  foldl (resolution_line tag_map) res lines !! issue = Some r ->
  res !! issue = Some r
  \/ exists line key issues x,
       line ∈ lines
       /\ Py.partition colon (PyStr.strip line) = Some (key, issues)
       /\ tag_resolution tag_map key = Some r
       /\ x ∈ Py.split comma issues
       /\ PyStr.strip x = issue /\ issue <> u "None".
Proof.
  revert res. induction lines as [|line lines IH]; intros res H; [by left|].
  cbn [foldl] in H. apply IH in H as [H|(l & key & issues & x & Hl & H)].
  - apply resolution_line_lookup in H as [H|(key & issues & x & H)];
      [by left|].
    right. exists line, key, issues, x.
    split; [apply list_elem_of_here|done].
  - right. exists l, key, issues, x.
    split; [by apply list_elem_of_further|done].
Qed.

Lemma resolve_issue_keeps (resolution : text) (res : gmap text text)
    (x issue : text) :
  is_Some (res !! issue) ->
  is_Some (resolve_issue resolution res x !! issue).
Proof.
  intros H. unfold resolve_issue. cbv zeta. case_bool_decide; [done|].
  apply lookup_insert_is_Some'. by right.
Qed.

Lemma resolve_issues_keep (resolution : text) (xs : list text)
    (res : gmap text text) (issue : text) :
  is_Some (res !! issue) ->
  is_Some (foldl (resolve_issue resolution) res xs !! issue).
Proof.
  revert res. induction xs as [|x xs IH]; intros res H; [done|].
  cbn [foldl]. by apply IH, resolve_issue_keeps.
Qed.

Lemma resolve_issues_add (resolution : text) (xs : list text)
    (res : gmap text text) (x : text) :
  x ∈ xs -> PyStr.strip x <> u "None" ->
  is_Some (foldl (resolve_issue resolution) res xs !! PyStr.strip x).
Proof.
  intros Hx Hn. revert res.
  induction xs as [|y xs IH]; intros res; [by apply elem_of_nil in Hx|].
  cbn [foldl]. apply elem_of_cons in Hx as [<-|Hx]; [|by apply IH].
  apply resolve_issues_keep. unfold resolve_issue. cbv zeta.
  rewrite bool_decide_eq_false_2 by done.
  apply lookup_insert_is_Some'. by left.
Qed.

Lemma resolution_line_keeps (tag_map res : gmap text text)
    (line issue : text) :
  is_Some (res !! issue) ->
  is_Some (resolution_line tag_map res line !! issue).
Proof.
  intros H. unfold resolution_line.
  destruct (Py.split1 colon (PyStr.strip line)) as [|a [|b [|c l]]];
    try done.
  destruct (tag_resolution tag_map a); [|done].
  by apply resolve_issues_keep.
Qed.

Lemma resolution_lines_keep (tag_map : gmap text text) (lines : list text)
    (res : gmap text text) (issue : text) :
  is_Some (res !! issue) ->
  is_Some (foldl (resolution_line tag_map) res lines !! issue).
Proof.
  revert res. induction lines as [|l lines IH]; intros res H; [done|].
  cbn [foldl]. by apply IH, resolution_line_keeps.
Qed.

Lemma resolution_lines_add (tag_map : gmap text text) (lines : list text)
    (res : gmap text text) (line key issues r x : text) :
  line ∈ lines ->
  Py.partition colon (PyStr.strip line) = Some (key, issues) ->
  tag_resolution tag_map key = Some r ->
  x ∈ Py.split comma issues -> PyStr.strip x <> u "None" ->
  is_Some (foldl (resolution_line tag_map) res lines !! PyStr.strip x).
Proof.
  intros Hl Hp Ht Hx Hn. revert res.
  induction lines as [|l lines IH]; intros res; [by apply elem_of_nil in Hl|].
  cbn [foldl]. apply elem_of_cons in Hl as [<-|Hl]; [|by apply IH].
  apply resolution_lines_keep. unfold resolution_line, Py.split1.
  rewrite Hp, Ht. by apply resolve_issues_add.
Qed.

(** X15: [get_resolutions] has an issue exactly when some line of the
    message, once trimmed, has before its first colon a key that the tag
    map knows, as written or in lower case, and names the issue among
    the entries between the commas behind it, once trimmed; the entry
    [None] is no issue. *)
Theorem resolutions_of_tag_lines :
  forall (message : text) (tag_map : gmap text text) (issue : text),
    is_Some (get_resolutions message tag_map !! issue)
    <-> exists line key issues r x,
          line ∈ PyStr.splitlines message
          /\ Py.partition colon (PyStr.strip line) = Some (key, issues)
          /\ tag_resolution tag_map key = Some r
          /\ x ∈ Py.split comma issues
          /\ PyStr.strip x = issue /\ issue <> u "None".
Proof.
  intros message tag_map issue. unfold get_resolutions. split.
  - intros [r H].
    apply resolution_lines_lookup in H
      as [H|(line & key & issues & x & H)]; [by rewrite lookup_empty in H|].
    by exists line, key, issues, r, x.
  - intros (line & key & issues & r & x & Hl & Hp & Ht & Hx & <- & Hn).
    by eapply resolution_lines_add.
Qed.

(** X16: every issue of [get_resolutions] has a resolution of the tag
    map; the issue is trimmed, is not [None], has no comma and no line
    boundary in it and is made of bytes of the message. *)
Theorem resolutions_are_clean :
  forall (message : text) (tag_map : gmap text text) (issue r : text),
    get_resolutions message tag_map !! issue = Some r ->
    (exists key, tag_map !! key = Some r)
    /\ trimmed_bytes issue /\ issue <> u "None" /\ (44 ∉ issue)
    /\ forall c, c ∈ issue -> c ∈ message /\ c <> 10 /\ c <> 13.
Proof.
  intros message tag_map issue r H. unfold get_resolutions in H.
  apply resolution_lines_lookup in H
    as [H|(line & key & issues & x & Hl & Hp & Ht & Hx & <- & Hn)];
    [by rewrite lookup_empty in H|].
  split; [|split; [|split; [|split]]].
  - unfold tag_resolution in Ht.
    destruct (tag_map !! key) as [r'|] eqn:E; [|by eauto].
    injection Ht as ->. eauto.
  - apply bytes_strip_trimmed.
  - done.
  - intros Hc%bytes_strip_elem.
    destruct (split_from_elem comma _ [] x Hx 44 Hc) as [_ Hne].
    by apply Hne; [apply not_elem_of_nil|].
  - intros c Hc%bytes_strip_elem.
    destruct (split_from_elem comma _ [] x Hx c Hc) as [[Hnil|Hi] _];
      [by apply elem_of_nil in Hnil|].
    eapply bytes_splitlines_elem; [exact Hl|].
    apply bytes_strip_elem.
    eapply partition_elem; [exact Hp|by right].
Qed.

(** The issue of X16 under a tag that the map has in lower case. *)
Lemma resolutions_are_clean_witness :
  let message := u "Fix it" ++ [10] ++ u "Closes: A-1, None" in
  let tag_map : gmap text text := {[ u "closes" := u "Fixed" ]} in
  (exists key, tag_map !! key = Some (u "Fixed"))
  /\ trimmed_bytes (u "A-1") /\ u "A-1" <> u "None" /\ (44 ∉ u "A-1")
  /\ forall c, c ∈ u "A-1" -> c ∈ message /\ c <> 10 /\ c <> 13.
Proof.
  intros message tag_map.
  apply (resolutions_are_clean message tag_map (u "A-1") (u "Fixed")).
  vm_compute. reflexivity.
Defined.

Lemma resolve_issues_union (resolution : text) (xs : list text)
    (a b : gmap text text) :
  foldl (resolve_issue resolution) (a ∪ b) xs
  = foldl (resolve_issue resolution) a xs ∪ b.
Proof.
  revert a. induction xs as [|x xs IH]; intros a; [done|].
  cbn [foldl]. rewrite <- IH. f_equal. unfold resolve_issue. cbv zeta.
  case_bool_decide; [done|]. by rewrite insert_union_l.
Qed.

Lemma resolution_line_union (tag_map a b : gmap text text) (line : text) :
  resolution_line tag_map (a ∪ b) line = resolution_line tag_map a line ∪ b.
Proof.
  unfold resolution_line.
  destruct (Py.split1 colon (PyStr.strip line)) as [|k [|v [|c l]]];
    try done.
  destruct (tag_resolution tag_map k); [|done].
  apply resolve_issues_union.
Qed.

Lemma resolution_lines_union (tag_map : gmap text text) (lines : list text)
    (a b : gmap text text) :
  foldl (resolution_line tag_map) (a ∪ b) lines
  = foldl (resolution_line tag_map) a lines ∪ b.
Proof.
  revert a. induction lines as [|l lines IH]; intros a; [done|].
  cbn [foldl]. by rewrite resolution_line_union, IH.
Qed.

Lemma bytes_splitlines_line (line cur rest : text) :
  10 ∉ line -> 13 ∉ line ->
  PyStr.splitlines_from cur (line ++ 10 :: rest)
  = (cur ++ line) :: PyStr.splitlines_from [] rest.
Proof.
  revert cur. induction line as [|c line IH]; intros cur H10 H13.
  - rewrite app_nil_r. cbn. by destruct rest.
  - apply not_elem_of_cons in H10 as [Hc10 H10].
    apply not_elem_of_cons in H13 as [Hc13 H13].
    cbn [app PyStr.splitlines_from].
    destruct (N.eqb_spec c 10) as [->|_]; [done|].
    destruct (N.eqb_spec c 13) as [->|_]; [done|].
    cbn [orb]. rewrite IH by done. by rewrite <- app_assoc.
Qed.

Lemma bytes_splitlines_one (line cur : text) :
  10 ∉ line -> 13 ∉ line ->
  PyStr.splitlines_from cur line
  = match cur ++ line with [] => [] | _ => [cur ++ line] end.
Proof.
  revert cur. induction line as [|c line IH]; intros cur H10 H13.
  - by rewrite app_nil_r.
  - apply not_elem_of_cons in H10 as [Hc10 H10].
    apply not_elem_of_cons in H13 as [Hc13 H13].
    cbn [PyStr.splitlines_from].
    destruct (N.eqb_spec c 10) as [->|_]; [done|].
    destruct (N.eqb_spec c 13) as [->|_]; [done|].
    cbn [orb]. rewrite IH by done. by rewrite <- app_assoc.
Qed.

(** X17: a later line overrides an earlier one: the resolutions of a
    message are those of its first line, replaced for every issue that
    the rest of the message resolves by the resolution of the rest. *)
Theorem later_lines_override :
  forall (line rest : text) (tag_map : gmap text text),
    10 ∉ line -> 13 ∉ line ->
    get_resolutions (line ++ [10] ++ rest) tag_map
    = get_resolutions rest tag_map ∪ get_resolutions line tag_map.
Proof.
  intros line rest tag_map H10 H13. unfold get_resolutions, PyStr.splitlines.
  cbn [app]. rewrite bytes_splitlines_line by done. cbn [foldl app].
  rewrite (bytes_splitlines_one line []) by done. cbn [app].
  assert (Hline : resolution_line tag_map ∅ line
                  = foldl (resolution_line tag_map) ∅
                      match line with [] => [] | _ => [line] end).
  { destruct line; [|done]. cbn [foldl].
    unfold resolution_line. by vm_compute. }
  rewrite <- Hline.
  rewrite <- (left_id_L ∅ (∪) (resolution_line tag_map ∅ line)) at 1.
  apply resolution_lines_union.
Qed.

(** The two lines of X17 on one issue. *)
Lemma later_lines_override_witness :
  let tag_map : gmap text text :=
    {[ u "Closes" := u "Fixed"; u "Wontfix" := u "Rejected" ]} in
  get_resolutions (u "Closes: A-1" ++ [10] ++ u "Wontfix: A-1") tag_map
  = get_resolutions (u "Wontfix: A-1") tag_map
    ∪ get_resolutions (u "Closes: A-1") tag_map.
Proof.
  intros tag_map.
  apply (later_lines_override (u "Closes: A-1") (u "Wontfix: A-1") tag_map);
    apply (bool_decide_unpack _); vm_compute; exact I.
Defined.

(** ** The gerrit query *)

Lemma always_safe_other (c : N) :
  Url.always_safe c = true -> c <> 32 /\ c <> 34 /\ c <> 37 /\ c <> 43.
Proof.
  unfold Url.always_safe.
  rewrite !orb_true_iff, !andb_true_iff, !N.leb_le, !N.eqb_eq. lia.
Qed.

Lemma hex_digit_safe (n : N) :
  n < 16 -> Url.always_safe (Url.hex_digit n) = true.
Proof.
  intros Hn. unfold Url.hex_digit, Url.always_safe.
  rewrite !orb_true_iff, !andb_true_iff, !N.leb_le, !N.eqb_eq.
  destruct (N.ltb_spec n 10); lia.
Qed.

Lemma hex_digit_inj (m n : N) :
  m < 16 -> n < 16 -> Url.hex_digit m = Url.hex_digit n -> m = n.
Proof.
  unfold Url.hex_digit. intros Hm Hn.
  destruct (N.ltb_spec m 10), (N.ltb_spec n 10); lia.
Qed.

Lemma byte_digits (c : N) :
  c < 256 -> c / 16 < 16 /\ c mod 16 < 16 /\ c = 16 * (c / 16) + c mod 16.
Proof.
  intros Hc. split; [apply N.Div0.div_lt_upper_bound; lia|].
  split; [apply N.mod_lt; lia|]. apply N.div_mod. lia.
Qed.

Lemma quote_byte_chars (c x : N) :
  c < 256 -> x ∈ Url.quote_byte c -> url_char x = true.
Proof.
  intros Hc. unfold Url.quote_byte, url_char.
  destruct (Url.always_safe c) eqn:Es.
  - intros ->%list_elem_of_singleton. by rewrite Es.
  - destruct (byte_digits c Hc) as (Hh & Hl & _).
    destruct (N.eqb_spec c 32) as [->|_].
    + by intros ->%list_elem_of_singleton.
    + rewrite !elem_of_cons, elem_of_nil.
      intros [->|[->|[->|[]]]]; [done| |]; by rewrite hex_digit_safe.
Qed.

Lemma quote_byte_plus (c : N) :
  c < 256 -> 43 ∈ Url.quote_byte c <-> c = 32.
Proof.
  intros Hc. unfold Url.quote_byte.
  destruct (Url.always_safe c) eqn:Es.
  - apply always_safe_other in Es. rewrite list_elem_of_singleton. lia.
  - destruct (byte_digits c Hc) as (Hh & Hl & _).
    destruct (N.eqb_spec c 32) as [->|Hne].
    + split; [done|]. intros _. apply list_elem_of_here.
    + rewrite !elem_of_cons, elem_of_nil. split; [|done].
      intros [?|[Hd|[Hd|[]]]]; [done| |];
        symmetry in Hd;
        [pose proof (hex_digit_safe _ Hh) as Hs
        |pose proof (hex_digit_safe _ Hl) as Hs];
        rewrite Hd in Hs; apply always_safe_other in Hs; lia.
Qed.

Lemma quote_byte_cons (c : N) : Url.quote_byte c <> [].
Proof.
  unfold Url.quote_byte.
  by destruct (Url.always_safe c), (c =? 32).
Qed.

Lemma quote_byte_inj (c d : N) (x y : text) :
  c < 256 -> d < 256 ->
  Url.quote_byte c ++ x = Url.quote_byte d ++ y -> c = d /\ x = y.
Proof.
  intros Hc Hd. unfold Url.quote_byte.
  destruct (byte_digits c Hc) as (Hch & Hcl & Hce).
  destruct (byte_digits d Hd) as (Hdh & Hdl & Hde).
  destruct (Url.always_safe c) eqn:Ec;
    [apply always_safe_other in Ec|destruct (N.eqb_spec c 32) as [->|_]];
    (destruct (Url.always_safe d) eqn:Ed;
     [apply always_safe_other in Ed|destruct (N.eqb_spec d 32) as [->|_]]);
    cbn [app]; intros H; injection H; try (intros; split; [lia|done]);
    try lia.
  intros -> Hl Hh. split; [|done].
  apply hex_digit_inj in Hl; [|done|done].
  apply hex_digit_inj in Hh; [|done|done].
  rewrite Hce, Hde. by rewrite Hl, Hh.
Qed.

Lemma quoted_inj (a b : text) :
  Forall (fun c => c < 256) a -> Forall (fun c => c < 256) b ->
  mjoin (Url.quote_byte <$> a) = mjoin (Url.quote_byte <$> b) -> a = b.
Proof.
  intros Ha. revert b. induction Ha as [|c a Hc Ha IH]; intros b Hb H.
  - destruct Hb as [|d b Hd Hb]; [done|]. cbn in H.
    pose proof (quote_byte_cons d) as Hne.
    destruct (Url.quote_byte d); [done|discriminate].
  - destruct Hb as [|d b Hd Hb]; cbn in H.
    + pose proof (quote_byte_cons c) as Hne.
      destruct (Url.quote_byte c); [done|discriminate].
    + apply quote_byte_inj in H as [-> H]; [|done|done].
      f_equal. by apply IH.
Qed.

Lemma quote_plus_some (s q : text) :
  Url.quote_plus s = Some q ->
  Forall (fun c => c < 256) s /\ q = mjoin (Url.quote_byte <$> s).
Proof.
  unfold Url.quote_plus. case_bool_decide; [|done]. by intros [= <-].
Qed.

(** X18: what [quote_plus] writes is made of letters, digits, [_.-],
    the plus and the percent sign; it has a plus exactly when the text
    has a space, so that [gerrit_query] puts a value in quotes exactly
    when it has a space; and a text of letters, digits and [_.-] is
    left as it is. *)
Theorem quote_plus_alphabet :
  forall s q : text,
    Url.quote_plus s = Some q ->
    (forall c, c ∈ q -> url_char c = true)
    /\ (43 ∈ q <-> 32 ∈ s)
    /\ (forall key,
          query_pair key q
          = if bool_decide (32 ∈ s)
            then key ++ u ":" ++ [34] ++ q ++ [34]
            else key ++ u ":" ++ q)
    /\ ((forall c, c ∈ s -> Url.always_safe c = true) -> q = s).
Proof.
  intros s q [Hs ->]%quote_plus_some.
  assert (Hplus : 43 ∈ mjoin (Url.quote_byte <$> s) <-> 32 ∈ s).
  { rewrite list_elem_of_join. split.
    - intros (l & Hin & (c & -> & Hc)%list_elem_of_fmap).
      eapply Forall_forall in Hs; [|exact Hc].
      apply quote_byte_plus in Hin; [|done]. by subst.
    - intros Hc. exists (Url.quote_byte 32). split; [apply list_elem_of_here|].
      apply list_elem_of_fmap. eauto. }
  split; [|split; [|split]].
  - intros x (l & Hin & (c & -> & Hc)%list_elem_of_fmap)%list_elem_of_join.
    eapply Forall_forall in Hs; [|exact Hc]. by eapply quote_byte_chars.
  - exact Hplus.
  - intros key. unfold query_pair.
    case_bool_decide as H1; case_bool_decide as H2; tauto.
  - clear Hplus. intros Hsafe. induction Hs as [|c s Hc Hs IH]; [done|].
    cbn. unfold Url.quote_byte at 1.
    rewrite Hsafe by apply list_elem_of_here. cbn. f_equal.
    apply IH. intros d Hd. by apply Hsafe, list_elem_of_further.
Qed.

(** The time of X18, with its space. *)
Lemma quote_plus_alphabet_witness :
  let s := u "2017-03-01 12:30:00" in
  let q := u "2017-03-01+12%3A30%3A00" in
  (forall c, c ∈ q -> url_char c = true)
  /\ (43 ∈ q <-> 32 ∈ s)
  /\ (forall key,
        query_pair key q
        = if bool_decide (32 ∈ s)
          then key ++ u ":" ++ [34] ++ q ++ [34]
          else key ++ u ":" ++ q)
  /\ ((forall c, c ∈ s -> Url.always_safe c = true) -> q = s).
Proof.
  intros s q. apply (quote_plus_alphabet s q). vm_compute. reflexivity.
Defined.

(** X19: [quote_plus] loses nothing: two byte strings that it writes
    alike are the same. *)
Theorem quote_plus_injective :
  forall a b q : text,
    Url.quote_plus a = Some q -> Url.quote_plus b = Some q -> a = b.
Proof.
  intros a b q [Ha ->]%quote_plus_some [Hb Hq]%quote_plus_some.
  by apply quoted_inj.
Qed.

(** Two readings of one quoted text, for X19. *)
Lemma quote_plus_injective_witness :
  u "a b%" = [97; 32; 98; 37].
Proof.
  apply (quote_plus_injective (u "a b%") [97; 32; 98; 37] (u "a+b%25"));
    vm_compute; reflexivity.
Defined.

Lemma u_inj (a b : string) : u a = u b -> a = b.
Proof.
  unfold u. intros H.
  assert (Hl : list_ascii_of_string a = list_ascii_of_string b).
  { revert H. generalize (list_ascii_of_string a) (list_ascii_of_string b).
    induction l as [|x l IH]; intros [|y l']; try done.
    cbn. intros [= Hx Hl]. f_equal; [|by apply IH].
    by rewrite <- (ascii_N_embedding x), <- (ascii_N_embedding y), Hx. }
  by rewrite <- (string_of_list_ascii_of_string a),
             <- (string_of_list_ascii_of_string b), Hl.
Qed.

Lemma gerrit_query_range (project start_time end_time qp qs qe : text) :
  Url.quote_plus project = Some qp ->
  Url.quote_plus start_time = Some qs ->
  Url.quote_plus end_time = Some qe ->
  gerrit_query (<[u "project" := project]>
                  (<[u "after" := start_time]>
                     (<[u "before" := end_time]> ∅)))
  = Some (query_pair (u "after") qs ++ u "+"
          ++ query_pair (u "before") qe ++ u "+"
          ++ query_pair (u "project") qp).
Proof.
  intros Hp Hs He. unfold gerrit_query.
  set (filters := <[u "project" := project]> _).
  assert (Hkeys : merge_sort key_le (elements (dom filters))
                  = [u "after"; u "before"; u "project"])
    by (vm_compute; reflexivity).
  assert (Ha : filters !! u "after" = Some start_time)
    by (vm_compute; reflexivity).
  assert (Hb : filters !! u "before" = Some end_time)
    by (vm_compute; reflexivity).
  assert (Hj : filters !! u "project" = Some project)
    by (vm_compute; reflexivity).
  rewrite Hkeys. cbn [query_pairs]. rewrite Ha, Hs, Hb, He, Hj, Hp.
  reflexivity.
Qed.

(** X20: the request of [get_changes_from_range] names the window and
    the project in the order [after], [before], [project], each value
    as [quote_plus] writes it, in quotes when it has a plus, and ends
    with the offset in decimal; so two offsets never give one
    request. *)
Theorem changes_request_shape :
  (forall (project start_time end_time qp qs qe : text) (offset : nat),
      Url.quote_plus project = Some qp ->
      Url.quote_plus start_time = Some qs ->
      Url.quote_plus end_time = Some qe ->
      changes_request project start_time end_time offset
      = Some (u "/changes/?q="
              ++ query_pair (u "after") qs ++ u "+"
              ++ query_pair (u "before") qe ++ u "+"
              ++ query_pair (u "project") qp
              ++ u "&o=CURRENT_REVISION&o=LABELS&o=DETAILED_LABELS&o=DETAILED_ACCOUNTS&start="
              ++ decimal offset))
  /\ (forall (project start_time end_time r : text) (offset offset' : nat),
        changes_request project start_time end_time offset = Some r ->
        changes_request project start_time end_time offset' = Some r ->
        offset = offset').
Proof.
  split.
  - intros project st en qp qs qe offset Hp Hs He. unfold changes_request.
    rewrite (gerrit_query_range _ _ _ qp qs qe) by done.
    cbn [fmap option_fmap option_map]. f_equal. f_equal.
    by rewrite <- !app_assoc.
  - intros project st en r offset offset'. unfold changes_request.
    destruct (gerrit_query _) as [query|]; [|done].
    cbn [fmap option_fmap option_map]. intros H1 H.
    rewrite <- H1 in H. apply (inj Some) in H.
    do 3 apply app_inv_head in H. unfold decimal in H.
    apply u_inj in H. by apply (inj pretty) in H.
Qed.

(** The request of X20 for the second page of a window. *)
Lemma changes_request_shape_witness :
  changes_request (u "tools") (u "2017-03-01 12:30:00")
                  (u "2017-03-02 12:30:00") 25
  = Some (u "/changes/?q="
          ++ query_pair (u "after") (u "2017-03-01+12%3A30%3A00") ++ u "+"
          ++ query_pair (u "before") (u "2017-03-02+12%3A30%3A00") ++ u "+"
          ++ query_pair (u "project") (u "tools")
          ++ u "&o=CURRENT_REVISION&o=LABELS&o=DETAILED_LABELS&o=DETAILED_ACCOUNTS&start="
          ++ decimal 25).
Proof.
  apply (proj1 changes_request_shape); vm_compute; reflexivity.
Defined.

(** ** Releases *)

Lemma text_le_cons (x y : N) (a b : text) :
  text_le (x :: a) (y :: b) = true
  <-> x < y \/ (x = y /\ text_le a b = true).
Proof.
  cbn [text_le]. by rewrite orb_true_iff, andb_true_iff, N.ltb_lt, N.eqb_eq.
Qed.

#[global] Instance key_le_total : Total key_le.
Proof.
  intros a. unfold key_le.
  induction a as [|x a IH]; intros [|y b];
    [by left|by left|by right|].
  rewrite !text_le_cons.
  destruct (N.lt_trichotomy x y) as [?|[->|?]];
    [left; by left| |right; by left].
  destruct (IH b); [left|right]; by right.
Qed.

#[global] Instance key_le_trans : Transitive key_le.
Proof.
  intros a. unfold key_le.
  induction a as [|x a IH]; intros [|y b] [|z c]; try done.
  rewrite !text_le_cons.
  intros [?|[-> ?]] [?|[-> ?]];
    [left; lia|by left|by left|right; split; [done|by eapply IH]].
Qed.

Lemma count_NoDup (l : list text) (x : text) :
  NoDup l ->
  length (filter (fun y => y = x) l)
  = if decide (x ∈ l) then 1%nat else 0%nat.
Proof.
  induction 1 as [|y l Hy Hl IH]; [done|].
  rewrite filter_cons. destruct (decide (y = x)) as [->|Hne].
  - cbn [length]. rewrite IH, decide_False by done.
    rewrite decide_True; [done|apply list_elem_of_here].
  - rewrite IH. destruct (decide (x ∈ l)) as [Hin|Hin].
    + rewrite decide_True; [done|by apply list_elem_of_further].
    + rewrite decide_False; [done|].
      apply not_elem_of_cons. split; [congruence|done].
Qed.

Lemma count_issues (messages : list text) (tag_map : gmap text text)
    (issue : text) :
  length (filter (fun y => y = issue)
            (messages ≫= fun message =>
               elements (dom (get_resolutions message tag_map))))
  = length (filter (fun message =>
                      is_Some (get_resolutions message tag_map !! issue))
                   messages).
Proof.
  induction messages as [|m messages IH]; [done|].
  cbn [mbind list_bind]. rewrite filter_app, length_app, IH, filter_cons.
  rewrite count_NoDup by apply NoDup_elements.
  destruct (decide (issue ∈ elements (dom (get_resolutions m tag_map))))
    as [Hin|Hin]; rewrite elem_of_elements, elem_of_dom in Hin.
  - by rewrite decide_True.
  - by rewrite decide_False.
Qed.

(** X21: [get_issues_closed_in_series] lists the issues in ascending
    order of their bytes; an issue is listed when a commit of the series
    resolves it, and once for each such commit, so an issue that two
    commits resolve is listed twice. *)
Theorem issues_closed_in_series_sorted :
  forall (messages : list text) (tag_map : gmap text text),
    StronglySorted key_le (get_issues_closed_in_series messages tag_map)
    /\ (forall issue,
          issue ∈ get_issues_closed_in_series messages tag_map
          <-> exists message,
                message ∈ messages
                /\ is_Some (get_resolutions message tag_map !! issue))
    /\ (forall issue,
          length (filter (fun y => y = issue)
                    (get_issues_closed_in_series messages tag_map))
          = length (filter (fun message =>
                              is_Some (get_resolutions message tag_map
                                         !! issue))
                           messages)).
Proof.
  intros messages tag_map. unfold get_issues_closed_in_series.
  split; [|split].
  - apply StronglySorted_merge_sort; apply _.
  - intros issue. rewrite merge_sort_Permutation, list_elem_of_bind.
    split.
    + intros (m & Hin & Hm). exists m. split; [done|].
      by rewrite elem_of_elements, elem_of_dom in Hin.
    + intros (m & Hm & Hin). exists m. split; [|done].
      by rewrite elem_of_elements, elem_of_dom.
  - intros issue. rewrite merge_sort_Permutation. apply count_issues.
Qed.

Lemma release_pairs_lookup (releases : list text) (i : nat)
    (from_tag to_tag : text) :
  release_pairs releases !! i = Some (from_tag, to_tag)
  <-> releases !! i = Some from_tag /\ releases !! S i = Some to_tag.
Proof.
  unfold release_pairs. rewrite lookup_zip_with_Some. split.
  - intros (x & y & [= <- <-] & Hx & Hy).
    apply lookup_take_Some in Hx as [Hx _].
    by rewrite lookup_drop in Hy.
  - intros [Hx Hy]. exists from_tag, to_tag. split; [done|].
    rewrite lookup_drop. split; [|done].
    apply lookup_take_Some. split; [done|].
    apply lookup_lt_Some in Hy. lia.
Qed.

(** X22: the release commands pair every release with the one before
    it: there is one pair less than there are releases, the pair at a
    place is made of the release at that place and the next one, and,
    the tags being distinct, the first release ends no pair, so asking
    for it shows nothing. *)
Theorem release_pairs_are_consecutive :
  (forall releases : list text,
      length (release_pairs releases) = (length releases - 1)%nat)
  /\ (forall (releases : list text) (i : nat) (from_tag to_tag : text),
        release_pairs releases !! i = Some (from_tag, to_tag)
        <-> releases !! i = Some from_tag
            /\ releases !! S i = Some to_tag)
  /\ (forall (first : text) (rest : list text),
        NoDup (first :: rest) ->
        shown_pairs (first :: rest) (Some first) = [])
  /\ (forall (releases : list text) (p : text * text),
        p ∈ shown_pairs releases None <-> p ∈ release_pairs releases).
Proof.
  split; [|split; [|split]].
  - intros releases. unfold release_pairs.
    rewrite length_zip_with, length_take, length_drop. lia.
  - apply release_pairs_lookup.
  - intros first rest Hnd.
    assert (Hno : forall p, p ∉ shown_pairs (first :: rest) (Some first)).
    { intros [from_tag to_tag]. unfold shown_pairs.
      rewrite list_elem_of_filter. intros [[?|Heq] Hin]; [done|].
      cbn in Heq. injection Heq as <-.
      apply list_elem_of_lookup in Hin as [i Hi].
      apply release_pairs_lookup in Hi as [_ Hi].
      by apply (NoDup_lookup _ (S i) 0%nat first Hnd) in Hi. }
    destruct (shown_pairs _ _) as [|p l]; [done|].
    destruct (Hno p). apply list_elem_of_here.
  - intros releases p. unfold shown_pairs.
    rewrite list_elem_of_filter.
    split; [by intros [_ ?]|intros ?; split; [by left|done]].
Qed.

(** ** Issues that are skipped and tags that are missing *)

Lemma update_issue_unknown {J} `{!JiraServer J} (clock : nat -> Z)
    dry_run nominal_flow tag_map resolve_to ci issue_key resolution
    (w : world J) :
  get_issue (jira w) issue_key = None ->
  update_issue clock dry_run nominal_flow tag_map resolve_to ci
               (issue_key, resolution) w
  = (Ok tt, {| session := session w; stored := stored w; jira := jira w;
               clock_reads := clock_reads w;
               trace := Warned (NotAnIssue issue_key) :: trace w |}).
Proof.
  intros H. unfold update_issue, except_JIRAError, jira_issue, jira_ask.
  unfold mbind, M_bind. by rewrite H.
Qed.

(** X23: an issue that jira does not know is skipped with a warning,
    and the loop goes on: when jira knows none of the issues of a
    change, every one is warned about, in order, and the session, what
    is committed, jira and the clock are left alone, so no such issue
    is associated with the change. *)
Theorem unknown_issues_are_skipped :
  forall (J : Type) (JS : JiraServer J) (clock : nat -> Z) dry_run
         nominal_flow tag_map resolve_to ci (l : list (text * text))
         (w : world J),
    (forall p, p ∈ l -> get_issue (jira w) p.1 = None) ->
    for_each l (update_issue clock dry_run nominal_flow tag_map resolve_to ci)
             w
    = (Ok tt,
       {| session := session w; stored := stored w; jira := jira w;
          clock_reads := clock_reads w;
          trace := reverse ((fun p => Warned (NotAnIssue p.1)) <$> l)
                   ++ trace w |}).
Proof.
  intros J JS clock dry flow tags resolve_to ci l.
  induction l as [|[k r] l IH]; intros w Hl.
  - by destruct w.
  - cbn [for_each]. unfold mbind at 1. unfold M_bind.
    rewrite update_issue_unknown by (apply (Hl (k, r)), list_elem_of_here).
    rewrite IH by (intros p Hp; apply Hl; by apply list_elem_of_further).
    cbn [session stored jira clock_reads trace fmap list_fmap fst].
    by rewrite reverse_cons, <- app_assoc.
Qed.

(** The issues of X23 on a jira that knows [PROJ-1] only. *)
Lemma unknown_issues_are_skipped_witness :
  let w := Fake.start (Fake.tracker true) empty_database in
  for_each [(u "A-1", u "Resolved"); (u "B-2", u "Resolved")]
    (update_issue Fake.clock false Fake.flow Fake.tags (u "1")
                  (Fake.change (u "I1") NEW)) w
  = (Ok tt,
     {| session := session w; stored := stored w; jira := jira w;
        clock_reads := clock_reads w;
        trace := [Warned (NotAnIssue (u "B-2"));
                  Warned (NotAnIssue (u "A-1"))] |}).
Proof.
  intros w.
  apply (unknown_issues_are_skipped _ _ Fake.clock false Fake.flow Fake.tags
           (u "1") (Fake.change (u "I1") NEW)
           [(u "A-1", u "Resolved"); (u "B-2", u "Resolved")] w).
  intros p Hp. apply elem_of_cons in Hp as [->|Hp]; [reflexivity|].
  apply list_elem_of_singleton in Hp as ->. reflexivity.
Defined.

(** X24: a tag that the tag map lacks is a [KeyError] as soon as the
    message of a change names an issue under it: the change is printed
    and then the poll is over, before jira is asked about any issue of
    the change, those of the other tag too. *)
Theorem missing_tag_is_a_key_error :
  forall (J : Type) (JS : JiraServer J) (gerrit : GerritServer)
         (clock : nat -> Z) dry_run nominal_flow
         (tag_map : gmap text text) resolve_to ci (message : text)
         (w : world J),
    ci_status ci <> ABANDONED ->
    commit gerrit (change_id ci) (current_revision ci)
    = Some (Some message) ->
    (meta_issues (message_meta message) (u "Closes") <> []
     /\ tag_map !! u "Closes" = None)
    \/ (meta_issues (message_meta message) (u "Resolves") <> []
        /\ tag_map !! u "Resolves" = None) ->
    update_change gerrit clock dry_run nominal_flow tag_map resolve_to ci w
    = (Raise KeyError,
       {| session := session w; stored := stored w; jira := jira w;
          clock_reads := clock_reads w;
          trace := Printed (change_id ci) (ci_status ci) :: trace w |}).
Proof.
  intros J JS gerrit clock dry flow tags resolve_to ci message w Hst Hc Hm.
  unfold update_change. unfold mbind at 1. unfold M_bind at 1.
  unfold emit at 1. cbv iota beta.
  rewrite bool_decide_eq_false_2 by done.
  unfold mbind at 1. unfold M_bind at 1.
  unfold get_message_meta. rewrite Hc. cbv iota beta.
  set (closes := meta_issues (message_meta message) (u "Closes")) in *.
  set (resolves := meta_issues (message_meta message) (u "Resolves")) in *.
  unfold mbind at 1. unfold M_bind at 1. unfold tagged at 1.
  destruct Hm as [[Hn Ht]|[Hn Ht]].
  - destruct closes; [done|]. by rewrite Ht.
  - destruct closes as [|c closes].
    + unfold mret at 1. unfold M_ret at 1. cbv iota beta.
      unfold mbind at 1. unfold M_bind at 1. unfold tagged at 1.
      destruct resolves; [done|]. by rewrite Ht.
    + destruct (tags !! u "Closes"); [|done].
      unfold mret at 1. unfold M_ret at 1. cbv iota beta.
      unfold mbind at 1. unfold M_bind at 1. unfold tagged at 1.
      destruct resolves; [done|]. by rewrite Ht.
Qed.

(** The change of X24 under a tag map without [Resolves]. *)
Lemma missing_tag_is_a_key_error_witness :
  let w := Fake.start (Fake.tracker true) empty_database in
  let message := u "Closes: PROJ-1" ++ [10] ++ u "Resolves: PROJ-2" in
  let tag_map : gmap text text := {[ u "Closes" := u "Resolved" ]} in
  update_change (Fake.gerrit [] message) Fake.clock false Fake.flow tag_map
                (u "1") (Fake.change (u "I1") NEW) w
  = (Raise KeyError,
     {| session := session w; stored := stored w; jira := jira w;
        clock_reads := clock_reads w;
        trace := [Printed (u "I1") NEW] |}).
Proof.
  intros w message tag_map.
  apply (missing_tag_is_a_key_error _ _ (Fake.gerrit [] message) Fake.clock
           false Fake.flow tag_map (u "1") (Fake.change (u "I1") NEW)
           message w).
  - vm_compute. discriminate.
  - reflexivity.
  - right. split; [vm_compute; discriminate|vm_compute; reflexivity].
Defined.

(** X25: an issue whose key in jira has no dash is associated with the
    change all the same, and then left alone with a warning: jira is
    asked for no transition, the transition log and the clock are as
    they were. *)
Theorem issue_without_prefix_stays :
  forall (J : Type) (JS : JiraServer J) (clock : nat -> Z) dry_run
         nominal_flow tag_map resolve_to ci issue_key resolution
         (i : issue) (w : world J),
    get_issue (jira w) issue_key = Some i ->
    dash ∉ key i ->
    exists w',
      update_issue clock dry_run nominal_flow tag_map resolve_to ci
                   (issue_key, resolution) w = (Ok tt, w')
      /\ (1 <= count_rows (same_pair issue_key (change_id ci))
                          (gerrit_jira_map (session w')))%nat
      /\ jira w' = jira w
      /\ gerrit_jira_log (session w') = gerrit_jira_log (session w)
      /\ clock_reads w' = clock_reads w
      /\ trace w'
         = Warned (NoPrefix issue_key)
           :: Informed (Goal issue_key (status_name i)
                             (goal_state_of (ci_status ci) resolution))
           :: trace w.
Proof.
  intros J JS clock dry flow tags resolve_to ci k r i w Hi Hd.
  destruct (associate_returns k (change_id ci) w)
    as (w1 & Ha & Ht & Hj & Hc & Hl & _ & Hn).
  eexists. split.
  - unfold update_issue, except_JIRAError, jira_issue, jira_ask.
    unfold mbind at 1. unfold M_bind at 1.
    unfold mbind at 1. unfold M_bind at 1. rewrite Hi.
    unfold mret at 1. unfold M_ret at 1. cbv iota beta.
    unfold mbind at 1. unfold M_bind at 1. rewrite Ha.
    unfold mbind at 1. unfold M_bind at 1. unfold emit at 1.
    cbv iota beta. unfold gated_transition.
    rewrite bool_decide_eq_false_2 by done. cbn [negb]. unfold emit.
    reflexivity.
  - cbn [session stored jira clock_reads trace]. by rewrite Ht.
Qed.

(** The issue of X25 on a jira whose only issue has a key without a
    dash. *)
Lemma issue_without_prefix_stays_witness :
  let j := {| Fake.statuses := [(u "PROJ1", u "Open")];
              Fake.offered := []; Fake.accepting := true |} in
  let w := Fake.start j empty_database in
  exists w',
    update_issue Fake.clock false Fake.flow Fake.tags (u "1")
                 (Fake.change (u "I1") NEW) (u "PROJ1", u "Resolved") w
    = (Ok tt, w')
    /\ (1 <= count_rows (same_pair (u "PROJ1") (u "I1"))
                        (gerrit_jira_map (session w')))%nat
    /\ jira w' = jira w
    /\ gerrit_jira_log (session w') = gerrit_jira_log (session w)
    /\ clock_reads w' = clock_reads w
    /\ trace w'
       = [Warned (NoPrefix (u "PROJ1"));
          Informed (Goal (u "PROJ1") (u "Open") (u "In Review"))].
Proof.
  intros j w.
  apply (issue_without_prefix_stays _ _ Fake.clock false Fake.flow Fake.tags
           (u "1") (Fake.change (u "I1") NEW) (u "PROJ1") (u "Resolved")
           {| key := u "PROJ1"; status_name := u "Open" |} w).
  - reflexivity.
  - apply (bool_decide_unpack _). vm_compute. exact I.
Defined.
